(** * chemcoord: Z-matrix to Cartesian conversion and dummy-atom recovery

    Shallow embedding of
    [src/chemcoord/internal_coordinates/_zmat_class_core.py].

    The module works on 64-bit floats ([f8]) and 64-bit integers ([i8]).
    The float type and its arithmetic are kept abstract in the class
    [Numeric]: no theorem below uses a law of arithmetic unless the law is
    listed as a hypothesis of that theorem, so the results hold for IEEE
    doubles as well as for the real numbers.  The helpers the module
    imports from other files of the package ([_jit_isclose],
    [_jit_normalize], [_jit_cross], [_jit_get_rotation_matrix], the
    constants of [chemcoord.constants]) and the methods of the Cartesian
    class it calls are fields of the class [Helpers].  An instance of both
    classes over [R] is given in the module [RealModel]; it is used for
    the concrete runs. *)

From Stdlib Require Import List ZArith Bool Lia String.
From Stdlib Require Import Reals Lra Ring RealField.
Import ListNotations.

Set Implicit Arguments.

(** ** Numbers and vectors *)

Class Numeric := {
  F : Type;
  fzero : F;
  fone : F;
  fadd : F -> F -> F;
  fsub : F -> F -> F;
  fmul : F -> F -> F;
  fdiv : F -> F -> F;
  fopp : F -> F;
  fsqrt : F -> F;
  (* np.pi, np.radians, np.isclose with numpy's default tolerances *)
  np_pi : F;
  np_radians : F -> F;
  np_isclose : F -> F -> bool;
  (* what a cell of an np.empty array holds before it is written, and what
     an unchecked read beyond the array returns: arbitrary memory *)
  np_empty_cell : Z -> F * F * F
}.

Section Vectors.
Context {N : Numeric}.

Definition vec : Type := (F * F * F)%type.
Definition mat : Type := (vec * vec * vec)%type.

Definition zeros3 : vec := (fzero, fzero, fzero).

Definition vadd (u v : vec) : vec :=
  let '(u1, u2, u3) := u in let '(v1, v2, v3) := v in
  (fadd u1 v1, fadd u2 v2, fadd u3 v3).

Definition vsub (u v : vec) : vec :=
  let '(u1, u2, u3) := u in let '(v1, v2, v3) := v in
  (fsub u1 v1, fsub u2 v2, fsub u3 v3).

Definition vopp (u : vec) : vec :=
  let '(u1, u2, u3) := u in (fopp u1, fopp u2, fopp u3).

(* scalar * array *)
Definition smul (s : F) (u : vec) : vec :=
  let '(u1, u2, u3) := u in (fmul s u1, fmul s u2, fmul s u3).

(* array / scalar *)
Definition sdiv (u : vec) (s : F) : vec :=
  let '(u1, u2, u3) := u in (fdiv u1 s, fdiv u2 s, fdiv u3 s).

Definition vdot (u v : vec) : F :=
  let '(u1, u2, u3) := u in let '(v1, v2, v3) := v in
  fadd (fadd (fmul u1 v1) (fmul u2 v2)) (fmul u3 v3).

(* np.dot(matrix, vector) *)
Definition np_dot (m : mat) (v : vec) : vec :=
  let '(r1, r2, r3) := m in (vdot r1 v, vdot r2 v, vdot r3 v).

(* np.cross *)
Definition np_cross (u v : vec) : vec :=
  let '(u1, u2, u3) := u in let '(v1, v2, v3) := v in
  (fsub (fmul u2 v3) (fmul u3 v2),
   fsub (fmul u3 v1) (fmul u1 v3),
   fsub (fmul u1 v2) (fmul u2 v1)).

(* np.linalg.norm *)
Definition np_linalg_norm (u : vec) : F := fsqrt (vdot u u).

(* np.isclose(u, v).all() on arrays of three floats *)
Definition np_allclose (u v : vec) : bool :=
  let '(u1, u2, u3) := u in let '(v1, v2, v3) := v in
  np_isclose u1 v1 && np_isclose u2 v2 && np_isclose u3 v3.

End Vectors.

(** ** The package's helpers that are not part of this file *)

(** The two error codes of [chemcoord.exceptions]. *)
Inductive err_code := ERR_CODE_OK | ERR_CODE_InvalidReference.

Definition err_code_eqb (a b : err_code) : bool :=
  match a, b with
  | ERR_CODE_OK, ERR_CODE_OK => true
  | ERR_CODE_InvalidReference, ERR_CODE_InvalidReference => true
  | _, _ => false
  end.

(** A Cartesian frame: one row [(label, atom, position)] per atom. *)
Definition Cartesian {N : Numeric} : Type := list (Z * string * vec).

(** The exception [InvalidReference] with its attributes. *)
Record InvalidRef {N : Numeric} := {
  exc_index : Z;
  exc_b : Z;
  exc_a : Z;
  exc_d : Z;
  already_built_cartesian : Cartesian
}.

Inductive exn {N : Numeric} :=
| InvalidReference (e : InvalidRef)
| KeyError (label : Z)
| IndexError
| ValueError
| AttributeError
| RecursionError
| PhysicalMeaning.

Inductive result {N : Numeric} (A : Type) :=
| Return (x : A)
| Raise (e : exn).
Arguments Return {N A} x.
Arguments Raise {N A} e.

(** [warnings.warn]: the two notices of this file. *)
Inductive notice :=
| DummyInserted (i dummy_d : Z)
| DummiesRemoved (to_remove : list Z).

Class Helpers {N : Numeric} := {
  (* chemcoord.cartesian_coordinates.xyz_functions *)
  _jit_isclose : F -> F -> bool;
  _jit_normalize : vec -> vec;
  _jit_cross : vec -> vec -> vec;
  _jit_get_rotation_matrix : vec -> F -> mat;
  (* chemcoord.constants *)
  keys_below_are_abs_refs : Z;
  _jit_absolute_refs : Z -> vec;
  (* Cartesian._get_positions: the positions of three labels *)
  _get_positions : Cartesian -> Z * Z * Z -> result (vec * vec * vec);
  (* Cartesian._calculate_zmat_values: one (bond, angle, dihedral) per
     row (label, b, a, d) of the given table *)
  _calculate_zmat_values :
    Cartesian -> list (Z * (Z * Z * Z)) -> result (list (F * F * F))
}.

(** ** Placement of one atom *)

Section Kernel.
Context {N : Numeric} {H : Helpers}.

(* _jit_isclose(u, v).all() *)
Definition jit_allclose (u v : vec) : bool :=
  let '(u1, u2, u3) := u in let '(v1, v2, v3) := v in
  _jit_isclose u1 v1 && _jit_isclose u2 v2 && _jit_isclose u3 v3.

Definition _jit_calc_single_position
    (references : vec * vec * vec) (zmat_values : list (F * F * F))
    (row : nat) : err_code * vec :=
  let '(bond, angle, dihedral) := nth row zmat_values (fzero, fzero, fzero) in
  let '(vb, va, vd) := references in
  let zeros := zeros3 in
  let BA := vsub va vb in
  if jit_allclose BA zeros then (ERR_CODE_InvalidReference, zeros)
  else
    let ba := _jit_normalize BA in
    if _jit_isclose angle np_pi then
      (ERR_CODE_OK, vadd vb (smul bond (vopp ba)))
    else if _jit_isclose angle fzero then
      (ERR_CODE_OK, vadd vb (smul bond ba))
    else
      let AD := vsub vd va in
      let N1 := _jit_cross BA AD in
      if jit_allclose N1 zeros then (ERR_CODE_InvalidReference, zeros)
      else
        let n1 := _jit_normalize N1 in
        let d := smul bond ba in
        let d := np_dot (_jit_get_rotation_matrix n1 angle) d in
        let d := np_dot (_jit_get_rotation_matrix ba dihedral) d in
        (ERR_CODE_OK, vadd vb d).

End Kernel.

(** ** The Z-matrix *)

Section DataModel.
Context {N : Numeric}.

(** One row of the frame, in the column order
    [atom, b, bond, a, angle, d, dihedral] that [change_numbering]
    relies on when it addresses columns 1, 3 and 5. *)
Record zrow := {
  atom : string;
  b : Z;
  bond : F;
  a : Z;
  angle : F;
  d : Z;
  dihedral : F
}.

(** The frame: the rows in table order, each under its index label. *)
Definition Frame : Type := list (Z * zrow).

(** [_metadata['has_dummies'][i]] *)
Record dummy_entry := { dummy_d : Z; actual_d : Z }.

Record Metadata := {
  last_valid_cartesian : Cartesian;
  has_dummies : list (Z * dummy_entry);     (* a dict, in insertion order *)
  dummy_manipulation_allowed : bool;
  test_operators : bool
}.

Record Zmat := {
  _frame : Frame;
  _metadata : Metadata
}.

Definition index (fr : Frame) : list Z := map fst fr.

(* self.loc[i]: the row under label i (labels are distinct) *)
Fixpoint loc (fr : Frame) (i : Z) : option zrow :=
  match fr with
  | [] => None
  | (k, r) :: rest => if Z.eqb k i then Some r else loc rest i
  end.

(* self.index.get_loc(i) *)
Fixpoint get_loc (idx : list Z) (i : Z) : option nat :=
  match idx with
  | [] => None
  | k :: rest =>
      if Z.eqb k i then Some 0%nat
      else match get_loc rest i with
           | Some p => Some (S p)
           | None => None
           end
  end.

Definition set_b (v : Z) (r : zrow) : zrow :=
  {| atom := atom r; b := v; bond := bond r; a := a r; angle := angle r;
     d := d r; dihedral := dihedral r |}.
Definition set_a (v : Z) (r : zrow) : zrow :=
  {| atom := atom r; b := b r; bond := bond r; a := v; angle := angle r;
     d := d r; dihedral := dihedral r |}.
Definition set_d (v : Z) (r : zrow) : zrow :=
  {| atom := atom r; b := b r; bond := bond r; a := a r; angle := angle r;
     d := v; dihedral := dihedral r |}.
Definition set_atom (s : string) (r : zrow) : zrow :=
  {| atom := s; b := b r; bond := bond r; a := a r; angle := angle r;
     d := d r; dihedral := dihedral r |}.
Definition set_values (v : F * F * F) (r : zrow) : zrow :=
  let '(x, y, z) := v in
  {| atom := atom r; b := b r; bond := x; a := a r; angle := y;
     d := d r; dihedral := z |}.

(* frame.loc[i, ...] = ...: rewrite the row under label i *)
Fixpoint loc_update (fr : Frame) (i : Z) (f : zrow -> zrow) : Frame :=
  match fr with
  | [] => []
  | (k, r) :: rest =>
      if Z.eqb k i then (k, f r) :: rest else (k, r) :: loc_update rest i f
  end.

(* frame.drop(labels) *)
Definition drop (fr : Frame) (labels : list Z) : Frame :=
  filter (fun kr => negb (existsb (Z.eqb (fst kr)) labels)) fr.

(** *** change_numbering, as [get_cartesian] calls it:
    [new_index=None, inplace=False, exclude_upper_triangle=True] *)

(* DataFrame.replace(out.index, new_index) on one cell: a label of the
   index becomes its position, any other value stays *)
Definition replace_label (idx : list Z) (v : Z) : Z :=
  match get_loc idx v with
  | Some p => Z.of_nat p
  | None => v
  end.

(* the row at position i after the replacement and after the upper
   triangle (columns [1, 3, 5][i:] of row i, for i < 3) is written back *)
Definition renumber_row (idx : list Z) (i : nat) (r : zrow) : zrow :=
  let rb := replace_label idx (b r) in
  let ra := replace_label idx (a r) in
  let rd := replace_label idx (d r) in
  match i with
  | 0%nat => r
  | 1%nat => set_b rb r
  | 2%nat => set_a ra (set_b rb r)
  | _ => set_d rd (set_a ra (set_b rb r))
  end.

Fixpoint renumber_from (idx : list Z) (i : nat) (fr : Frame) : Frame :=
  match fr with
  | [] => []
  | (_, r) :: rest =>
      (Z.of_nat i, renumber_row idx i r) :: renumber_from idx (S i) rest
  end.

Definition change_numbering (self : Zmat) : Zmat :=
  {| _frame := renumber_from (index (_frame self)) 0 (_frame self);
     _metadata := _metadata self |}.

End DataModel.


(** ** Placement of all atoms and the conversion entry point *)

Section Conversion.
Context {N : Numeric} {H : Helpers}.

(* np.empty((n_atoms, 3)) *)
Definition np_empty (n_atoms : nat) : list vec :=
  map (fun k => np_empty_cell (Z.of_nat k)) (seq 0 n_atoms).

(* positions[j] inside the jitted loop: a negative index wraps around once,
   and no bound is checked *)
Definition positions_get (positions : list vec) (j : Z) : vec :=
  let n := Z.of_nat (List.length positions) in
  let j' := if (j <? 0)%Z then (j + n)%Z else j in
  if ((0 <=? j') && (j' <? n))%Z
  then nth (Z.to_nat j') positions (np_empty_cell j')
  else np_empty_cell j'.

(* positions[row] = pos *)
Fixpoint positions_set (positions : list vec) (row : nat) (pos : vec)
  : list vec :=
  match positions, row with
  | [], _ => []
  | _ :: rest, O => pos :: rest
  | p :: rest, S k => p :: positions_set rest k pos
  end.

(* ref_pos[k] for one entry j of the construction table *)
Definition ref_position (positions : list vec) (j : Z) : vec :=
  if (j <? keys_below_are_abs_refs)%Z then _jit_absolute_refs j
  else positions_get positions j.

Definition ref_positions (positions : list vec) (c : Z * Z * Z)
  : vec * vec * vec :=
  let '(jb, ja, jd) := c in
  (ref_position positions jb, ref_position positions ja,
   ref_position positions jd).

(** The body of [for row in range(n_atoms)].  [last] is the value the
    variable [row] holds when the loop is entered with the rows [rows]
    still to do; after the loop it is the value returned. *)
Fixpoint calc_positions_loop (c_table : list (Z * Z * Z))
    (zmat_values : list (F * F * F)) (rows : list nat) (last : nat)
    (positions : list vec) : err_code * nat * list vec :=
  match rows with
  | [] => (ERR_CODE_OK, last, positions)
  | row :: rest =>
      let ref_pos :=
        ref_positions positions (nth row c_table (0, 0, 0)%Z) in
      let '(err, pos) := _jit_calc_single_position ref_pos zmat_values row in
      if err_code_eqb err ERR_CODE_OK then
        calc_positions_loop c_table zmat_values rest row
          (positions_set positions row pos)
      else (err, row, positions)
  end.

(** For an empty table the loop variable is never assigned; compiled with
    numba, it then reads as 0. *)
Definition _jit_calc_positions (c_table : list (Z * Z * Z))
    (zmat_values : list (F * F * F)) : err_code * nat * list vec :=
  let n_atoms := List.length c_table in
  let positions := np_empty n_atoms in
  calc_positions_loop c_table zmat_values (seq 0 n_atoms) 0 positions.

Definition c_table_of (fr : Frame) : list (Z * Z * Z) :=
  map (fun kr => (b (snd kr), a (snd kr), d (snd kr))) fr.

(* the columns bond, angle, dihedral, the last two passed through
   np.radians *)
Definition zmat_values_of (fr : Frame) : list (F * F * F) :=
  map (fun kr => (bond (snd kr), np_radians (angle (snd kr)),
                  np_radians (dihedral (snd kr)))) fr.

Definition atom_of (fr : Frame) (i : Z) : string :=
  match loc fr i with
  | Some r => atom r
  | None => EmptyString
  end.

(* create_cartesian(positions, row) *)
Definition create_cartesian (self : Zmat) (positions : list vec) (row : nat)
  : Cartesian :=
  let idx := firstn row (index (_frame self)) in
  combine (combine idx (map (atom_of (_frame self)) idx))
          (firstn row positions).

Definition get_cartesian (self : Zmat) : result Cartesian :=
  let zmat := change_numbering self in
  let c_table := c_table_of (_frame zmat) in
  let zmat_values := zmat_values_of (_frame zmat) in
  let '(err, row, positions) := _jit_calc_positions c_table zmat_values in
  match err with
  | ERR_CODE_InvalidReference =>
      let i := nth row (index (_frame self)) 0%Z in
      match loc (_frame self) i with
      | Some r =>
          Raise (InvalidReference
                   {| exc_index := i; exc_b := b r; exc_a := a r;
                      exc_d := d r;
                      already_built_cartesian :=
                        create_cartesian self positions row |})
      | None => Raise (KeyError i)
      end
  | ERR_CODE_OK => Return (create_cartesian self positions (row + 1))
  end.

(** *** What the specification calls the first singularity *)

(** The positions array when row [j] is entered: the rows before [j] hold
    the positions [placed], the others are as [np.empty] left them. *)
Definition array_at (n_atoms : nat) (placed : list vec) (j : nat) : list vec :=
  firstn j placed ++ skipn j (np_empty n_atoms).

(** What the placement of one atom returns for row [j] then. *)
Definition placement_at (c_table : list (Z * Z * Z))
    (zmat_values : list (F * F * F)) (placed : list vec) (j : nat)
  : err_code * vec :=
  _jit_calc_single_position
    (ref_positions (array_at (List.length c_table) placed j)
       (nth j c_table (0, 0, 0)%Z))
    zmat_values j.

(** The rows before [i] are placed without a singularity, at [placed]. *)
Definition placed_before (c_table : list (Z * Z * Z))
    (zmat_values : list (F * F * F)) (placed : list vec) (i : nat) : Prop :=
  forall j, (j < i)%nat ->
    placement_at c_table zmat_values placed j
    = (ERR_CODE_OK, nth j placed zeros3).

(** The table and the values the jitted loop receives. *)
Definition jit_c_table (self : Zmat) : list (Z * Z * Z) :=
  c_table_of (_frame (change_numbering self)).
Definition jit_zmat_values (self : Zmat) : list (F * F * F) :=
  zmat_values_of (_frame (change_numbering self)).

(** The Cartesian frame of the first rows of [self] at given positions. *)
Definition cartesian_of (self : Zmat) (placed : list vec) : Cartesian :=
  combine (combine (index (_frame self))
                   (map (fun kr => atom (snd kr)) (_frame self)))
          placed.

(** The table the loop receives is in topological order: every entry of
    row [k] is a sentinel or the position of a row before [k]. *)
Definition ref_okb (k : nat) (j : Z) : bool :=
  (j <? keys_below_are_abs_refs)%Z || ((0 <=? j)%Z && (j <? Z.of_nat k)%Z).

Fixpoint topological_from (k : nat) (c_table : list (Z * Z * Z)) : bool :=
  match c_table with
  | [] => true
  | (jb, ja, jd) :: rest =>
      ref_okb k jb && ref_okb k ja && ref_okb k jd
      && topological_from (S k) rest
  end.

Definition topologicalb (c_table : list (Z * Z * Z)) : bool :=
  topological_from 0 c_table.


End Conversion.

(** ** Dummy atoms *)

Section Recovery.
Context {N : Numeric} {H : Helpers}.

(** Methods that work in place: the object [zmat] they mutate is threaded
    through, the notices they emit are collected, and an exception leaves
    with the object as it was mutated up to then. *)
Definition M (A : Type) : Type := Zmat -> Zmat * list notice * result A.

Definition ret {A} (x : A) : M A := fun z => (z, [], Return x).

Definition bind {A B} (m : M A) (k : A -> M B) : M B :=
  fun z =>
    let '(z1, w1, r) := m z in
    match r with
    | Return x => let '(z2, w2, r2) := k x z1 in (z2, w1 ++ w2, r2)
    | Raise e => (z1, w1, Raise e)
    end.

Definition lift {A} (f : Zmat -> result A) : M A := fun z => (z, [], f z).
Definition modify (f : Zmat -> Zmat) : M unit := fun z => (f z, [], Return tt).
Definition warn (n : notice) : M unit := fun z => (z, [n], Return tt).

Notation "x <- m ;; k" := (bind m (fun x => k))
  (at level 61, m at next level, right associativity).
Notation "m ;;; k" := (bind m (fun _ => k))
  (at level 61, right associativity).

Definition set_frame (fr : Frame) (z : Zmat) : Zmat :=
  {| _frame := fr; _metadata := _metadata z |}.

Definition set_has_dummies (hd : list (Z * dummy_entry)) (z : Zmat) : Zmat :=
  {| _frame := _frame z;
     _metadata :=
       {| last_valid_cartesian := last_valid_cartesian (_metadata z);
          has_dummies := hd;
          dummy_manipulation_allowed :=
            dummy_manipulation_allowed (_metadata z);
          test_operators := test_operators (_metadata z) |} |}.

Definition set_last_valid_cartesian (c : Cartesian) (z : Zmat) : Zmat :=
  {| _frame := _frame z;
     _metadata :=
       {| last_valid_cartesian := c;
          has_dummies := has_dummies (_metadata z);
          dummy_manipulation_allowed :=
            dummy_manipulation_allowed (_metadata z);
          test_operators := test_operators (_metadata z) |} |}.

(** *** The dict [has_dummies] *)

Fixpoint dict_get (hd : list (Z * dummy_entry)) (k : Z) : option dummy_entry :=
  match hd with
  | [] => None
  | (k', e) :: rest => if Z.eqb k' k then Some e else dict_get rest k
  end.

(* k in has_dummies *)
Definition dict_mem (hd : list (Z * dummy_entry)) (k : Z) : bool :=
  match dict_get hd k with Some _ => true | None => false end.

(* has_dummies[k] = e *)
Fixpoint dict_set (hd : list (Z * dummy_entry)) (k : Z) (e : dummy_entry)
  : list (Z * dummy_entry) :=
  match hd with
  | [] => [(k, e)]
  | (k', e') :: rest =>
      if Z.eqb k' k then (k', e) :: rest else (k', e') :: dict_set rest k e
  end.

(* has_dummies.pop(k) *)
Definition dict_pop (hd : list (Z * dummy_entry)) (k : Z)
  : list (Z * dummy_entry) :=
  filter (fun ke => negb (Z.eqb (fst ke) k)) hd.

(* [has_dummies[k] for k in keys] *)
Fixpoint dict_get_list (hd : list (Z * dummy_entry)) (keys : list Z)
  : result (list dummy_entry) :=
  match keys with
  | [] => Return []
  | k :: rest =>
      match dict_get hd k with
      | None => Raise (KeyError k)
      | Some e =>
          match dict_get_list hd rest with
          | Return es => Return (e :: es)
          | Raise x => Raise x
          end
      end
  end.

(* frame.loc[labels]: the rows under the labels, in the order of labels *)
Fixpoint loc_list (fr : Frame) (labels : list Z) : result (list zrow) :=
  match labels with
  | [] => Return []
  | k :: rest =>
      match loc fr k with
      | None => Raise (KeyError k)
      | Some r =>
          match loc_list fr rest with
          | Return rs => Return (r :: rs)
          | Raise x => Raise x
          end
      end
  end.

(** *** _insert_dummy_cart *)

(* max(self.index) *)
Definition index_max (idx : list Z) : Z :=
  match idx with
  | [] => 0%Z
  | k :: rest => fold_left Z.max rest k
  end.

(* cartesian.loc[i, ...] = ...: the row under label i is overwritten, a new
   label is appended *)
Fixpoint cart_set (c : Cartesian) (i : Z) (s : string) (p : vec) : Cartesian :=
  match c with
  | [] => [(i, s, p)]
  | (k, s', p') :: rest =>
      if Z.eqb k i then (k, s, p) :: rest else (k, s', p') :: cart_set rest i s p
  end.

Definition get_normal_vec (cartesian : Cartesian) (reference_labels : Z * Z * Z)
  : result vec :=
  match _get_positions cartesian reference_labels with
  | Raise e => Raise e
  | Return (b_pos, a_pos, d_pos) =>
      let BA := vsub a_pos b_pos in
      let AD := vsub d_pos a_pos in
      let N1 := np_cross BA AD in
      let n1 := sdiv N1 (np_linalg_norm N1) in
      Return n1
  end.

(* the inner function insert_dummy of _insert_dummy_cart *)
Definition cart_insert_dummy (self : Zmat) (cartesian : Cartesian)
    (reference_labels : Z * Z * Z) (n1 : vec) : result (Cartesian * Z) :=
  match _get_positions cartesian reference_labels with
  | Raise e => Raise e
  | Return (b_pos, a_pos, d_pos) =>
      let BA := vsub a_pos b_pos in
      let N2 := np_cross n1 BA in
      let n2 := sdiv N2 (np_linalg_norm N2) in
      let i_dummy := (index_max (index (_frame self)) + 1)%Z in
      Return (cart_set cartesian i_dummy "X"%string (vadd a_pos n2), i_dummy)
  end.

Definition _insert_dummy_cart (self : Zmat) (exception : InvalidRef)
  : result (Cartesian * Z) :=
  let last_valid_cartesian := last_valid_cartesian (_metadata self) in
  match loc (_frame self) (exc_index exception) with
  | None => Raise (KeyError (exc_index exception))
  | Some r =>
      let ref_labels := (b r, a r, d r) in
      match get_normal_vec last_valid_cartesian ref_labels with
      | Raise e => Raise e
      | Return n1 =>
          cart_insert_dummy self (already_built_cartesian exception)
            ref_labels n1
      end
  end.

(** *** _insert_dummy_zmat *)

(* the inner function insert_row; None is Python's None, returned when
   pos > len(df) *)
Definition insert_row (df : Frame) (pos : nat) (key : Z) : option Frame :=
  if (pos <? List.length df)%nat then
    let middle := map (fun kr => (key, snd kr)) (firstn 1 (skipn pos df)) in
    let start := firstn pos df in
    let end_ := skipn pos df in
    Some (start ++ middle ++ end_)
  else if (pos =? List.length df)%nat then
    match rev df with
    | [] => None
    | (_, r) :: _ => Some (df ++ [(key, r)])
    end
  else None.

Definition set_cols (c : Z * Z * Z) (r : zrow) : zrow :=
  let '(vb, va, vd) := c in set_d vd (set_a va (set_b vb r)).

(* the inner function insert_dummy of _insert_dummy_zmat *)
Definition zmat_insert_dummy (i : Z) (dummy_cart : Cartesian) (dummy_d : Z)
  : M unit :=
  fun zmat =>
    let fr := _frame zmat in
    match loc fr i with
    | None => (zmat, [], Raise (KeyError i))
    | Some ri =>
      let actual_d := d ri in
      match get_loc (index fr) i with
      | None => (zmat, [], Raise (KeyError i))
      | Some pos =>
        match insert_row fr pos dummy_d with
        | None => (zmat, [], Raise AttributeError)
        | Some zframe =>
          let zframe := loc_update zframe i (set_d dummy_d) in
          let zframe := loc_update zframe dummy_d (set_atom "X"%string) in
          match loc fr actual_d with
          | None => (zmat, [], Raise (KeyError actual_d))
          | Some rd =>
            let cols := (b rd, a rd, d rd) in
            let zframe := loc_update zframe dummy_d (set_cols cols) in
            match _calculate_zmat_values dummy_cart [(dummy_d, cols)] with
            | Raise e => (zmat, [], Raise e)
            | Return [] => (zmat, [], Raise IndexError)
            | Return (zmat_values :: _) =>
              let zframe := loc_update zframe dummy_d (set_values zmat_values) in
              let hd :=
                dict_set (has_dummies (_metadata zmat)) i
                  {| dummy_d := dummy_d; actual_d := actual_d |} in
              (set_has_dummies hd (set_frame zframe zmat),
               [DummyInserted i dummy_d], Return tt)
            end
          end
        end
      end
    end.

(** *** _has_removable_dummies and _remove_dummies *)

(* xyz.loc[labels].values *)
Fixpoint cart_loc (xyz : Cartesian) (i : Z) : option vec :=
  match xyz with
  | [] => None
  | (k, _, p) :: rest => if Z.eqb k i then Some p else cart_loc rest i
  end.

Fixpoint cart_loc_list (xyz : Cartesian) (labels : list Z) : result (list vec) :=
  match labels with
  | [] => Return []
  | k :: rest =>
      match cart_loc xyz k with
      | None => Raise (KeyError k)
      | Some p =>
          match cart_loc_list xyz rest with
          | Return ps => Return (p :: ps)
          | Raise x => Raise x
          end
      end
  end.

(* the table self.loc[keys, ['b', 'a', 'd']] with the column d overwritten
   by the recorded actual_d *)
Definition actual_c_table (rows : list zrow) (entries : list dummy_entry)
  : list (Z * Z * Z) :=
  map (fun re => (b (fst re), a (fst re), actual_d (snd re)))
      (combine rows entries).

Definition _has_removable_dummies (self : Zmat) : result (list Z) :=
  let has_dummies := has_dummies (_metadata self) in
  let to_be_tested := map fst has_dummies in
  match loc_list (_frame self) to_be_tested with
  | Raise e => Raise e
  | Return rows =>
    let c_table := actual_c_table rows (map snd has_dummies) in
    match get_cartesian self with
    | Raise e => Raise e
    | Return xyz =>
      match cart_loc_list xyz (map (fun c => snd (fst c)) c_table) with
      | Raise e => Raise e
      | Return pa =>
        match cart_loc_list xyz (map (fun c => fst (fst c)) c_table) with
        | Raise e => Raise e
        | Return pb =>
          match cart_loc_list xyz (map snd c_table) with
          | Raise e => Raise e
          | Return pd =>
            let BA := map (fun uv => vsub (fst uv) (snd uv)) (combine pa pb) in
            let AD := map (fun uv => vsub (fst uv) (snd uv)) (combine pd pa) in
            let remove :=
              map (fun uv => negb (np_allclose (np_cross (fst uv) (snd uv))
                                     zeros3))
                  (combine BA AD) in
            Return (map fst (filter snd (combine to_be_tested remove)))
          end
        end
      end
    end
  end.

(* frame.drop(labels): every label has to be present *)
Definition drop_checked (fr : Frame) (labels : list Z) : result Frame :=
  match loc_list fr labels with
  | Raise e => Raise e
  | Return _ => Return (drop fr labels)
  end.

Definition update_each {A} (f : A -> zrow -> zrow) (fr : Frame)
    (kvs : list (Z * A)) : Frame :=
  fold_left (fun acc kv => loc_update acc (fst kv) (f (snd kv))) kvs fr.

Definition _remove_dummies (to_remove : option (list Z)) : M unit :=
  fun zmat =>
    match (match to_remove with
           | None => _has_removable_dummies zmat
           | Some l => Return l
           end) with
    | Raise e => (zmat, [], Raise e)
    | Return [] => (zmat, [], Return tt)
    | Return to_remove =>
      let has_dummies := has_dummies (_metadata zmat) in
      match loc_list (_frame zmat) to_remove with
      | Raise e => (zmat, [], Raise e)
      | Return rows =>
        match dict_get_list has_dummies to_remove with
        | Raise e => (zmat, [], Raise e)
        | Return entries =>
          let c_table := actual_c_table rows entries in
          let zmat :=
            set_frame (update_each set_d (_frame zmat)
                         (combine to_remove (map actual_d entries))) zmat in
          match get_cartesian zmat with
          | Raise e => (zmat, [], Raise e)
          | Return cartesian =>
            match _calculate_zmat_values cartesian
                    (combine to_remove c_table) with
            | Raise e => (zmat, [], Raise e)
            | Return zmat_values =>
              if negb (List.length zmat_values =? List.length to_remove)%nat
              then (zmat, [], Raise ValueError)
              else
                let zmat :=
                  set_frame (update_each set_values (_frame zmat)
                               (combine to_remove zmat_values)) zmat in
                match drop_checked (_frame zmat) (map dummy_d entries) with
                | Raise e => (zmat, [], Raise e)
                | Return fr =>
                  let zmat := set_frame fr zmat in
                  (set_has_dummies
                     (fold_left dict_pop to_remove has_dummies) zmat,
                   [DummiesRemoved to_remove], Return tt)
                end
            end
          end
        end
      end
    end.

(** The first half of [_insert_dummy_zmat]: the recorded dummy of the
    failing atom is removed, or a new one is inserted. *)
Definition toggle_dummy (exception : InvalidRef) : M unit :=
  fun zmat =>
    if dict_mem (has_dummies (_metadata zmat)) (exc_index exception) then
      _remove_dummies (Some [exc_index exception]) zmat
    else
      match _insert_dummy_cart zmat exception with
      | Raise e => (zmat, [], Raise e)
      | Return (dummy_cart, dummy_d) =>
          zmat_insert_dummy (exc_index exception) dummy_cart dummy_d zmat
      end.

(** [depth] is the number of nested calls the interpreter still allows;
    beyond it Python raises RecursionError. *)
Fixpoint _insert_dummy_zmat (depth : nat) (exception : InvalidRef) : M unit :=
  match depth with
  | O => fun zmat => (zmat, [], Raise RecursionError)
  | S depth' =>
      toggle_dummy exception ;;;
      (fun zmat =>
         match get_cartesian zmat with
         | Return c => (set_last_valid_cartesian c zmat, [], Return tt)
         | Raise (InvalidReference e) => _insert_dummy_zmat depth' e zmat
         | Raise e => (zmat, [], Raise e)
         end)
  end.

Definition _manipulate_dummies (depth : nat) (exception : InvalidRef) : M unit :=
  _insert_dummy_zmat depth exception ;;;
  _remove_dummies None.

End Recovery.

(** ** The constructor *)

Section Constructor.
Context {N : Numeric}.




End Constructor.

(** ** change_numbering with all its arguments *)

Section Renumbering.
Context {N : Numeric}.

(* DataFrame.replace(out.index, new_index) on one cell: the label at
   position p of the index becomes the entry at position p of new_index,
   any other value stays *)
Definition replace_with (idx new_index : list Z) (v : Z) : Z :=
  match get_loc idx v with
  | Some p => nth p new_index v
  | None => v
  end.

(* the row at position i after the replacement; with
   exclude_upper_triangle the columns [1, 3, 5][i:] of row i, for i < 3,
   are written back *)
Definition renumber_row_with (idx new_index : list Z)
    (exclude_upper_triangle : bool) (i : nat) (r : zrow) : zrow :=
  let rb := replace_with idx new_index (b r) in
  let ra := replace_with idx new_index (a r) in
  let rd := replace_with idx new_index (d r) in
  if exclude_upper_triangle then
    match i with
    | 0%nat => r
    | 1%nat => set_b rb r
    | 2%nat => set_a ra (set_b rb r)
    | _ => set_d rd (set_a ra (set_b rb r))
    end
  else set_d rd (set_a ra (set_b rb r)).

Fixpoint renumber_rows (idx new_index : list Z)
    (exclude_upper_triangle : bool) (i : nat) (fr : Frame) : list zrow :=
  match fr with
  | [] => []
  | (_, r) :: rest =>
      renumber_row_with idx new_index exclude_upper_triangle i r
      :: renumber_rows idx new_index exclude_upper_triangle (S i) rest
  end.

(* range(len(self)) *)
Definition range_index (n : nat) : list Z := map Z.of_nat (seq 0 n).

(** [change_numbering(new_index, inplace, exclude_upper_triangle)]: the
    renumbered object, which is [self] itself for [inplace=True] and a
    copy otherwise. *)
Definition change_numbering_with (new_index : option (list Z))
    (exclude_upper_triangle : bool) (self : Zmat) : result Zmat :=
  let n := List.length (_frame self) in
  let renumbered (l : list Z) : Zmat :=
    {| _frame :=
         combine l
           (renumber_rows (index (_frame self)) l exclude_upper_triangle 0
              (_frame self));
       _metadata := _metadata self |} in
  match new_index with
  | None => Return (renumbered (range_index n))
  | Some l =>
      if negb (List.length l =? n)%nat then Raise ValueError
      else Return (renumbered l)
  end.

(** The entries of the columns b, a, d that the replacement reaches: all
    of them, or those outside the upper triangle. *)
Fixpoint replaced_refs (exclude_upper_triangle : bool) (i : nat) (fr : Frame)
  : list Z :=
  match fr with
  | [] => []
  | (_, r) :: rest =>
      (if exclude_upper_triangle then
         match i with
         | 0%nat => []
         | 1%nat => [b r]
         | 2%nat => [b r; a r]
         | _ => [b r; a r; d r]
         end
       else [b r; a r; d r])
      ++ replaced_refs exclude_upper_triangle (S i) rest
  end.


End Renumbering.

(** ** Vocabulary of the statements *)

Section Vocabulary.
Context {N : Numeric} {H : Helpers}.

(** The displacement as the specification words it: anti-parallel for an
    angle of pi, parallel for an angle of 0, and otherwise [bond * ba]
    rotated by [angle] around [n1] and then by [dihedral] around [ba]. *)
Definition spec_displacement (vb va vd : vec) (bond angle dihedral : F) : vec :=
  let BA := vsub va vb in
  let ba := _jit_normalize BA in
  if _jit_isclose angle np_pi then smul bond (vopp ba)
  else if _jit_isclose angle fzero then smul bond ba
  else
    let n1 := _jit_normalize (_jit_cross BA (vsub vd va)) in
    np_dot (_jit_get_rotation_matrix ba dihedral)
      (np_dot (_jit_get_rotation_matrix n1 angle) (smul bond ba)).

(** The condition under which the specification asks for a singularity. *)
Definition spec_singular (vb va vd : vec) (angle : F) : Prop :=
  jit_allclose (vsub va vb) zeros3 = true \/
  (_jit_isclose angle np_pi = false /\
   _jit_isclose angle fzero = false /\
   jit_allclose (_jit_cross (vsub va vb) (vsub vd va)) zeros3 = true).

(** The row of a new dummy: the atom X, the references [cols] and the
    values [v]. *)
Definition dummy_row (cols : Z * Z * Z) (v : F * F * F) : zrow :=
  {| atom := "X"%string;
     b := fst (fst cols); bond := fst (fst v);
     a := snd (fst cols); angle := snd (fst v);
     d := snd cols; dihedral := snd v |}.

(** The position [_insert_dummy_cart] gives the dummy: the position of the
    a reference, offset by [n2 = N2 / |N2|] for [N2 = n1 x BA]. *)
Definition dummy_offset (n1 b_pos a_pos : vec) : vec :=
  let BA := vsub a_pos b_pos in
  let N2 := np_cross n1 BA in
  sdiv N2 (np_linalg_norm N2).

Definition plane_normal (b_pos a_pos d_pos : vec) : vec :=
  let N1 := np_cross (vsub a_pos b_pos) (vsub d_pos a_pos) in
  sdiv N1 (np_linalg_norm N1).

Definition zrow0 : zrow :=
  {| atom := EmptyString; b := 0; bond := fzero; a := 0; angle := fzero;
     d := 0; dihedral := fzero |}.

Definition loc_or (fr : Frame) (k : Z) : zrow :=
  match loc fr k with Some r => r | None => zrow0 end.


Definition dict_get_or (hd : list (Z * dummy_entry)) (k : Z) : dummy_entry :=
  match dict_get hd k with
  | Some e => e
  | None => {| dummy_d := 0; actual_d := 0 |}
  end.


Definition in_labels (labels : list Z) (k : Z) : bool :=
  existsb (Z.eqb k) labels.

(** The ZMatrix once the recorded original d references are written back
    to the rows [to_remove]. *)
Definition restore_d (zmat : Zmat) (to_remove : list Z) : Zmat :=
  let hd := has_dummies (_metadata zmat) in
  set_frame
    (update_each set_d (_frame zmat)
       (combine to_remove
          (map (fun k => actual_d (dict_get_or hd k)) to_remove)))
    zmat.

(** The construction rows handed to the Cartesian for the rows
    [to_remove]: their b and a, and the recorded original d. *)
Definition removal_table (zmat : Zmat) (to_remove : list Z)
  : list (Z * (Z * Z * Z)) :=
  let hd := has_dummies (_metadata zmat) in
  let fr := _frame zmat in
  map (fun k => (k, (b (loc_or fr k), a (loc_or fr k),
                     actual_d (dict_get_or hd k)))) to_remove.

(** The labels of the dummies recorded for [to_remove]. *)
Definition removed_labels (zmat : Zmat) (to_remove : list Z) : list Z :=
  map (fun k => dummy_d (dict_get_or (has_dummies (_metadata zmat)) k))
      to_remove.

(** The ZMatrix after the removal, given the recomputed values. *)
Definition after_removal (zmat : Zmat) (to_remove : list Z)
    (zmat_values : list (F * F * F)) : Zmat :=
  let z1 := restore_d zmat to_remove in
  set_has_dummies
    (fold_left dict_pop to_remove (has_dummies (_metadata zmat)))
    (set_frame
       (drop (update_each set_values (_frame z1)
                (combine to_remove zmat_values))
          (removed_labels zmat to_remove))
       z1).

(** The settings of a ZMatrix that the handling of dummies is not to
    touch: the last valid Cartesian and the two switches. *)
Definition same_settings (z z' : Zmat) : Prop :=
  last_valid_cartesian (_metadata z') = last_valid_cartesian (_metadata z) /\
  dummy_manipulation_allowed (_metadata z')
  = dummy_manipulation_allowed (_metadata z) /\
  test_operators (_metadata z') = test_operators (_metadata z).

(** The ZMatrix cut off after its first [i] rows. *)
Definition first_rows (i : nat) (self : Zmat) : Zmat :=
  set_frame (firstn i (_frame self)) self.

End Vocabulary.

(** ** An instance over the real numbers *)

Module RealModel.

Local Open Scope R_scope.

Definition Rle_bool (x y : R) : bool := if Rle_dec x y then true else false.
Definition Rgt_bool (x y : R) : bool := if Rlt_dec y x then true else false.

(* np.isclose(a, b, rtol=1e-05, atol=1e-08) *)
Definition isclose (a b : R) : bool :=
  Rle_bool (Rabs (a - b)) (1 / 100000000 + 1 / 100000 * Rabs b).

#[export] Instance RNumeric : Numeric := {|
  F := R;
  fzero := 0;
  fone := 1;
  fadd := Rplus;
  fsub := Rminus;
  fmul := Rmult;
  fdiv := Rdiv;
  fopp := Ropp;
  fsqrt := sqrt;
  np_pi := PI;
  np_radians := fun x => x * (PI / 180);
  np_isclose := isclose;
  np_empty_cell := fun _ => (0, 0, 0)
|}.

(** Modelled from the spec: [_jit_normalize], the vector divided by its
    length. *)
Definition normalize (v : vec) : vec := sdiv v (np_linalg_norm v).

(** Modelled from the spec: [_jit_get_rotation_matrix], the rotation by
    [angle], counterclockwise, around [axis] (Euler-Rodrigues form). *)
Definition rotation_matrix (axis : vec) (angle : R) : mat :=
  let '(x, y, z) := normalize axis in
  let qa := cos (angle / 2) in
  let qb := x * sin (angle / 2) in
  let qc := y * sin (angle / 2) in
  let qd := z * sin (angle / 2) in
  ((qa * qa + qb * qb - qc * qc - qd * qd,
    2 * (qb * qc - qa * qd),
    2 * (qb * qd + qa * qc)),
   (2 * (qb * qc + qa * qd),
    qa * qa + qc * qc - qb * qb - qd * qd,
    2 * (qc * qd - qa * qb)),
   (2 * (qb * qd - qa * qc),
    2 * (qc * qd + qa * qb),
    qa * qa + qd * qd - qb * qb - qc * qc)).

(** Modelled from the spec: the sentinel ids of the absolute reference
    frame, the lowest [i8] values, and the points they stand for: the
    origin and the three unit vectors. *)
Definition origin_id : Z := (- 9223372036854775808)%Z.
Definition e_x_id : Z := (- 9223372036854775807)%Z.
Definition e_y_id : Z := (- 9223372036854775806)%Z.
Definition e_z_id : Z := (- 9223372036854775805)%Z.
Definition abs_refs_bound : Z := (- 9223372036854775804)%Z.

Definition absolute_refs (j : Z) : vec :=
  if Z.eqb j e_x_id then (1, 0, 0)
  else if Z.eqb j e_y_id then (0, 1, 0)
  else if Z.eqb j e_z_id then (0, 0, 1)
  else (0, 0, 0).

(** Modelled from the spec: [positions_for], the position of a label, of a
    sentinel its fixed point. *)
Definition position_of (c : Cartesian) (j : Z) : result vec :=
  if (j <? abs_refs_bound)%Z then Return (absolute_refs j)
  else match cart_loc c j with
       | Some p => Return p
       | None => Raise (KeyError j)
       end.

Definition get_positions (c : Cartesian) (labels : Z * Z * Z)
  : result (vec * vec * vec) :=
  let '(lb, la, ld) := labels in
  match position_of c lb, position_of c la, position_of c ld with
  | Return pb, Return pa, Return pd => Return (pb, pa, pd)
  | Raise e, _, _ => Raise e
  | _, Raise e, _ => Raise e
  | _, _, Raise e => Raise e
  end.

Definition degrees (x : R) : R := x * (180 / PI).

(** Modelled from the spec: [internal_coordinates_from], the bond length,
    the bond angle and the dihedral angle (in degrees) of the atom of a
    construction row against the positions of its three references. *)
Definition internal_coordinates (pi pb pa pd : vec) : R * R * R :=
  let BI := vsub pi pb in
  let BA := vsub pa pb in
  let AD := vsub pd pa in
  let N1 := np_cross (vopp BI) BA in
  let N2 := np_cross BA AD in
  let bond := np_linalg_norm BI in
  let angle :=
    degrees (acos (vdot BI BA / (np_linalg_norm BI * np_linalg_norm BA))) in
  let dihedral :=
    degrees (acos (vdot N1 N2 / (np_linalg_norm N1 * np_linalg_norm N2))) in
  if Rgt_bool (vdot BA (np_cross N1 N2)) 0
  then (bond, angle, 360 - dihedral)
  else (bond, angle, dihedral).

Fixpoint calculate_zmat_values (c : Cartesian)
    (construction_table : list (Z * (Z * Z * Z)))
  : result (list (R * R * R)) :=
  match construction_table with
  | [] => Return []
  | (i, (lb, la, ld)) :: rest =>
      match position_of c i, get_positions c (lb, la, ld) with
      | Return pi, Return (pb, pa, pd) =>
          match calculate_zmat_values c rest with
          | Return vs => Return (internal_coordinates pi pb pa pd :: vs)
          | Raise e => Raise e
          end
      | Raise e, _ => Raise e
      | _, Raise e => Raise e
      end
  end.

(** The tolerance is shared: [_jit_isclose] is [np.isclose]. *)
#[export] Instance RHelpers : Helpers := {|
  _jit_isclose := isclose;
  _jit_normalize := normalize;
  _jit_cross := np_cross;
  _jit_get_rotation_matrix := rotation_matrix;
  keys_below_are_abs_refs := abs_refs_bound;
  _jit_absolute_refs := absolute_refs;
  _get_positions := get_positions;
  _calculate_zmat_values := calculate_zmat_values
|}.

(** *** Molecules for the concrete runs *)

Definition mkrow (s : string) (rb : Z) (bd : R) (ra : Z) (an : R) (rd : Z)
    (di : R) : zrow :=
  {| atom := s; b := rb; bond := bd; a := ra; angle := an; d := rd;
     dihedral := di |}.

Definition metadata_of (c : Cartesian) (hd : list (Z * dummy_entry))
  : Metadata :=
  {| last_valid_cartesian := c; has_dummies := hd;
     dummy_manipulation_allowed := true; test_operators := true |}.

(** Four atoms in a line along -z, every angle 180 degrees; [ang4] and
    [dih4] are the angle and the dihedral of the last atom. *)
Definition frame_lin (ang4 dih4 : R) : Frame :=
  [ (1%Z, mkrow "C" origin_id 1 e_z_id 180 e_x_id 0);
    (2%Z, mkrow "C" 1 1 origin_id 180 e_x_id 0);
    (3%Z, mkrow "C" 2 1 1 180 e_x_id 0);
    (4%Z, mkrow "H" 3 1 2 ang4 1 dih4) ].

Definition placed_lin : list vec :=
  [(0, 0, -1); (0, 0, -2); (0, 0, -3); (0, 0, -4)].

Definition cart_lin : Cartesian :=
  [ (1%Z, "C"%string, (0, 0, -1)); (2%Z, "C"%string, (0, 0, -2));
    (3%Z, "C"%string, (0, 0, -3)); (4%Z, "H"%string, (0, 0, -4)) ].

Definition z_lin (dih4 : R) : Zmat :=
  {| _frame := frame_lin 180 dih4; _metadata := metadata_of cart_lin [] |}.

(** The same molecule with the last atom at 90 degrees: its references
    3, 2, 1 are collinear.  The last valid Cartesian is a bent one. *)
Definition cart_bent : Cartesian :=
  [ (1%Z, "C"%string, (0, 1, -1)); (2%Z, "C"%string, (0, 0, -2));
    (3%Z, "C"%string, (0, 0, -3)); (4%Z, "H"%string, (0, 1, -3)) ].

Definition z_col : Zmat :=
  {| _frame := frame_lin 90 0; _metadata := metadata_of cart_bent [] |}.

(** The failure the conversion of [z_col] raises. *)
Definition e_col : InvalidRef :=
  {| exc_index := 4; exc_b := 3; exc_a := 2; exc_d := 1;
     already_built_cartesian :=
       [ (1%Z, "C"%string, (0, 0, -1)); (2%Z, "C"%string, (0, 0, -2));
         (3%Z, "C"%string, (0, 0, -3)) ] |}.

(** Atom 3 placed from the frame onto atom 2: the b and a references of
    atom 4 coincide. *)
Definition frame_sing : Frame :=
  [ (1%Z, mkrow "C" origin_id 1 e_z_id 180 e_x_id 0);
    (2%Z, mkrow "C" 1 1 origin_id 180 e_x_id 0);
    (3%Z, mkrow "C" origin_id 2 e_z_id 180 e_x_id 0);
    (4%Z, mkrow "H" 3 1 2 90 1 0) ].

Definition z_sing : Zmat :=
  {| _frame := frame_sing; _metadata := metadata_of cart_bent [] |}.

Definition e_sing : InvalidRef :=
  {| exc_index := 4; exc_b := 3; exc_a := 2; exc_d := 1;
     already_built_cartesian :=
       [ (1%Z, "C"%string, (0, 0, -1)); (2%Z, "C"%string, (0, 0, -2));
         (3%Z, "C"%string, (0, 0, -2)) ] |}.








(** The positions of the first three atoms of [frame_sing]. *)
Definition placed_sing : list vec := [(0, 0, -1); (0, 0, -2); (0, 0, -2)].

(** [frame_sing] after the insertion of the dummy 5 with the values [v]
    before atom 4, whose d reference is [d4]. *)
Definition frame_sing_dummy (v : R * R * R) (d4 : Z) : Frame :=
  [ (1%Z, mkrow "C" origin_id 1 e_z_id 180 e_x_id 0);
    (2%Z, mkrow "C" 1 1 origin_id 180 e_x_id 0);
    (3%Z, mkrow "C" origin_id 2 e_z_id 180 e_x_id 0);
    (5%Z, dummy_row (origin_id, e_z_id, e_x_id) v);
    (4%Z, mkrow "H" 3 1 2 90 d4 0) ].

Definition z_sing_dummy (v : R * R * R) (d4 : Z) : Zmat :=
  {| _frame := frame_sing_dummy v d4;
     _metadata :=
       metadata_of cart_bent [(4%Z, {| dummy_d := 5; actual_d := 1 |})] |}.

(** The dummy the first round of the recovery inserts into [z_sing]: its
    position, the Cartesian it is inserted into and its values. *)
Definition dummy_pos_sing : vec :=
  vadd (0, 0, -2)
    (dummy_offset (plane_normal (0, 0, -3) (0, 0, -2) (0, 1, -1))
       (0, 0, -2) (0, 0, -2)).

Definition dummy_cart_sing : Cartesian :=
  cart_set (already_built_cartesian e_sing) 5 "X" dummy_pos_sing.

Definition dummy_values_sing : R * R * R :=
  internal_coordinates dummy_pos_sing (0, 0, 0) (0, 0, 1) (1, 0, 0).



(** Three atoms all of whose references are sentinels. *)
Definition frame_abs : Frame :=
  [ (1%Z, mkrow "C" origin_id 1 e_z_id 180 e_x_id 0);
    (2%Z, mkrow "C" origin_id 2 e_z_id 180 e_x_id 0);
    (3%Z, mkrow "H" origin_id 1 e_x_id 180 e_y_id 0) ].

Definition placed_abs : list vec := [(0, 0, -1); (0, 0, -2); (-1, 0, 0)].

Definition cart_abs : Cartesian :=
  [ (1%Z, "C"%string, (0, 0, -1)); (2%Z, "C"%string, (0, 0, -2));
    (3%Z, "H"%string, (-1, 0, 0)) ].

Definition z_abs : Zmat :=
  {| _frame := frame_abs; _metadata := metadata_of cart_abs [] |}.

(** The dummy the recovery inserts into [z_col], and [z_col] after the
    insertion. *)
Definition dummy_pos_col : vec :=
  vadd (0, 0, -2)
    (dummy_offset (plane_normal (0, 0, -3) (0, 0, -2) (0, 1, -1))
       (0, 0, -3) (0, 0, -2)).

Definition dummy_cart_col : Cartesian :=
  cart_set (already_built_cartesian e_col) 5 "X" dummy_pos_col.

Definition dummy_values_col : R * R * R :=
  internal_coordinates dummy_pos_col (0, 0, 0) (0, 0, 1) (1, 0, 0).








(** The linear molecule whose last valid Cartesian is the bent one, and
    its table once the dummy 5 with the values [v] stands before atom 4,
    whose d reference is [d4]. *)
Definition z_lin_bent : Zmat :=
  {| _frame := frame_lin 180 0; _metadata := metadata_of cart_bent [] |}.

Definition frame_lin_dummy (v : R * R * R) (d4 : Z) : Frame :=
  [ (1%Z, mkrow "C" origin_id 1 e_z_id 180 e_x_id 0);
    (2%Z, mkrow "C" 1 1 origin_id 180 e_x_id 0);
    (3%Z, mkrow "C" 2 1 1 180 e_x_id 0);
    (5%Z, dummy_row (origin_id, e_z_id, e_x_id) v);
    (4%Z, mkrow "H" 3 1 2 180 d4 0) ].

Definition z_lin_dummy (d4 : Z) : Zmat :=
  {| _frame := frame_lin_dummy dummy_values_col d4;
     _metadata :=
       metadata_of cart_bent [(4%Z, {| dummy_d := 5; actual_d := 1 |})] |}.

(** The values the Cartesian re-derives for atom 4 of the linear molecule
    against its references 3, 2 and 1. *)
Definition values_lin4 : R * R * R :=
  internal_coordinates (0, 0, -4) (0, 0, -3) (0, 0, -2) (0, 0, -1).

(** A failure named for an atom 9. *)
Definition e_nine : InvalidRef :=
  {| exc_index := 9; exc_b := 3; exc_a := 2; exc_d := 1;
     already_built_cartesian := [] |}.

End RealModel.

(** * Properties *)

Unset Implicit Arguments.

(** ** The placement of one atom *)

Section KernelFacts.
Context {N : Numeric} {H : Helpers}.


Lemma single_position_cases (vb va vd : vec) (bond angle dihedral : F)
    (zmat_values : list (F * F * F)) (row : nat) :
  nth row zmat_values (fzero, fzero, fzero) = (bond, angle, dihedral) ->
  (spec_singular vb va vd angle /\
   _jit_calc_single_position (vb, va, vd) zmat_values row
   = (ERR_CODE_InvalidReference, zeros3)) \/
  (~ spec_singular vb va vd angle /\
   _jit_calc_single_position (vb, va, vd) zmat_values row
   = (ERR_CODE_OK, vadd vb (spec_displacement vb va vd bond angle dihedral))).
Proof.
  intros Hrow.
  unfold _jit_calc_single_position, spec_singular, spec_displacement.
  rewrite Hrow.
  destruct (jit_allclose (vsub va vb) zeros3) eqn:HBA.
  - left. split; [now left | reflexivity].
  - destruct (_jit_isclose angle np_pi) eqn:Hpi.
    + right. split; [| reflexivity].
      intros [Hc | (Hc & _)]; discriminate.
    + destruct (_jit_isclose angle fzero) eqn:Hz.
      * right. split; [| reflexivity].
        intros [Hc | (_ & Hc & _)]; discriminate.
      * destruct (jit_allclose (_jit_cross (vsub va vb) (vsub vd va)) zeros3)
          eqn:HN1.
        -- left. split; [right; auto | reflexivity].
        -- right. split; [| reflexivity].
           intros [Hc | (_ & _ & Hc)]; discriminate.
Qed.

Lemma single_position_at_pi (vb va vd : vec) (bond angle dihedral : F)
    (zmat_values : list (F * F * F)) (row : nat) :
  nth row zmat_values (fzero, fzero, fzero) = (bond, angle, dihedral) ->
  jit_allclose (vsub va vb) zeros3 = false ->
  _jit_isclose angle np_pi = true ->
  _jit_calc_single_position (vb, va, vd) zmat_values row
  = (ERR_CODE_OK, vadd vb (smul bond (vopp (_jit_normalize (vsub va vb))))).
Proof.
  intros Hrow HBA Hpi. unfold _jit_calc_single_position.
  now rewrite Hrow, HBA, Hpi.
Qed.

Lemma single_position_at_zero (vb va vd : vec) (bond angle dihedral : F)
    (zmat_values : list (F * F * F)) (row : nat) :
  nth row zmat_values (fzero, fzero, fzero) = (bond, angle, dihedral) ->
  jit_allclose (vsub va vb) zeros3 = false ->
  _jit_isclose angle np_pi = false ->
  _jit_isclose angle fzero = true ->
  _jit_calc_single_position (vb, va, vd) zmat_values row
  = (ERR_CODE_OK, vadd vb (smul bond (_jit_normalize (vsub va vb)))).
Proof.
  intros Hrow HBA Hpi Hz. unfold _jit_calc_single_position.
  now rewrite Hrow, HBA, Hpi, Hz.
Qed.

Lemma single_position_BA_zero (vb va vd : vec)
    (zmat_values : list (F * F * F)) (row : nat) :
  jit_allclose (vsub va vb) zeros3 = true ->
  _jit_calc_single_position (vb, va, vd) zmat_values row
  = (ERR_CODE_InvalidReference, zeros3).
Proof.
  intros HBA. unfold _jit_calc_single_position.
  destruct (nth row zmat_values (fzero, fzero, fzero)) as [[bond angle] dih].
  now rewrite HBA.
Qed.

Lemma single_position_N1_zero (vb va vd : vec) (bond angle dihedral : F)
    (zmat_values : list (F * F * F)) (row : nat) :
  nth row zmat_values (fzero, fzero, fzero) = (bond, angle, dihedral) ->
  jit_allclose (vsub va vb) zeros3 = false ->
  _jit_isclose angle np_pi = false ->
  _jit_isclose angle fzero = false ->
  jit_allclose (_jit_cross (vsub va vb) (vsub vd va)) zeros3 = true ->
  _jit_calc_single_position (vb, va, vd) zmat_values row
  = (ERR_CODE_InvalidReference, zeros3).
Proof.
  intros Hrow HBA Hpi Hz HN1. unfold _jit_calc_single_position.
  now rewrite Hrow, HBA, Hpi, Hz, HN1.
Qed.

Lemma single_position_general (vb va vd : vec) (bond angle dihedral : F)
    (zmat_values : list (F * F * F)) (row : nat) :
  nth row zmat_values (fzero, fzero, fzero) = (bond, angle, dihedral) ->
  jit_allclose (vsub va vb) zeros3 = false ->
  _jit_isclose angle np_pi = false ->
  _jit_isclose angle fzero = false ->
  jit_allclose (_jit_cross (vsub va vb) (vsub vd va)) zeros3 = false ->
  _jit_calc_single_position (vb, va, vd) zmat_values row
  = (ERR_CODE_OK,
     vadd vb
       (np_dot (_jit_get_rotation_matrix (_jit_normalize (vsub va vb)) dihedral)
          (np_dot
             (_jit_get_rotation_matrix
                (_jit_normalize (_jit_cross (vsub va vb) (vsub vd va))) angle)
             (smul bond (_jit_normalize (vsub va vb)))))).
Proof.
  intros Hrow HBA Hpi Hz HN1. unfold _jit_calc_single_position.
  now rewrite Hrow, HBA, Hpi, Hz, HN1.
Qed.

Lemma single_position_ok_exists (vb va vd : vec)
    (zmat_values : list (F * F * F)) (row : nat) :
  jit_allclose (vsub va vb) zeros3 = false ->
  jit_allclose (_jit_cross (vsub va vb) (vsub vd va)) zeros3 = false ->
  exists pos,
    _jit_calc_single_position (vb, va, vd) zmat_values row
    = (ERR_CODE_OK, pos).
Proof.
  intros HBA HN1. unfold _jit_calc_single_position.
  destruct (nth row zmat_values (fzero, fzero, fzero)) as [[bond angle] dih].
  rewrite HBA, HN1.
  destruct (_jit_isclose angle np_pi); [eauto |].
  destruct (_jit_isclose angle fzero); eauto.
Qed.

(** C4. The placement of one atom signals a singularity exactly when BA is
    numerically zero, or the angle is numerically neither 0 nor pi and
    N1 = BA x AD is numerically zero; in every other case it returns the
    position vb + d, where d is the displacement of the specification (in
    the general branch: bond * normalize(BA) rotated by the angle around
    normalize(N1), then by the dihedral around normalize(BA)). *)
Theorem single_position_singular_iff (references : vec * vec * vec)
    (zmat_values : list (F * F * F)) (row : nat) :
  let vb := fst (fst references) in
  let va := snd (fst references) in
  let vd := snd references in
  let v := nth row zmat_values (fzero, fzero, fzero) in
  let bond := fst (fst v) in
  let angle := snd (fst v) in
  let dihedral := snd v in
  let out := _jit_calc_single_position references zmat_values row in
  (fst out = ERR_CODE_InvalidReference <-> spec_singular vb va vd angle) /\
  (~ spec_singular vb va vd angle ->
   out = (ERR_CODE_OK,
          vadd vb (spec_displacement vb va vd bond angle dihedral))) /\
  (_jit_isclose angle np_pi = false -> _jit_isclose angle fzero = false ->
   ~ spec_singular vb va vd angle ->
   let ba := _jit_normalize (vsub va vb) in
   let n1 := _jit_normalize (_jit_cross (vsub va vb) (vsub vd va)) in
   out = (ERR_CODE_OK,
          vadd vb
            (np_dot (_jit_get_rotation_matrix ba dihedral)
               (np_dot (_jit_get_rotation_matrix n1 angle) (smul bond ba))))).
Proof.
  destruct references as [[vb va] vd].
  destruct (nth row zmat_values (fzero, fzero, fzero)) as [[bond angle] dihedral]
    eqn:Hrow.
  cbv zeta. cbn [fst snd].
  destruct (single_position_cases vb va vd _ _ _ zmat_values row Hrow)
    as [(Hs & Ho) | (Hs & Ho)]; rewrite Ho.
  - repeat split.
    + intros _. exact Hs.
    + intros Hn. contradiction.
    + intros _ _ Hn. contradiction.
  - repeat split.
    + cbn. discriminate.
    + intros Hc. contradiction.
    + intros Hpi Hz _. unfold spec_displacement.
      rewrite Hpi, Hz. reflexivity.
Qed.

(** C3. When va - vb is not numerically zero: for an angle numerically
    equal to pi the placement returns vb - bond * normalize(va - vb), for
    an angle numerically equal to 0 it returns
    vb + bond * normalize(va - vb); in both cases no singularity is
    signalled and the result is the same for every dihedral value and
    every position vd of the dihedral reference.  [Hsub] is the one law of
    arithmetic used (it holds for IEEE doubles and for the reals);
    [Hsep] says that the tolerance of [_jit_isclose] tells 0 from pi. *)
Theorem collinear_placement
    (Hsub : forall x s y : F, fadd x (fmul s (fopp y)) = fsub x (fmul s y))
    (Hsep : forall x : F,
        _jit_isclose x fzero = true -> _jit_isclose x np_pi = false)
    (vb va vd : vec) (bond angle dihedral : F)
    (zmat_values : list (F * F * F)) (row : nat) :
  nth row zmat_values (fzero, fzero, fzero) = (bond, angle, dihedral) ->
  jit_allclose (vsub va vb) zeros3 = false ->
  let ba := _jit_normalize (vsub va vb) in
  let out := _jit_calc_single_position (vb, va, vd) zmat_values row in
  (_jit_isclose angle np_pi = true ->
   out = (ERR_CODE_OK, vsub vb (smul bond ba))) /\
  (_jit_isclose angle fzero = true ->
   out = (ERR_CODE_OK, vadd vb (smul bond ba))) /\
  (_jit_isclose angle np_pi = true \/ _jit_isclose angle fzero = true ->
   fst out = ERR_CODE_OK /\
   forall (vd' : vec) (dihedral' : F) (zmat_values' : list (F * F * F))
          (row' : nat),
     nth row' zmat_values' (fzero, fzero, fzero) = (bond, angle, dihedral') ->
     _jit_calc_single_position (vb, va, vd') zmat_values' row' = out).
Proof.
  intros Hrow HBA ba out.
  assert (Hpi : _jit_isclose angle np_pi = true ->
                out = (ERR_CODE_OK, vsub vb (smul bond ba))).
  { intros Hc. unfold out, _jit_calc_single_position.
    rewrite Hrow, HBA, Hc. fold ba. f_equal.
    destruct vb as [[x1 x2] x3], ba as [[y1 y2] y3]. cbn.
    now rewrite !Hsub. }
  assert (Hz : _jit_isclose angle fzero = true ->
               out = (ERR_CODE_OK, vadd vb (smul bond ba))).
  { intros Hc. unfold out, _jit_calc_single_position.
    rewrite Hrow, HBA, (Hsep _ Hc), Hc. reflexivity. }
  split; [exact Hpi | split; [exact Hz |]].
  intros Hc. split.
  - destruct Hc as [Hc | Hc]; [rewrite (Hpi Hc) | rewrite (Hz Hc)]; reflexivity.
  - intros vd' dihedral' zmat_values' row' Hrow'.
    unfold out, _jit_calc_single_position.
    rewrite Hrow, Hrow', HBA.
    destruct Hc as [Hc | Hc].
    + now rewrite Hc.
    + now rewrite (Hsep _ Hc), Hc.
Qed.

End KernelFacts.

(** ** The placement of all atoms *)

Section ConversionFacts.
Context {N : Numeric} {H : Helpers}.

Lemma np_empty_length (n : nat) : List.length (np_empty n) = n.
Proof. unfold np_empty. now rewrite length_map, length_seq. Qed.

Lemma positions_set_length (ps : list vec) (row : nat) (pos : vec) :
  List.length (positions_set ps row pos) = List.length ps.
Proof.
  revert row. induction ps as [| p ps IH]; intros [| row]; cbn; auto.
Qed.

Lemma positions_set_nth_same (ps : list vec) (row : nat) (pos dflt : vec) :
  (row < List.length ps)%nat -> nth row (positions_set ps row pos) dflt = pos.
Proof.
  revert row. induction ps as [| p ps IH]; intros [| row] Hlt; cbn in *;
    try lia; auto. apply IH. lia.
Qed.

Lemma positions_set_nth_other (ps : list vec) (row j : nat) (pos dflt : vec) :
  j <> row -> nth j (positions_set ps row pos) dflt = nth j ps dflt.
Proof.
  revert row j. induction ps as [| p ps IH]; intros [| row] [| j] Hne; cbn;
    try congruence; auto.
Qed.

Lemma array_at_length (n : nat) (placed : list vec) (j : nat) :
  (j <= List.length placed)%nat -> (j <= n)%nat ->
  List.length (array_at n placed j) = n.
Proof.
  intros Hp Hn. unfold array_at.
  rewrite length_app, length_firstn, length_skipn, np_empty_length. lia.
Qed.

Lemma array_at_0 (n : nat) (placed : list vec) :
  array_at n placed 0 = np_empty n.
Proof. reflexivity. Qed.

Lemma list_ext_nth {A} (l1 l2 : list A) (dflt : A) :
  List.length l1 = List.length l2 ->
  (forall j, (j < List.length l1)%nat -> nth j l1 dflt = nth j l2 dflt) ->
  l1 = l2.
Proof.
  intros Hlen Hnth. apply nth_ext with (d := dflt) (d' := dflt); auto.
Qed.

Lemma array_at_nth (n : nat) (placed : list vec) (j k : nat) (dflt : vec) :
  (j <= List.length placed)%nat ->
  nth k (array_at n placed j) dflt
  = if (k <? j)%nat then nth k placed dflt else nth k (np_empty n) dflt.
Proof.
  intros Hj. unfold array_at.
  destruct (Nat.ltb_spec k j) as [Hlt | Hge].
  - rewrite app_nth1 by (rewrite length_firstn; lia).
    rewrite nth_firstn.
    destruct (Nat.ltb_spec k j); [reflexivity | lia].
  - rewrite app_nth2 by (rewrite length_firstn; lia).
    rewrite length_firstn, Nat.min_l by lia.
    rewrite nth_skipn. f_equal. lia.
Qed.

Lemma array_at_step (n : nat) (placed : list vec) (j : nat) :
  (j < List.length placed)%nat -> (j < n)%nat ->
  positions_set (array_at n placed j) j (nth j placed zeros3)
  = array_at n placed (S j).
Proof.
  intros Hp Hn.
  apply list_ext_nth with (dflt := zeros3).
  - rewrite positions_set_length, !array_at_length; lia.
  - intros k _.
    destruct (Nat.eq_dec k j) as [-> | Hne].
    + rewrite positions_set_nth_same by (rewrite array_at_length; lia).
      rewrite array_at_nth by lia.
      destruct (Nat.ltb_spec j (S j)); [reflexivity | lia].
    + rewrite positions_set_nth_other by exact Hne.
      rewrite !array_at_nth by lia.
      destruct (Nat.ltb_spec k j), (Nat.ltb_spec k (S j)); try lia; reflexivity.
Qed.

(** The loop follows the specification row by row. *)
Lemma calc_positions_loop_follows (c_table : list (Z * Z * Z))
    (zmat_values : list (F * F * F)) (placed : list vec) (rest : list nat) :
  forall (m k last : nat),
    (k + m <= List.length placed)%nat ->
    (k + m <= List.length c_table)%nat ->
    (forall j, (k <= j < k + m)%nat ->
       placement_at c_table zmat_values placed j
       = (ERR_CODE_OK, nth j placed zeros3)) ->
    calc_positions_loop c_table zmat_values (seq k m ++ rest) last
      (array_at (List.length c_table) placed k)
    = calc_positions_loop c_table zmat_values rest
        (match m with O => last | S _ => k + m - 1 end)%nat
        (array_at (List.length c_table) placed (k + m)).
Proof.
  induction m as [| m IH]; intros k last Hp Hc Hok.
  - cbn. now rewrite Nat.add_0_r.
  - cbn [seq app calc_positions_loop].
    pose proof (Hok k ltac:(lia)) as Hk. unfold placement_at in Hk.
    rewrite Hk. cbn [err_code_eqb].
    rewrite array_at_step by lia.
    rewrite (IH (S k) k) by (try lia; intros j Hj; apply Hok; lia).
    replace (S k + m)%nat with (k + S m)%nat by lia.
    f_equal. destruct m; lia.
Qed.

Lemma array_at_firstn (n : nat) (p1 p2 : list vec) (j : nat) :
  firstn j p1 = firstn j p2 -> array_at n p1 j = array_at n p2 j.
Proof. unfold array_at. now intros ->. Qed.

Lemma placement_at_firstn (c_table : list (Z * Z * Z))
    (zmat_values : list (F * F * F)) (p1 p2 : list vec) (j : nat) :
  firstn j p1 = firstn j p2 ->
  placement_at c_table zmat_values p1 j = placement_at c_table zmat_values p2 j.
Proof.
  intros Heq. unfold placement_at. now rewrite (array_at_firstn _ _ _ _ Heq).
Qed.

Lemma placed_before_snoc (c_table : list (Z * Z * Z))
    (zmat_values : list (F * F * F)) (placed : list vec) (pos : vec) :
  placed_before c_table zmat_values placed (List.length placed) ->
  placement_at c_table zmat_values placed (List.length placed)
  = (ERR_CODE_OK, pos) ->
  placed_before c_table zmat_values (placed ++ [pos]) (S (List.length placed)).
Proof.
  intros Hb Hp j Hj.
  rewrite (placement_at_firstn c_table zmat_values (placed ++ [pos]) placed).
  - destruct (Nat.eq_dec j (List.length placed)) as [-> | Hne].
    + rewrite Hp. f_equal. rewrite app_nth2 by lia.
      now rewrite Nat.sub_diag.
    + rewrite (Hb j) by lia. f_equal. rewrite app_nth1 by lia. reflexivity.
  - rewrite firstn_app.
    replace (j - List.length placed)%nat with 0%nat by lia.
    cbn. now rewrite app_nil_r.
Qed.

(** Every table has a first singularity or none: there are positions for
    the rows placed before it. *)
Lemma first_singularity_exists (c_table : list (Z * Z * Z))
    (zmat_values : list (F * F * F)) (i : nat) :
  (exists placed, List.length placed = i /\
     placed_before c_table zmat_values placed i) \/
  (exists i' placed, (i' < i)%nat /\ List.length placed = i' /\
     placed_before c_table zmat_values placed i' /\
     fst (placement_at c_table zmat_values placed i')
     = ERR_CODE_InvalidReference).
Proof.
  induction i as [| i IH].
  - left. exists []. split; [reflexivity |]. intros j Hj. lia.
  - destruct IH as [(placed & Hlen & Hb) | (i' & placed & Hi & Hlen & Hb & Hs)].
    + destruct (placement_at c_table zmat_values placed i) as [err pos] eqn:Hp.
      destruct err.
      * left. exists (placed ++ [pos]). split.
        -- rewrite length_app. cbn. lia.
        -- subst i. now apply placed_before_snoc.
      * right. exists i, placed. rewrite Hp. repeat split; auto.
    + right. exists i', placed. repeat split; auto.
Qed.

(** *** Frames *)

Lemma renumber_from_length (idx : list Z) (fr : Frame) (i : nat) :
  List.length (renumber_from idx i fr) = List.length fr.
Proof.
  revert i. induction fr as [| [k r] fr IH]; intros i; cbn; auto.
Qed.

Lemma jit_c_table_length (self : Zmat) :
  List.length (jit_c_table self) = List.length (_frame self).
Proof.
  unfold jit_c_table, c_table_of, change_numbering. cbn.
  now rewrite length_map, renumber_from_length.
Qed.

Lemma index_length (fr : Frame) : List.length (index fr) = List.length fr.
Proof. unfold index. apply length_map. Qed.

Lemma loc_In (fr : Frame) (k : Z) (r : zrow) :
  NoDup (index fr) -> In (k, r) fr -> loc fr k = Some r.
Proof.
  induction fr as [| [k' r'] fr IH]; intros Hnd Hin; [contradiction |].
  cbn in *. inversion Hnd as [| ? ? Hnot Hnd']; subst.
  destruct Hin as [Heq | Hin].
  - inversion Heq; subst. now rewrite Z.eqb_refl.
  - destruct (Z.eqb_spec k' k) as [-> | Hne].
    + exfalso. apply Hnot. unfold index. apply in_map_iff.
      exists (k, r). split; auto.
    + auto.
Qed.

Lemma loc_nth (fr : Frame) (i : nat) (k : Z) (r : zrow) :
  NoDup (index fr) -> nth_error fr i = Some (k, r) -> loc fr k = Some r.
Proof.
  intros Hnd Hnth. apply loc_In; auto. eapply nth_error_In; eauto.
Qed.

Lemma index_nth (fr : Frame) (i : nat) (k : Z) (r : zrow) :
  nth_error fr i = Some (k, r) -> nth i (index fr) 0%Z = k.
Proof.
  intros Hnth. unfold index.
  apply nth_error_nth. rewrite nth_error_map, Hnth. reflexivity.
Qed.

Lemma atom_of_index (fr : Frame) :
  NoDup (index fr) ->
  map (atom_of fr) (index fr) = map (fun kr => atom (snd kr)) fr.
Proof.
  intros Hnd. unfold index. rewrite map_map.
  apply map_ext_in. intros [k r] Hin. cbn.
  unfold atom_of. now rewrite (loc_In _ _ _ Hnd Hin).
Qed.

Lemma combine_firstn_short {A B} (l : list A) (l' : list B) (row : nat) :
  (List.length l' <= row)%nat -> combine (firstn row l) l' = combine l l'.
Proof.
  revert l' row. induction l as [| x l IH]; intros [| y l'] [| row] Hlen;
    cbn in *; try lia; auto.
  f_equal. apply IH. lia.
Qed.

Lemma create_cartesian_placed (self : Zmat) (placed : list vec)
    (positions : list vec) (row : nat) :
  NoDup (index (_frame self)) ->
  firstn row positions = placed ->
  create_cartesian self positions row = cartesian_of self placed.
Proof.
  intros Hnd Hfirst. unfold create_cartesian, cartesian_of.
  rewrite Hfirst, <- firstn_map, (atom_of_index _ Hnd), <- combine_firstn.
  apply combine_firstn_short.
  rewrite <- Hfirst, length_firstn. lia.
Qed.

Lemma map_fst_combine {A B} (l : list A) (l' : list B) :
  map fst (combine l l') = firstn (List.length l') l.
Proof.
  revert l'. induction l as [| x l IH]; intros [| y l']; cbn; auto.
  now rewrite IH.
Qed.

Lemma map_snd_combine {A B} (l : list A) (l' : list B) :
  map snd (combine l l') = firstn (List.length l) l'.
Proof.
  revert l'. induction l as [| x l IH]; intros [| y l']; cbn; auto.
  now rewrite IH.
Qed.

Lemma cartesian_of_labels (self : Zmat) (placed : list vec) :
  map (fun x => fst (fst x)) (cartesian_of self placed)
  = firstn (List.length placed) (index (_frame self)).
Proof.
  unfold cartesian_of.
  rewrite <- (map_map fst fst), map_fst_combine, <- firstn_map.
  rewrite map_fst_combine, length_map, <- index_length.
  now rewrite firstn_all.
Qed.

Lemma cartesian_of_positions (self : Zmat) (placed : list vec) :
  (List.length placed <= List.length (_frame self))%nat ->
  map snd (cartesian_of self placed) = placed.
Proof.
  intros Hlen. unfold cartesian_of.
  rewrite map_snd_combine. apply firstn_all2.
  rewrite length_combine, length_map, index_length. lia.
Qed.

(** *** The jitted loop and the entry point *)

Lemma jit_calc_positions_fail (c_table : list (Z * Z * Z))
    (zmat_values : list (F * F * F)) (i : nat) (placed : list vec) :
  (i < List.length c_table)%nat ->
  List.length placed = i ->
  placed_before c_table zmat_values placed i ->
  fst (placement_at c_table zmat_values placed i) = ERR_CODE_InvalidReference ->
  _jit_calc_positions c_table zmat_values
  = (ERR_CODE_InvalidReference, i,
     array_at (List.length c_table) placed i).
Proof.
  intros Hi Hlen Hb Hs. unfold _jit_calc_positions.
  replace (List.length c_table) with (i + S (List.length c_table - S i))%nat
    at 1 by lia.
  rewrite seq_app. cbn [seq Nat.add].
  rewrite <- (array_at_0 _ placed).
  rewrite calc_positions_loop_follows;
    [| lia | lia | intros j Hj; apply Hb; lia].
  cbn [calc_positions_loop Nat.add]. unfold placement_at in Hs.
  destruct (_jit_calc_single_position _ zmat_values i) as [err pos].
  cbn in Hs. subst err. reflexivity.
Qed.

Lemma jit_calc_positions_ok (c_table : list (Z * Z * Z))
    (zmat_values : list (F * F * F)) (placed : list vec) :
  List.length placed = List.length c_table ->
  placed_before c_table zmat_values placed (List.length c_table) ->
  _jit_calc_positions c_table zmat_values
  = (ERR_CODE_OK, (List.length c_table - 1)%nat, placed).
Proof.
  intros Hlen Hb. unfold _jit_calc_positions.
  rewrite <- (array_at_0 _ placed).
  rewrite <- (app_nil_r (seq 0 _)).
  rewrite calc_positions_loop_follows;
    [| lia | lia | intros j Hj; apply Hb; lia].
  cbn [calc_positions_loop Nat.add].
  f_equal; [f_equal; destruct (List.length c_table); lia |].
  unfold array_at.
  rewrite <- Hlen, firstn_all, skipn_all2 by (rewrite np_empty_length; lia).
  apply app_nil_r.
Qed.

Lemma get_cartesian_fail (self : Zmat) (i : nat) (k : Z) (r : zrow)
    (placed : list vec) :
  NoDup (index (_frame self)) ->
  nth_error (_frame self) i = Some (k, r) ->
  List.length placed = i ->
  placed_before (jit_c_table self) (jit_zmat_values self) placed i ->
  fst (placement_at (jit_c_table self) (jit_zmat_values self) placed i)
  = ERR_CODE_InvalidReference ->
  get_cartesian self
  = Raise (InvalidReference
             {| exc_index := k; exc_b := b r; exc_a := a r; exc_d := d r;
                already_built_cartesian := cartesian_of self placed |}).
Proof.
  intros Hnd Hnth Hlen Hb Hs. unfold get_cartesian.
  fold (jit_c_table self) (jit_zmat_values self).
  assert (Hi : (i < List.length (_frame self))%nat)
    by (apply nth_error_Some; congruence).
  rewrite (jit_calc_positions_fail _ _ i placed); auto;
    [| rewrite jit_c_table_length; exact Hi].
  rewrite (index_nth _ _ _ _ Hnth), (loc_nth _ _ _ _ Hnd Hnth).
  rewrite (create_cartesian_placed self placed); auto.
  unfold array_at. rewrite firstn_app, firstn_firstn, Nat.min_id.
  rewrite length_firstn, Hlen, Nat.min_id, Nat.sub_diag. cbn.
  rewrite app_nil_r. apply firstn_all2. lia.
Qed.

Lemma get_cartesian_ok (self : Zmat) (placed : list vec) :
  NoDup (index (_frame self)) ->
  List.length placed = List.length (_frame self) ->
  placed_before (jit_c_table self) (jit_zmat_values self) placed
    (List.length (_frame self)) ->
  get_cartesian self = Return (cartesian_of self placed).
Proof.
  intros Hnd Hlen Hb. unfold get_cartesian.
  fold (jit_c_table self) (jit_zmat_values self).
  rewrite (jit_calc_positions_ok _ _ placed);
    [| now rewrite jit_c_table_length
     | now rewrite jit_c_table_length].
  rewrite (create_cartesian_placed self placed); auto.
  apply firstn_all2. rewrite jit_c_table_length. lia.
Qed.

(** C2. The conversion places the atoms in table order and stops at the
    first singularity.  If the rows before position i are placed without
    a singularity and row i signals one, the result is the failure that
    carries the label of the atom of row i, the b, a, d labels of that row
    and the Cartesian of the i atoms placed before it, in table order under
    their labels; if no row signals a singularity, the result is the
    Cartesian of all atoms. *)
Theorem get_cartesian_first_singularity (self : Zmat) :
  NoDup (index (_frame self)) ->
  (forall (i : nat) (k : Z) (r : zrow) (placed : list vec),
     nth_error (_frame self) i = Some (k, r) ->
     List.length placed = i ->
     placed_before (jit_c_table self) (jit_zmat_values self) placed i ->
     fst (placement_at (jit_c_table self) (jit_zmat_values self) placed i)
     = ERR_CODE_InvalidReference ->
     get_cartesian self
     = Raise (InvalidReference
                {| exc_index := k; exc_b := b r; exc_a := a r; exc_d := d r;
                   already_built_cartesian := cartesian_of self placed |}) /\
     map (fun x => fst (fst x)) (cartesian_of self placed)
     = firstn i (index (_frame self)) /\
     map snd (cartesian_of self placed) = placed) /\
  (forall placed : list vec,
     List.length placed = List.length (_frame self) ->
     placed_before (jit_c_table self) (jit_zmat_values self) placed
       (List.length (_frame self)) ->
     get_cartesian self = Return (cartesian_of self placed) /\
     map (fun x => fst (fst x)) (cartesian_of self placed)
     = index (_frame self) /\
     map snd (cartesian_of self placed) = placed).
Proof.
  intros Hnd. split.
  - intros i k r placed Hnth Hlen Hb Hs.
    assert (Hi : (i < List.length (_frame self))%nat)
      by (apply nth_error_Some; congruence).
    split; [now apply (get_cartesian_fail self i) |].
    split; [now rewrite cartesian_of_labels, Hlen |].
    apply cartesian_of_positions. lia.
  - intros placed Hlen Hb.
    split; [now apply get_cartesian_ok |].
    split.
    + rewrite cartesian_of_labels, Hlen, <- index_length. apply firstn_all.
    + apply cartesian_of_positions. lia.
Qed.

(** The converse direction: what a result of the conversion says about
    the table. *)
Lemma get_cartesian_sound (self : Zmat) :
  NoDup (index (_frame self)) ->
  match get_cartesian self with
  | Return c =>
      exists placed,
        List.length placed = List.length (_frame self) /\
        placed_before (jit_c_table self) (jit_zmat_values self) placed
          (List.length (_frame self)) /\
        c = cartesian_of self placed
  | Raise (InvalidReference e) =>
      exists i r placed,
        nth_error (_frame self) i = Some (exc_index e, r) /\
        List.length placed = i /\
        placed_before (jit_c_table self) (jit_zmat_values self) placed i /\
        fst (placement_at (jit_c_table self) (jit_zmat_values self) placed i)
        = ERR_CODE_InvalidReference /\
        e = {| exc_index := exc_index e; exc_b := b r; exc_a := a r;
               exc_d := d r;
               already_built_cartesian := cartesian_of self placed |}
  | Raise _ => False
  end.
Proof.
  intros Hnd.
  destruct (first_singularity_exists (jit_c_table self) (jit_zmat_values self)
              (List.length (_frame self)))
    as [(placed & Hlen & Hb) | (i & placed & Hi & Hlen & Hb & Hs)].
  - rewrite (get_cartesian_ok self placed Hnd Hlen Hb).
    exists placed. auto.
  - destruct (nth_error (_frame self) i) as [[k r] |] eqn:Hnth;
      [| apply nth_error_None in Hnth; lia].
    rewrite (get_cartesian_fail self i k r placed Hnd Hnth Hlen Hb Hs).
    exists i, r, placed. cbn. auto.
Qed.

(** *** References *)

Lemma renumber_from_nth (idx : list Z) (fr : Frame) (i k : nat) (lbl : Z)
    (r : zrow) :
  nth_error fr k = Some (lbl, r) ->
  nth_error (renumber_from idx i fr) k
  = Some (Z.of_nat (i + k), renumber_row idx (i + k) r).
Proof.
  revert i k. induction fr as [| [l' r'] fr IH]; intros i [| k] Hnth;
    cbn in *; try discriminate.
  - inversion Hnth; subst. now rewrite Nat.add_0_r.
  - rewrite (IH (S i) k Hnth). do 3 f_equal; lia.
Qed.

Lemma jit_c_table_nth (self : Zmat) (k : nat) (lbl : Z) (r : zrow) :
  nth_error (_frame self) k = Some (lbl, r) ->
  nth k (jit_c_table self) (0, 0, 0)%Z
  = (b (renumber_row (index (_frame self)) k r),
     a (renumber_row (index (_frame self)) k r),
     d (renumber_row (index (_frame self)) k r)).
Proof.
  intros Hnth. apply nth_error_nth.
  unfold jit_c_table, c_table_of, change_numbering. cbn [_frame].
  rewrite nth_error_map, (renumber_from_nth _ _ 0 k lbl r Hnth). reflexivity.
Qed.

Lemma jit_zmat_values_nth (self : Zmat) (k : nat) (lbl : Z) (r : zrow) :
  nth_error (_frame self) k = Some (lbl, r) ->
  nth k (jit_zmat_values self) (fzero, fzero, fzero)
  = (bond r, np_radians (angle r), np_radians (dihedral r)).
Proof.
  intros Hnth. apply nth_error_nth.
  unfold jit_zmat_values, zmat_values_of, change_numbering. cbn [_frame].
  rewrite nth_error_map, (renumber_from_nth _ _ 0 k lbl r Hnth). cbn.
  destruct k as [| [| [| k]]]; reflexivity.
Qed.

Lemma get_loc_None (idx : list Z) (v : Z) :
  ~ In v idx -> get_loc idx v = None.
Proof.
  induction idx as [| k idx IH]; intros Hnot; cbn; auto.
  destruct (Z.eqb_spec k v) as [-> | Hne].
  - exfalso. apply Hnot. now left.
  - rewrite IH; auto. intros Hin. apply Hnot. now right.
Qed.

Lemma replace_label_sentinel (idx : list Z) (v : Z) :
  Forall (fun l => (keys_below_are_abs_refs <= l)%Z) idx ->
  (v < keys_below_are_abs_refs)%Z ->
  replace_label idx v = v.
Proof.
  intros Hall Hv. unfold replace_label. rewrite get_loc_None; auto.
  intros Hin. rewrite Forall_forall in Hall. specialize (Hall v Hin). lia.
Qed.

Lemma renumber_row_sentinels (idx : list Z) (k : nat) (r : zrow) :
  Forall (fun l => (keys_below_are_abs_refs <= l)%Z) idx ->
  (b r < keys_below_are_abs_refs)%Z ->
  (a r < keys_below_are_abs_refs)%Z ->
  (d r < keys_below_are_abs_refs)%Z ->
  (b (renumber_row idx k r), a (renumber_row idx k r),
   d (renumber_row idx k r)) = (b r, a r, d r).
Proof.
  intros Hall Hb Ha Hd. unfold renumber_row.
  rewrite !replace_label_sentinel by assumption.
  destruct k as [| [| [| k]]]; reflexivity.
Qed.

(** The placement reads the row [row] of the values only. *)
Lemma single_position_row (references : vec * vec * vec)
    (zmat_values : list (F * F * F)) (row : nat) :
  _jit_calc_single_position references zmat_values row
  = _jit_calc_single_position references
      [nth row zmat_values (fzero, fzero, fzero)] 0.
Proof. reflexivity. Qed.

Lemma cartesian_of_nth (self : Zmat) (placed : list vec) (k : nat) (lbl : Z)
    (r : zrow) :
  nth_error (_frame self) k = Some (lbl, r) ->
  (k < List.length placed)%nat ->
  nth_error (cartesian_of self placed) k
  = Some (lbl, atom r, nth k placed zeros3).
Proof.
  intros Hnth Hk. unfold cartesian_of, index.
  revert k placed Hnth Hk.
  induction (_frame self) as [| [l' r'] fr IH]; intros [| k] [| p placed] Hnth Hk;
    cbn in *; try discriminate; try lia.
  - now inversion Hnth.
  - apply IH; auto. lia.
Qed.

(** C7 (amended). A row all of whose references are sentinels is placed
    against the fixed points of the absolute reference frame: its position
    in the resulting Cartesian is the single-position placement of its
    stored bond, angle and dihedral against the three fixed points its
    b, a, d name, whatever the other rows hold.  (It is not one of the
    fixed points itself, and it does depend on the row.)  This holds in
    particular for the first three atoms. *)
Theorem sentinel_rows_placed_against_frame (self : Zmat) (k : nat) (lbl : Z)
    (r : zrow) (c : Cartesian) :
  NoDup (index (_frame self)) ->
  Forall (fun l => (keys_below_are_abs_refs <= l)%Z) (index (_frame self)) ->
  nth_error (_frame self) k = Some (lbl, r) ->
  (b r < keys_below_are_abs_refs)%Z ->
  (a r < keys_below_are_abs_refs)%Z ->
  (d r < keys_below_are_abs_refs)%Z ->
  get_cartesian self = Return c ->
  exists pos,
    nth_error c k = Some (lbl, atom r, pos) /\
    _jit_calc_single_position
      (_jit_absolute_refs (b r), _jit_absolute_refs (a r),
       _jit_absolute_refs (d r))
      [(bond r, np_radians (angle r), np_radians (dihedral r))] 0
    = (ERR_CODE_OK, pos).
Proof.
  intros Hnd Hall Hnth Hb Ha Hd Hget.
  pose proof (get_cartesian_sound self Hnd) as Hs. rewrite Hget in Hs.
  destruct Hs as (placed & Hlen & Hpb & ->).
  assert (Hk : (k < List.length (_frame self))%nat)
    by (apply nth_error_Some; congruence).
  exists (nth k placed zeros3). split.
  - apply cartesian_of_nth; auto. lia.
  - rewrite <- (Hpb k Hk). unfold placement_at.
    rewrite (jit_c_table_nth self k lbl r Hnth).
    rewrite (renumber_row_sentinels _ k r Hall Hb Ha Hd).
    rewrite (single_position_row _ (jit_zmat_values self) k).
    rewrite (jit_zmat_values_nth self k lbl r Hnth).
    unfold ref_positions, ref_position.
    apply Z.ltb_lt in Hb, Ha, Hd. now rewrite Hb, Ha, Hd.
Qed.

(** *** Consistency of the result *)

Lemma topological_from_nth (c_table : list (Z * Z * Z)) (k0 k : nat)
    (jb ja jd : Z) :
  topological_from k0 c_table = true ->
  nth_error c_table k = Some (jb, ja, jd) ->
  ref_okb (k0 + k) jb = true /\ ref_okb (k0 + k) ja = true /\
  ref_okb (k0 + k) jd = true.
Proof.
  revert k0 k. induction c_table as [| [[xb xa] xd] rest IH];
    intros k0 [| k] Ht Hnth; cbn in *; try discriminate.
  - inversion Hnth; subst. rewrite Nat.add_0_r.
    repeat (apply andb_prop in Ht; destruct Ht as [Ht ?]). auto.
  - repeat (apply andb_prop in Ht; destruct Ht as [Ht ?]).
    replace (k0 + S k)%nat with (S k0 + k)%nat by lia.
    now apply IH.
Qed.




(** *** The dihedral of an atom on the axis of its references *)












(** *** No validation of the table *)

Lemma nth_map_seq {A} (f : nat -> A) (n k : nat) (dflt : A) :
  (k < n)%nat -> nth k (map f (seq 0 n)) dflt = f k.
Proof.
  intros Hk.
  rewrite nth_indep with (d' := f 0%nat)
    by (rewrite length_map, length_seq; lia).
  rewrite map_nth, seq_nth by lia. reflexivity.
Qed.



End ConversionFacts.

(** ** Dummy atoms *)

Section RecoveryFacts.
Context {N : Numeric} {H : Helpers}.

(** *** Frames and the dict *)

Lemma index_app (f1 f2 : Frame) : index (f1 ++ f2) = index f1 ++ index f2.
Proof. unfold index. apply map_app. Qed.

Lemma get_loc_split (fr : Frame) (i : Z) (pos : nat) :
  get_loc (index fr) i = Some pos ->
  exists pre r post,
    fr = pre ++ (i, r) :: post /\ List.length pre = pos /\
    ~ In i (index pre).
Proof.
  unfold index.
  revert pos. induction fr as [| [k r] fr IH]; intros pos Hg; cbn in Hg;
    [discriminate |].
  destruct (Z.eqb_spec k i) as [-> | Hne].
  - inversion Hg; subst. exists [], r, fr. cbn. auto.
  - destruct (get_loc (map fst fr) i) as [p |] eqn:Hp; [| discriminate].
    inversion Hg; subst.
    destruct (IH p eq_refl) as (pre & r' & post & -> & Hlen & Hnot).
    exists ((k, r) :: pre), r', post. cbn. repeat split; auto.
    intros [Heq | Hin]; auto.
Qed.

Lemma get_loc_In (idx : list Z) (i : Z) :
  In i idx -> exists pos, get_loc idx i = Some pos.
Proof.
  induction idx as [| k idx IH]; intros Hin; [contradiction |].
  cbn. destruct (Z.eqb_spec k i) as [-> | Hne]; [eauto |].
  destruct Hin as [Heq | Hin]; [contradiction |].
  destruct (IH Hin) as [p ->]. eauto.
Qed.

Lemma loc_split (pre post : Frame) (i : Z) (r : zrow) :
  ~ In i (index pre) -> loc (pre ++ (i, r) :: post) i = Some r.
Proof.
  induction pre as [| [k r'] pre IH]; intros Hnot; cbn.
  - now rewrite Z.eqb_refl.
  - destruct (Z.eqb_spec k i) as [-> | Hne].
    + exfalso. apply Hnot. now left.
    + apply IH. intros Hin. apply Hnot. now right.
Qed.

Lemma loc_skip (pre post : Frame) (i : Z) :
  ~ In i (index pre) -> loc (pre ++ post) i = loc post i.
Proof.
  induction pre as [| [k r'] pre IH]; intros Hnot; cbn; auto.
  destruct (Z.eqb_spec k i) as [-> | Hne].
  - exfalso. apply Hnot. now left.
  - apply IH. intros Hin. apply Hnot. now right.
Qed.

Lemma loc_update_split (pre post : Frame) (i : Z) (r : zrow)
    (f : zrow -> zrow) :
  ~ In i (index pre) ->
  loc_update (pre ++ (i, r) :: post) i f = pre ++ (i, f r) :: post.
Proof.
  induction pre as [| [k r'] pre IH]; intros Hnot; cbn.
  - now rewrite Z.eqb_refl.
  - destruct (Z.eqb_spec k i) as [-> | Hne].
    + exfalso. apply Hnot. now left.
    + f_equal. apply IH. intros Hin. apply Hnot. now right.
Qed.

Lemma loc_Some_In (fr : Frame) (i : Z) (r : zrow) :
  loc fr i = Some r -> In i (index fr).
Proof.
  induction fr as [| [k r'] fr IH]; cbn; [discriminate |].
  destruct (Z.eqb_spec k i) as [-> | Hne]; auto.
Qed.

Lemma insert_row_split (pre post : Frame) (i key : Z) (r : zrow) :
  insert_row (pre ++ (i, r) :: post) (List.length pre) key
  = Some (pre ++ (key, r) :: (i, r) :: post).
Proof.
  unfold insert_row. rewrite length_app. cbn [List.length].
  destruct (Nat.ltb_spec (List.length pre)
              (List.length pre + S (List.length post))) as [_ | Hge];
    [| lia].
  rewrite skipn_app, Nat.sub_diag, skipn_all, firstn_app, Nat.sub_diag,
    firstn_all. cbn. now rewrite app_nil_r.
Qed.

Lemma fold_max_ge (l : list Z) (x : Z) :
  (x <= fold_left Z.max l x)%Z /\
  forall k, In k l -> (k <= fold_left Z.max l x)%Z.
Proof.
  revert x. induction l as [| y l IH]; intros x; cbn.
  - split; [lia | contradiction].
  - destruct (IH (Z.max x y)) as [H1 H2]. split; [lia |].
    intros k [-> | Hin]; [lia | auto].
Qed.

Lemma index_max_ge (idx : list Z) (k : Z) :
  In k idx -> (k <= index_max idx)%Z.
Proof.
  destruct idx as [| x l]; [contradiction |]. cbn.
  destruct (fold_max_ge l x) as [H1 H2].
  intros [<- | Hin]; auto.
Qed.

(** The label of a new dummy is not a label of the table. *)
Lemma dummy_label_fresh (idx : list Z) : ~ In (index_max idx + 1)%Z idx.
Proof. intros Hin. apply index_max_ge in Hin. lia. Qed.

(** *** Insertion *)


Lemma insert_dummy_cart_inv (z : Zmat) (e : InvalidRef) (dummy_cart : Cartesian)
    (dummy : Z) :
  _insert_dummy_cart z e = Return (dummy_cart, dummy) ->
  exists ri b0 a0 d0 b_pos a_pos d_pos,
    loc (_frame z) (exc_index e) = Some ri /\
    _get_positions (last_valid_cartesian (_metadata z)) (b ri, a ri, d ri)
    = Return (b0, a0, d0) /\
    _get_positions (already_built_cartesian e) (b ri, a ri, d ri)
    = Return (b_pos, a_pos, d_pos) /\
    dummy = (index_max (index (_frame z)) + 1)%Z /\
    dummy_cart
    = cart_set (already_built_cartesian e) dummy "X"%string
        (vadd a_pos (dummy_offset (plane_normal b0 a0 d0) b_pos a_pos)).
Proof.
  unfold _insert_dummy_cart, get_normal_vec, cart_insert_dummy.
  destruct (loc (_frame z) (exc_index e)) as [ri |]; [| discriminate].
  destruct (_get_positions (last_valid_cartesian (_metadata z)) _)
    as [[[b0 a0] d0] | x] eqn:Hlast; [| discriminate].
  destruct (_get_positions (already_built_cartesian e) _)
    as [[[b_pos a_pos] d_pos] | x] eqn:Hpart; [| discriminate].
  intros Heq. inversion Heq; subst.
  exists ri, b0, a0, d0, b_pos, a_pos, d_pos. repeat split; auto.
Qed.

Lemma zmat_insert_dummy_inv (z z' : Zmat) (i dummy : Z) (dummy_cart : Cartesian)
    (w : list notice) :
  ~ In dummy (index (_frame z)) ->
  zmat_insert_dummy i dummy_cart dummy z = (z', w, Return tt) ->
  exists pre ri post rd v rest,
    _frame z = pre ++ (i, ri) :: post /\ ~ In i (index pre) /\
    loc (_frame z) (d ri) = Some rd /\
    _calculate_zmat_values dummy_cart [(dummy, (b rd, a rd, d rd))]
    = Return (v :: rest) /\
    _frame z'
    = pre ++ (dummy, dummy_row (b rd, a rd, d rd) v)
          :: (i, set_d dummy ri) :: post /\
    has_dummies (_metadata z')
    = dict_set (has_dummies (_metadata z)) i
        {| dummy_d := dummy; actual_d := d ri |} /\
    last_valid_cartesian (_metadata z')
    = last_valid_cartesian (_metadata z) /\
    w = [DummyInserted i dummy].
Proof.
  intros Hfresh. unfold zmat_insert_dummy.
  destruct (loc (_frame z) i) as [ri |] eqn:Hloc; [| discriminate].
  destruct (get_loc (index (_frame z)) i) as [pos |] eqn:Hpos;
    [| discriminate].
  destruct (get_loc_split _ _ _ Hpos) as (pre & ri' & post & Hfr & Hlen & Hnot).
  assert (ri' = ri) as ->.
  { rewrite Hfr, loc_split in Hloc by exact Hnot. congruence. }
  rewrite Hfr at 1. rewrite <- Hlen, insert_row_split.
  destruct (loc (_frame z) (d ri)) as [rd |] eqn:Hrd; [| discriminate].
  destruct (_calculate_zmat_values dummy_cart _) as [[| v rest] | x] eqn:Hcalc;
    try discriminate.
  intros Heq. inversion Heq; subst z' w. clear Heq.
  exists pre, ri, post, rd, v, rest. repeat split; auto.
  cbn [set_has_dummies set_frame _frame].
  assert (Hpre : ~ In dummy (index pre)).
  { intros Hin. apply Hfresh. rewrite Hfr, index_app. apply in_or_app. now left. }
  assert (Hne : dummy <> i).
  { intros ->. apply Hfresh. eapply loc_Some_In; eauto. }
  assert (Hpre' : ~ In i (index (pre ++ [(dummy, ri)]))).
  { rewrite index_app. intros Hin. apply in_app_or in Hin.
    destruct Hin as [Hin | [Hin | []]]; auto. }
  change (pre ++ (dummy, ri) :: (i, ri) :: post)
    with (pre ++ [(dummy, ri)] ++ (i, ri) :: post).
  rewrite app_assoc, (loc_update_split _ _ _ _ _ Hpre'), <- app_assoc.
  cbn [app].
  rewrite !(loc_update_split _ _ _ _ _ Hpre).
  do 2 f_equal. destruct v as [[v1 v2] v3]. reflexivity.
Qed.

(** The insertion, run forwards. *)
Lemma zmat_insert_dummy_run (z : Zmat) (i dummy : Z) (dummy_cart : Cartesian)
    (pre post : Frame) (ri rd : zrow) (v : F * F * F)
    (rest : list (F * F * F)) :
  _frame z = pre ++ (i, ri) :: post ->
  ~ In i (index pre) ->
  ~ In dummy (index (_frame z)) ->
  loc (_frame z) (d ri) = Some rd ->
  _calculate_zmat_values dummy_cart [(dummy, (b rd, a rd, d rd))]
  = Return (v :: rest) ->
  zmat_insert_dummy i dummy_cart dummy z
  = (set_has_dummies
       (dict_set (has_dummies (_metadata z)) i
          {| dummy_d := dummy; actual_d := d ri |})
       (set_frame
          (pre ++ (dummy, dummy_row (b rd, a rd, d rd) v)
               :: (i, set_d dummy ri) :: post) z),
     [DummyInserted i dummy], Return tt).
Proof.
  intros Hfr Hnot Hfresh Hrd Hcalc. unfold zmat_insert_dummy.
  assert (Hloc : loc (_frame z) i = Some ri)
    by (rewrite Hfr; apply loc_split; exact Hnot).
  assert (Hpos : get_loc (index (_frame z)) i = Some (List.length pre)).
  { rewrite Hfr. clear Hfr Hfresh Hrd Hloc.
    induction pre as [| [k r] pre IH]; cbn.
    - now rewrite Z.eqb_refl.
    - destruct (Z.eqb_spec k i) as [-> | Hne].
      + exfalso. apply Hnot. now left.
      + unfold index in IH. rewrite IH; [reflexivity |].
        intros Hin. apply Hnot. now right. }
  rewrite Hloc, Hpos, Hrd, Hcalc. rewrite Hfr at 1. rewrite insert_row_split.
  assert (Hpre : ~ In dummy (index pre)).
  { intros Hin. apply Hfresh. rewrite Hfr, index_app. apply in_or_app. now left. }
  assert (Hne : dummy <> i).
  { intros ->. apply Hfresh. eapply loc_Some_In; eauto. }
  assert (Hpre' : ~ In i (index (pre ++ [(dummy, ri)]))).
  { rewrite index_app. intros Hin. apply in_app_or in Hin.
    destruct Hin as [Hin | [Hin | []]]; auto. }
  change (pre ++ (dummy, ri) :: (i, ri) :: post)
    with (pre ++ [(dummy, ri)] ++ (i, ri) :: post).
  rewrite app_assoc, (loc_update_split _ _ _ _ _ Hpre'), <- app_assoc.
  cbn [app].
  rewrite !(loc_update_split _ _ _ _ _ Hpre).
  do 4 f_equal. destruct v as [[v1 v2] v3]. reflexivity.
Qed.

Lemma toggle_dummy_insert (e : InvalidRef) (z : Zmat) (dummy_cart : Cartesian)
    (dummy : Z) :
  dict_mem (has_dummies (_metadata z)) (exc_index e) = false ->
  _insert_dummy_cart z e = Return (dummy_cart, dummy) ->
  toggle_dummy e z = zmat_insert_dummy (exc_index e) dummy_cart dummy z.
Proof. intros Hmem Hcart. unfold toggle_dummy. now rewrite Hmem, Hcart. Qed.

Lemma toggle_dummy_remove (e : InvalidRef) (z : Zmat) :
  dict_mem (has_dummies (_metadata z)) (exc_index e) = true ->
  toggle_dummy e z = _remove_dummies (Some [exc_index e]) z.
Proof. intros Hmem. unfold toggle_dummy. now rewrite Hmem. Qed.

(** A removal whose conversion raises ends with that exception, the d
    reference already restored and the dummy still in the table. *)
Lemma remove_dummies_conversion_raises (z : Zmat) (i : Z) (ri : zrow)
    (en : dummy_entry) (x : exn) :
  loc (_frame z) i = Some ri ->
  dict_get (has_dummies (_metadata z)) i = Some en ->
  get_cartesian
    (set_frame (loc_update (_frame z) i (set_d (actual_d en))) z)
  = Raise x ->
  _remove_dummies (Some [i]) z
  = (set_frame (loc_update (_frame z) i (set_d (actual_d en))) z, [],
     Raise x).
Proof.
  intros Hloc Hget Hconv. unfold _remove_dummies.
  cbn [loc_list dict_get_list]. rewrite Hloc, Hget.
  cbn [map combine update_each fold_left fst snd].
  now rewrite Hconv.
Qed.

End RecoveryFacts.

(** *** The offset of a dummy, in exact arithmetic *)

Section ExactArithmetic.
Context {N : Numeric}.
Variable finv : F -> F.
Hypothesis Hring : ring_theory fzero fone fadd fmul fsub fopp (@eq F).
Hypothesis Hdiv : forall x y : F, fdiv x y = fmul x (finv y).
Hypothesis Hinv : forall x : F, x <> fzero -> fmul x (finv x) = fone.
Hypothesis Hsqrt :
  forall v : vec, fmul (fsqrt (vdot v v)) (fsqrt (vdot v v)) = vdot v v.

Add Ring FRing : Hring.







End ExactArithmetic.

Section InsertionFacts.
Context {N : Numeric} {H : Helpers}.


End InsertionFacts.

Section RemovalFacts.
Context {N : Numeric} {H : Helpers}.

(** *** Lookups of lists of labels *)



Lemma loc_total (fr : Frame) (k : Z) :
  In k (index fr) -> exists r, loc fr k = Some r.
Proof.
  unfold index. induction fr as [| [k' r'] fr IH]; intros Hin;
    [contradiction |].
  cbn in *. destruct (Z.eqb_spec k' k) as [-> | Hne]; [eauto |].
  destruct Hin as [Heq | Hin]; [contradiction | auto].
Qed.

Lemma dict_get_total (hd : list (Z * dummy_entry)) (k : Z) :
  In k (map fst hd) -> exists e, dict_get hd k = Some e.
Proof.
  induction hd as [| [k' e'] hd IH]; intros Hin; [contradiction |].
  cbn in *. destruct (Z.eqb_spec k' k) as [-> | Hne]; [eauto |].
  destruct Hin as [Heq | Hin]; [contradiction | auto].
Qed.

Lemma loc_list_total (fr : Frame) (l : list Z) :
  (forall k, In k l -> In k (index fr)) ->
  loc_list fr l = Return (map (loc_or fr) l).
Proof.
  induction l as [| k l IH]; intros Hall; cbn; auto.
  destruct (loc_total fr k (Hall k (or_introl eq_refl))) as [r Hk]. unfold loc_or at 1. rewrite Hk.
  rewrite IH; auto. intros k' Hin. apply Hall. now right.
Qed.


Lemma dict_get_list_total (hd : list (Z * dummy_entry)) (l : list Z) :
  (forall k, In k l -> In k (map fst hd)) ->
  dict_get_list hd l = Return (map (dict_get_or hd) l).
Proof.
  induction l as [| k l IH]; intros Hall; cbn; auto.
  destruct (dict_get_total hd k (Hall k (or_introl eq_refl))) as [e Hk]. unfold dict_get_or at 1. rewrite Hk.
  rewrite IH; auto. intros k' Hin. apply Hall. now right.
Qed.



Lemma combine_map_map {A B C} (f : A -> B) (g : A -> C) (l : list A) :
  combine (map f l) (map g l) = map (fun x => (f x, g x)) l.
Proof. induction l as [| x l IH]; cbn; auto. now rewrite IH. Qed.

Lemma combine_map_r {A B} (g : A -> B) (l : list A) :
  combine l (map g l) = map (fun x => (x, g x)) l.
Proof. induction l as [| x l IH]; cbn; auto. now rewrite IH. Qed.


(** *** The removability check *)



(** *** Updates of rows, drop and pop *)

Lemma index_loc_update (fr : Frame) (k : Z) (f : zrow -> zrow) :
  index (loc_update fr k f) = index fr.
Proof.
  unfold index. induction fr as [| [k' r] fr IH]; cbn; auto.
  destruct (Z.eqb k' k); cbn; now rewrite ?IH.
Qed.

Lemma index_update_each {A} (f : A -> zrow -> zrow) (kvs : list (Z * A))
    (fr : Frame) :
  index (update_each f fr kvs) = index fr.
Proof.
  unfold update_each. revert fr.
  induction kvs as [| [k v] kvs IH]; intros fr; cbn [fold_left fst snd]; auto.
  now rewrite IH, index_loc_update.
Qed.








Lemma index_drop (fr : Frame) (labels : list Z) :
  index (drop fr labels)
  = filter (fun k => negb (in_labels labels k)) (index fr).
Proof.
  unfold drop, index. induction fr as [| [l r] fr IH]; cbn; auto.
  fold (in_labels labels l).
  destruct (in_labels labels l); cbn; now rewrite IH.
Qed.




(** *** Removal *)


Lemma remove_dummies_run (z : Zmat) (to_remove : list Z) (cart : Cartesian)
    (vals : list (F * F * F)) :
  to_remove <> [] ->
  (forall k, In k to_remove ->
     In k (index (_frame z)) /\ In k (map fst (has_dummies (_metadata z)))) ->
  get_cartesian (restore_d z to_remove) = Return cart ->
  _calculate_zmat_values cart (removal_table z to_remove) = Return vals ->
  List.length vals = List.length to_remove ->
  (forall x, In x (removed_labels z to_remove) -> In x (index (_frame z))) ->
  _remove_dummies (Some to_remove) z
  = (after_removal z to_remove vals, [DummiesRemoved to_remove], Return tt).
Proof.
  intros Hne Hin Hget Hcalc Hlen Hdum. unfold _remove_dummies.
  destruct to_remove as [| k0 ks] eqn:Hto; [congruence |]. rewrite <- Hto in *.
  rewrite loc_list_total by (intros k Hk; apply (Hin k Hk)).
  rewrite dict_get_list_total by (intros k Hk; apply (Hin k Hk)).
  rewrite (map_map (dict_get_or _) actual_d).
  fold (restore_d z to_remove). rewrite Hget.
  assert (Htab : combine to_remove
                   (actual_c_table (map (loc_or (_frame z)) to_remove)
                      (map (dict_get_or (has_dummies (_metadata z)))
                         to_remove))
                 = removal_table z to_remove).
  { unfold actual_c_table, removal_table.
    rewrite combine_map_map, map_map, combine_map_r. reflexivity. }
  rewrite Htab, Hcalc, Hlen, Nat.eqb_refl. cbn [negb].
  unfold drop_checked.
  rewrite (map_map (dict_get_or _) dummy_d).
  fold (removed_labels z to_remove).
  rewrite loc_list_total.
  - reflexivity.
  - intros x Hx. cbn [set_frame _frame].
    rewrite index_update_each. unfold restore_d. cbn [set_frame _frame].
    rewrite index_update_each. auto.
Qed.


Lemma In_firstn {A} (l : list A) (n : nat) (x : A) :
  In x (firstn n l) -> In x l.
Proof.
  revert n. induction l as [| y l IH]; intros [| n]; cbn; try tauto.
  intros [-> | Hin]; eauto.
Qed.

Lemma NoDup_firstn {A} (l : list A) (n : nat) : NoDup l -> NoDup (firstn n l).
Proof.
  revert n. induction l as [| x l IH]; intros [| n] Hnd; cbn;
    try constructor.
  - inversion Hnd; subst. intros Hin. apply In_firstn in Hin. contradiction.
  - inversion Hnd; subst. auto.
Qed.







(** *** The toggle *)



Lemma dict_get_set (hd : list (Z * dummy_entry)) (k : Z) (e : dummy_entry) :
  dict_get (dict_set hd k e) k = Some e.
Proof.
  induction hd as [| [l e'] hd IH]; cbn.
  - now rewrite Z.eqb_refl.
  - destruct (Z.eqb_spec l k) as [-> | Hne]; cbn.
    + now rewrite Z.eqb_refl.
    + destruct (Z.eqb_spec l k); [contradiction | exact IH].
Qed.

Lemma toggle_insert_outcomes (z z' : Zmat) (e : InvalidRef) (w : list notice)
    (res : result unit) :
  dict_mem (has_dummies (_metadata z)) (exc_index e) = false ->
  toggle_dummy e z = (z', w, res) ->
  (forall l, ~ In (DummiesRemoved l) w) /\
  (res <> Return tt -> z' = z /\ w = []) /\
  (res = Return tt ->
   exists r,
     loc (_frame z) (exc_index e) = Some r /\
     w = [DummyInserted (exc_index e) (index_max (index (_frame z)) + 1)%Z] /\
     dict_get (has_dummies (_metadata z')) (exc_index e)
     = Some {| dummy_d := (index_max (index (_frame z)) + 1)%Z;
               actual_d := d r |}).
Proof.
  intros Hmem Htog.
  destruct res as [[] | x].
  - split; [| split; [congruence |]].
    + unfold toggle_dummy in Htog. rewrite Hmem in Htog.
      destruct (_insert_dummy_cart z e) as [[dc dd] | y] eqn:Hcart;
        [| discriminate].
      destruct (insert_dummy_cart_inv z e dc dd Hcart)
        as (_ & _ & _ & _ & _ & _ & _ & _ & _ & _ & -> & _).
      destruct (zmat_insert_dummy_inv z z' _ _ dc w
                  (dummy_label_fresh _) Htog)
        as (_ & _ & _ & _ & _ & _ & _ & _ & _ & _ & _ & _ & _ & ->).
      intros l [Hin | []]. discriminate.
    + intros _. unfold toggle_dummy in Htog. rewrite Hmem in Htog.
      destruct (_insert_dummy_cart z e) as [[dc dd] | y] eqn:Hcart;
        [| discriminate].
      destruct (insert_dummy_cart_inv z e dc dd Hcart)
        as (ri & _ & _ & _ & _ & _ & _ & Hri & _ & _ & -> & _).
      destruct (zmat_insert_dummy_inv z z' _ _ dc w
                  (dummy_label_fresh _) Htog)
        as (pre & ri' & post & _ & _ & _ & Hfr & Hnot & _ & _ & _ & Hhd & _
            & ->).
      assert (ri' = ri) as ->.
      { rewrite Hfr, loc_split in Hri by exact Hnot. congruence. }
      exists ri. repeat split; auto. rewrite Hhd. apply dict_get_set.
  - assert (Hst : z' = z /\ w = []).
    { unfold toggle_dummy in Htog. rewrite Hmem in Htog.
      destruct (_insert_dummy_cart z e) as [[dc dd] | y];
        [| inversion Htog; auto].
      unfold zmat_insert_dummy in Htog.
      repeat match type of Htog with
             | context [match ?t with _ => _ end] =>
                 destruct t; try (inversion Htog; auto; fail)
             end. }
    destruct Hst as [-> ->]. repeat split; auto. discriminate.
Qed.



(** *** The recovery loop *)

Lemma insert_dummy_zmat_step (depth : nat) (e : InvalidRef) (z : Zmat) :
  _insert_dummy_zmat (S depth) e z
  = let '(z1, w1, r1) := toggle_dummy e z in
    match r1 with
    | Raise x => (z1, w1, Raise x)
    | Return _ =>
        match get_cartesian z1 with
        | Return c => (set_last_valid_cartesian c z1, w1 ++ [], Return tt)
        | Raise (InvalidReference e') =>
            let '(z2, w2, r2) := _insert_dummy_zmat depth e' z1 in
            (z2, w1 ++ w2, r2)
        | Raise x => (z1, w1 ++ [], Raise x)
        end
    end.
Proof.
  cbn [_insert_dummy_zmat]. unfold bind.
  destruct (toggle_dummy e z) as [[z1 w1] [[] | x]]; [| reflexivity].
  destruct (get_cartesian z1) as [c | [e' | | | | | |]]; reflexivity.
Qed.






End RemovalFacts.

(** ** The bond length of a placed atom *)

Section BondLength.
Context {N : Numeric} {H : Helpers}.
Hypothesis Hring : ring_theory fzero fone fadd fmul fsub fopp (@eq F).

Add Ring BondRing : Hring.

Lemma vsub_vadd (u v : vec) : vsub (vadd u v) u = v.
Proof.
  destruct u as [[u1 u2] u3], v as [[v1 v2] v3]. cbn.
  repeat f_equal; ring.
Qed.

Lemma vdot_smul (s : F) (u : vec) :
  vdot (smul s u) (smul s u) = fmul (fmul s s) (vdot u u).
Proof. destruct u as [[u1 u2] u3]. cbn. ring. Qed.

Lemma vdot_vopp (u : vec) : vdot (vopp u) (vopp u) = vdot u u.
Proof. destruct u as [[u1 u2] u3]. cbn. ring. Qed.

(** X13.  The bond length is realised.  In exact arithmetic, when
    [_jit_normalize] returns a unit vector for BA and the two rotation
    matrices of the general branch preserve lengths, every position that
    the placement of one atom returns without a singularity lies at the
    distance bond from the position vb of the b reference: the square of
    that distance is bond * bond, in all three branches. *)
Theorem placement_realises_bond (vb va vd : vec) (bond angle dihedral : F)
    (zmat_values : list (F * F * F)) (row : nat) (p : vec) :
  nth row zmat_values (fzero, fzero, fzero) = (bond, angle, dihedral) ->
  let ba := _jit_normalize (vsub va vb) in
  let n1 := _jit_normalize (_jit_cross (vsub va vb) (vsub vd va)) in
  vdot ba ba = fone ->
  (forall v,
     vdot (np_dot (_jit_get_rotation_matrix n1 angle) v)
          (np_dot (_jit_get_rotation_matrix n1 angle) v)
     = vdot v v) ->
  (forall v,
     vdot (np_dot (_jit_get_rotation_matrix ba dihedral) v)
          (np_dot (_jit_get_rotation_matrix ba dihedral) v)
     = vdot v v) ->
  _jit_calc_single_position (vb, va, vd) zmat_values row = (ERR_CODE_OK, p) ->
  vdot (vsub p vb) (vsub p vb) = fmul bond bond.
Proof.
  intros Hrow ba n1 Hunit Hrot1 Hrot2.
  assert (Hlen : vdot (smul bond ba) (smul bond ba) = fmul bond bond).
  { rewrite vdot_smul, Hunit. ring. }
  unfold _jit_calc_single_position. rewrite Hrow. fold ba.
  destruct (jit_allclose (vsub va vb) zeros3); [discriminate |].
  destruct (_jit_isclose angle np_pi).
  - intros Heq. inversion Heq; subst p.
    now rewrite vsub_vadd, vdot_smul, vdot_vopp, <- vdot_smul.
  - destruct (_jit_isclose angle fzero).
    + intros Heq. inversion Heq; subst p. now rewrite vsub_vadd.
    + destruct (jit_allclose _ zeros3); [discriminate |].
      fold n1. intros Heq. inversion Heq; subst p.
      now rewrite vsub_vadd, Hrot2, Hrot1.
Qed.

End BondLength.

(** ** What a result of the conversion certifies *)

Section ConversionOutcome.
Context {N : Numeric} {H : Helpers}.

Lemma cartesian_of_atoms (self : Zmat) (placed : list vec) :
  (List.length placed <= List.length (_frame self))%nat ->
  map (fun x => snd (fst x)) (cartesian_of self placed)
  = firstn (List.length placed) (map (fun kr => atom (snd kr)) (_frame self)).
Proof.
  intros Hk. unfold cartesian_of.
  revert placed Hk. unfold index.
  induction (_frame self) as [| [k r] fr IH]; intros [| p placed] Hk;
    cbn in *; try reflexivity; try lia.
  f_equal. apply IH. lia.
Qed.

Lemma cartesian_of_length (self : Zmat) (placed : list vec) :
  (List.length placed <= List.length (_frame self))%nat ->
  List.length (cartesian_of self placed) = List.length placed.
Proof.
  intros Hk. rewrite <- (length_map snd).
  now rewrite cartesian_of_positions.
Qed.

(** X8.  What a result certifies.  For a ZMatrix with distinct labels the
    conversion ends in one of two ways.  A returned Cartesian has one row
    per atom, with the labels and the element symbols of the table in
    table order, and every row of the table is placed without a
    singularity at the position the Cartesian holds for it.  A raised
    failure is a singularity: it names the label and the references of a
    row i that signals a singularity while all rows before it are placed,
    at the positions of its partial Cartesian, which has exactly those i
    rows.  Nothing else is raised. *)
Theorem conversion_outcome (self : Zmat) :
  NoDup (index (_frame self)) ->
  match get_cartesian self with
  | Return c =>
      List.length c = List.length (_frame self) /\
      map (fun x => fst (fst x)) c = index (_frame self) /\
      map (fun x => snd (fst x)) c
      = map (fun kr => atom (snd kr)) (_frame self) /\
      placed_before (jit_c_table self) (jit_zmat_values self) (map snd c)
        (List.length (_frame self))
  | Raise (InvalidReference e) =>
      exists i r,
        nth_error (_frame self) i = Some (exc_index e, r) /\
        exc_b e = b r /\ exc_a e = a r /\ exc_d e = d r /\
        List.length (already_built_cartesian e) = i /\
        map (fun x => fst (fst x)) (already_built_cartesian e)
        = firstn i (index (_frame self)) /\
        map (fun x => snd (fst x)) (already_built_cartesian e)
        = firstn i (map (fun kr => atom (snd kr)) (_frame self)) /\
        placed_before (jit_c_table self) (jit_zmat_values self)
          (map snd (already_built_cartesian e)) i /\
        fst (placement_at (jit_c_table self) (jit_zmat_values self)
               (map snd (already_built_cartesian e)) i)
        = ERR_CODE_InvalidReference
  | Raise _ => False
  end.
Proof.
  intros Hnd. pose proof (get_cartesian_sound self Hnd) as Hsound.
  destruct (get_cartesian self) as [c | [e | | | | | |]]; try contradiction.
  - destruct Hsound as (placed & Hlen & Hb & ->).
    assert (Hk : (List.length placed <= List.length (_frame self))%nat) by lia.
    rewrite (cartesian_of_positions self placed Hk).
    split; [rewrite cartesian_of_length; auto |].
    split; [rewrite cartesian_of_labels, Hlen, <- index_length;
            apply firstn_all |].
    split; [| exact Hb].
    rewrite (cartesian_of_atoms self placed Hk), Hlen.
    rewrite <- (length_map (fun kr => atom (snd kr)) (_frame self)).
    apply firstn_all.
  - destruct Hsound as (i & r & placed & Hnth & Hlen & Hb & Hfail & He).
    assert (Hi : (i < List.length (_frame self))%nat)
      by (apply nth_error_Some; congruence).
    assert (Hk : (List.length placed <= List.length (_frame self))%nat) by lia.
    exists i, r. rewrite He. cbn [exc_index exc_b exc_a exc_d
                                 already_built_cartesian].
    rewrite (cartesian_of_positions self placed Hk).
    split; [exact Hnth |]. do 3 (split; [reflexivity |]).
    split; [rewrite cartesian_of_length; auto |].
    split; [now rewrite cartesian_of_labels, Hlen |].
    split; [now rewrite (cartesian_of_atoms self placed Hk), Hlen |].
    split; [exact Hb | exact Hfail].
Qed.

End ConversionOutcome.

(** ** The partial Cartesian as a conversion *)

Section ConversionPrefix.
Context {N : Numeric} {H : Helpers}.

Lemma positions_get_array_prefix (n : nat) (placed : list vec) (k : nat)
    (j : Z) :
  (k <= List.length placed)%nat -> (k <= n)%nat ->
  (0 <= j < Z.of_nat k)%Z ->
  positions_get (array_at n placed k) j = nth (Z.to_nat j) placed zeros3.
Proof.
  intros Hk Hn Hj. unfold positions_get.
  rewrite array_at_length by lia.
  destruct (Z.ltb_spec j 0) as [Hneg | _]; [lia |].
  destruct (Z.leb_spec 0 j) as [_ | Hneg]; [| lia].
  destruct (Z.ltb_spec j (Z.of_nat n)) as [_ | Hbig]; [| lia].
  cbn [andb]. rewrite array_at_nth by lia.
  destruct (Nat.ltb_spec (Z.to_nat j) k) as [_ | Hge]; [| lia].
  apply nth_indep. lia.
Qed.

Lemma ref_position_array_prefix (n m : nat) (placed : list vec) (k : nat)
    (j : Z) :
  (k <= List.length placed)%nat -> (k <= n)%nat -> (k <= m)%nat ->
  ref_okb k j = true ->
  ref_position (array_at n placed k) j = ref_position (array_at m placed k) j.
Proof.
  intros Hk Hn Hm Hok. unfold ref_position.
  destruct (Z.ltb_spec j keys_below_are_abs_refs) as [_ | Hge]; [reflexivity |].
  unfold ref_okb in Hok. apply orb_prop in Hok. destruct Hok as [Hok | Hok].
  - apply Z.ltb_lt in Hok. lia.
  - apply andb_prop in Hok. destruct Hok as [H0 H1].
    apply Z.leb_le in H0. apply Z.ltb_lt in H1.
    now rewrite !positions_get_array_prefix by lia.
Qed.

Lemma get_loc_firstn (idx : list Z) (i : nat) (v : Z) :
  get_loc (firstn i idx) v
  = match get_loc idx v with
    | Some p => if (p <? i)%nat then Some p else None
    | None => None
    end.
Proof.
  revert i. induction idx as [| k idx IH]; intros i.
  - now rewrite firstn_nil.
  - destruct i as [| i]; cbn [firstn get_loc].
    + destruct (Z.eqb k v); [reflexivity |].
      now destruct (get_loc idx v).
    + destruct (Z.eqb k v); [reflexivity |]. rewrite IH.
      destruct (get_loc idx v) as [p |]; [| reflexivity].
      change (S p <? S i)%nat with (p <? i)%nat.
      now destruct (p <? i)%nat.
Qed.

Lemma replace_label_firstn (idx : list Z) (i k : nat) (v : Z) :
  (keys_below_are_abs_refs <= 0)%Z -> (k <= i)%nat ->
  ref_okb k (replace_label idx v) = true ->
  replace_label (firstn i idx) v = replace_label idx v.
Proof.
  intros Hneg Hk Hok. unfold replace_label in *. rewrite get_loc_firstn.
  destruct (get_loc idx v) as [p |]; [| reflexivity].
  destruct (Nat.ltb_spec p i) as [_ | Hge]; [reflexivity |].
  exfalso. unfold ref_okb in Hok. apply orb_prop in Hok.
  destruct Hok as [Hok | Hok].
  - apply Z.ltb_lt in Hok. lia.
  - apply andb_prop in Hok. destruct Hok as [_ H1].
    apply Z.ltb_lt in H1. lia.
Qed.

Lemma renumber_row_firstn (idx : list Z) (i k : nat) (r : zrow) :
  (keys_below_are_abs_refs <= 0)%Z -> (k <= i)%nat ->
  ref_okb k (b (renumber_row idx k r)) = true ->
  ref_okb k (a (renumber_row idx k r)) = true ->
  ref_okb k (d (renumber_row idx k r)) = true ->
  renumber_row (firstn i idx) k r = renumber_row idx k r.
Proof.
  intros Hneg Hk. unfold renumber_row.
  destruct k as [| [| [| k]]]; cbn [set_b set_a set_d b a d];
    intros Hb Ha Hd; try reflexivity;
    rewrite ?(replace_label_firstn idx i _ (b r) Hneg Hk Hb),
            ?(replace_label_firstn idx i _ (a r) Hneg Hk Ha),
            ?(replace_label_firstn idx i _ (d r) Hneg Hk Hd);
    reflexivity.
Qed.

Lemma renumber_from_firstn (idx : list Z) (k0 m : nat) (fr : Frame) :
  renumber_from idx k0 (firstn m fr) = firstn m (renumber_from idx k0 fr).
Proof.
  revert k0 m. induction fr as [| [k r] fr IH]; intros k0 m.
  - now rewrite !firstn_nil.
  - destruct m as [| m]; [reflexivity |].
    cbn [firstn renumber_from]. now rewrite IH.
Qed.

Lemma renumber_from_ext (idx idx' : list Z) (k0 : nat) (fr : Frame) :
  (forall k lbl r, nth_error fr k = Some (lbl, r) ->
     renumber_row idx' (k0 + k) r = renumber_row idx (k0 + k) r) ->
  renumber_from idx' k0 fr = renumber_from idx k0 fr.
Proof.
  revert k0. induction fr as [| [lbl r] fr IH]; intros k0 Hrows;
    [reflexivity |].
  cbn [renumber_from]. f_equal.
  - f_equal. specialize (Hrows 0%nat lbl r eq_refl).
    now rewrite Nat.add_0_r in Hrows.
  - apply IH. intros k lbl' r' Hnth.
    specialize (Hrows (S k) lbl' r' Hnth).
    now rewrite Nat.add_succ_r in Hrows.
Qed.

Lemma zmat_values_renumber (idx : list Z) (k0 : nat) (fr : Frame) :
  zmat_values_of (renumber_from idx k0 fr) = zmat_values_of fr.
Proof.
  unfold zmat_values_of. revert k0.
  induction fr as [| [lbl r] fr IH]; intros k0; [reflexivity |].
  cbn [renumber_from map snd]. rewrite IH. f_equal.
  unfold renumber_row. now destruct k0 as [| [| [| k0]]].
Qed.

Lemma index_firstn (i : nat) (fr : Frame) :
  index (firstn i fr) = firstn i (index fr).
Proof. unfold index. symmetry. apply firstn_map. Qed.

Lemma first_rows_values (i : nat) (self : Zmat) :
  jit_zmat_values (first_rows i self) = firstn i (jit_zmat_values self).
Proof.
  unfold jit_zmat_values, change_numbering, first_rows.
  cbn [set_frame _frame]. rewrite !zmat_values_renumber.
  unfold zmat_values_of. symmetry. apply firstn_map.
Qed.

Lemma first_rows_c_table (i : nat) (self : Zmat) :
  (keys_below_are_abs_refs <= 0)%Z ->
  topologicalb (firstn i (jit_c_table self)) = true ->
  jit_c_table (first_rows i self) = firstn i (jit_c_table self).
Proof.
  intros Hneg Htop.
  unfold jit_c_table at 1. unfold change_numbering, first_rows.
  cbn [set_frame _frame]. rewrite index_firstn.
  rewrite (renumber_from_ext (index (_frame self))).
  - rewrite renumber_from_firstn. unfold c_table_of.
    rewrite <- firstn_map. reflexivity.
  - intros k lbl r Hnth. cbn [Nat.add].
    assert (Hk : (k < i)%nat).
    { assert (Hlt : (k < List.length (firstn i (_frame self)))%nat)
        by (apply nth_error_Some; congruence).
      rewrite length_firstn in Hlt. lia. }
    assert (Hnth' : nth_error (_frame self) k = Some (lbl, r)).
    { rewrite nth_error_firstn in Hnth.
      destruct (Nat.ltb_spec k i); [exact Hnth | lia]. }
    pose proof (jit_c_table_nth self k lbl r Hnth') as Hc.
    assert (Hlen : (k < List.length (jit_c_table self))%nat).
    { rewrite jit_c_table_length. apply nth_error_Some. congruence. }
    assert (Hce : nth_error (firstn i (jit_c_table self)) k
                  = Some (b (renumber_row (index (_frame self)) k r),
                          a (renumber_row (index (_frame self)) k r),
                          d (renumber_row (index (_frame self)) k r))).
    { rewrite nth_error_firstn.
      destruct (Nat.ltb_spec k i); [| lia]. rewrite <- Hc.
      apply nth_error_nth'. exact Hlen. }
    destruct (topological_from_nth _ 0 k _ _ _ Htop Hce) as (Hb & Ha & Hd).
    cbn [Nat.add] in *.
    apply renumber_row_firstn; auto. lia.
Qed.

Lemma placed_before_firstn (c_table : list (Z * Z * Z))
    (zmat_values : list (F * F * F)) (placed : list vec) (i : nat) :
  List.length placed = i -> (i <= List.length c_table)%nat ->
  topologicalb (firstn i c_table) = true ->
  placed_before c_table zmat_values placed i ->
  placed_before (firstn i c_table) (firstn i zmat_values) placed i.
Proof.
  intros Hlen Hi Htop Hb j Hj. rewrite <- (Hb j Hj). unfold placement_at.
  rewrite (single_position_row _ (firstn i zmat_values) j).
  rewrite (single_position_row _ zmat_values j).
  rewrite !nth_firstn. destruct (Nat.ltb_spec j i) as [_ | Hge]; [| lia].
  f_equal.
  destruct (nth_error (firstn i c_table) j) as [[[jb ja] jd] |] eqn:Hc.
  - destruct (topological_from_nth _ 0 j jb ja jd Htop Hc) as (Hokb & Hoka & Hokd).
    cbn [Nat.add] in *.
    rewrite nth_error_firstn in Hc.
    destruct (Nat.ltb_spec j i); [| lia].
    rewrite (nth_error_nth _ _ _ Hc). unfold ref_positions.
    rewrite length_firstn, Nat.min_l by exact Hi.
    rewrite (ref_position_array_prefix i (List.length c_table) placed j jb),
            (ref_position_array_prefix i (List.length c_table) placed j ja),
            (ref_position_array_prefix i (List.length c_table) placed j jd);
      auto; lia.
  - apply nth_error_None in Hc. rewrite length_firstn in Hc. lia.
Qed.

Lemma cartesian_of_first_rows (i : nat) (self : Zmat) (placed : list vec) :
  (List.length placed <= i)%nat ->
  cartesian_of (first_rows i self) placed = cartesian_of self placed.
Proof.
  intros Hk. unfold cartesian_of, first_rows. cbn [set_frame _frame].
  rewrite index_firstn, <- firstn_map, <- combine_firstn.
  now apply combine_firstn_short.
Qed.

Lemma first_rows_conversion (self : Zmat) (placed : list vec) (k : nat) :
  (keys_below_are_abs_refs <= 0)%Z ->
  NoDup (index (_frame self)) ->
  (k <= List.length (_frame self))%nat ->
  List.length placed = k ->
  topologicalb (firstn k (jit_c_table self)) = true ->
  placed_before (jit_c_table self) (jit_zmat_values self) placed k ->
  get_cartesian (first_rows k self) = Return (cartesian_of self placed).
Proof.
  intros Hneg Hnd Hk Hlen Htop Hb.
  rewrite <- (cartesian_of_first_rows k self placed) by lia.
  apply get_cartesian_ok.
  - unfold first_rows. cbn [set_frame _frame]. rewrite index_firstn.
    now apply NoDup_firstn.
  - unfold first_rows. cbn [set_frame _frame].
    rewrite length_firstn. lia.
  - unfold first_rows at 3. cbn [set_frame _frame].
    rewrite length_firstn, Nat.min_l by lia.
    rewrite (first_rows_c_table k self Hneg Htop), first_rows_values.
    apply placed_before_firstn; auto.
    rewrite jit_c_table_length. lia.
Qed.

Lemma placed_before_cut (c_table : list (Z * Z * Z))
    (zmat_values : list (F * F * F)) (placed : list vec) (n k : nat) :
  (k <= n)%nat ->
  placed_before c_table zmat_values placed n ->
  placed_before c_table zmat_values (firstn k placed) k.
Proof.
  intros Hk Hb j Hj.
  rewrite (placement_at_firstn c_table zmat_values (firstn k placed) placed).
  - rewrite (Hb j) by lia. rewrite nth_firstn.
    destruct (Nat.ltb_spec j k); [reflexivity | lia].
  - rewrite firstn_firstn. f_equal. lia.
Qed.

Lemma cartesian_of_firstn (self : Zmat) (placed : list vec) (k : nat) :
  cartesian_of self (firstn k placed) = firstn k (cartesian_of self placed).
Proof.
  unfold cartesian_of. rewrite combine_firstn.
  symmetry. apply combine_firstn_short. rewrite length_firstn. lia.
Qed.

(** X14.  The partial Cartesian is a conversion.  Let the labels be
    distinct and the sentinels negative.  When the conversion raises a
    singularity after at least one atom is placed, and the rows before the
    failing atom are in topological order, the partial Cartesian of the
    failure is what the conversion returns for the ZMatrix cut off before
    the failing atom, whose row is the next one. *)
Theorem partial_cartesian_is_conversion (self : Zmat) (e : InvalidRef) :
  (keys_below_are_abs_refs <= 0)%Z ->
  NoDup (index (_frame self)) ->
  get_cartesian self = Raise (InvalidReference e) ->
  already_built_cartesian e <> [] ->
  let i := List.length (already_built_cartesian e) in
  topologicalb (firstn i (jit_c_table self)) = true ->
  nth_error (index (_frame self)) i = Some (exc_index e) /\
  get_cartesian (first_rows i self) = Return (already_built_cartesian e).
Proof.
  intros Hneg Hnd Hget _ i Htop.
  pose proof (get_cartesian_sound self Hnd) as Hsound. rewrite Hget in Hsound.
  destruct Hsound as (k & r & placed & Hnth & Hlen & Hb & _ & He).
  assert (Hk : (k < List.length (_frame self))%nat)
    by (apply nth_error_Some; congruence).
  assert (Hi : i = k).
  { unfold i. rewrite He. cbn [already_built_cartesian].
    rewrite <- Hlen. rewrite <- (length_map snd).
    rewrite cartesian_of_positions; [reflexivity | lia]. }
  rewrite Hi in *. clear Hi. split.
  - unfold index. rewrite nth_error_map, Hnth. reflexivity.
  - rewrite He. cbn [already_built_cartesian].
    apply first_rows_conversion; auto. lia.
Qed.

(** X15.  Atoms are built from the rows before them only.  Let the labels
    be distinct and the sentinels negative, and let the conversion return
    a Cartesian.  For every k from 1 to the number of atoms whose first k
    rows are in topological order, the ZMatrix cut off after its first k
    rows converts to the first k rows of that Cartesian. *)
Theorem conversion_of_first_rows (self : Zmat) (c : Cartesian) (k : nat) :
  (keys_below_are_abs_refs <= 0)%Z ->
  NoDup (index (_frame self)) ->
  get_cartesian self = Return c ->
  (0 < k <= List.length (_frame self))%nat ->
  topologicalb (firstn k (jit_c_table self)) = true ->
  get_cartesian (first_rows k self) = Return (firstn k c).
Proof.
  intros Hneg Hnd Hget Hk Htop.
  pose proof (get_cartesian_sound self Hnd) as Hsound. rewrite Hget in Hsound.
  destruct Hsound as (placed & Hlen & Hb & ->).
  rewrite <- cartesian_of_firstn.
  apply first_rows_conversion; auto; try lia.
  - rewrite length_firstn. lia.
  - apply (placed_before_cut _ _ _ (List.length (_frame self))); [lia | exact Hb].
Qed.

End ConversionPrefix.

(** ** What the handling of dummies keeps *)

Section RecoveryInvariants.
Context {N : Numeric} {H : Helpers}.

Lemma same_settings_refl (z : Zmat) : same_settings z z.
Proof. repeat split. Qed.

Lemma same_settings_trans (z1 z2 z3 : Zmat) :
  same_settings z1 z2 -> same_settings z2 z3 -> same_settings z1 z3.
Proof.
  unfold same_settings. intros (H1 & H2 & H3) (H4 & H5 & H6).
  repeat split; congruence.
Qed.

Lemma filter_no_labels (idx : list Z) :
  filter (fun k => negb (in_labels [] k)) idx = idx.
Proof.
  induction idx as [| k idx IH]; [reflexivity |].
  cbn [filter]. change (in_labels [] k) with false. cbn [negb].
  now rewrite IH.
Qed.

(** Removal touches the frame and the dummy map only; the labels it
    leaves are the labels it found, without those it dropped. *)
Lemma remove_dummies_keeps (to_remove : option (list Z)) (z z' : Zmat)
    (w : list notice) (res : result unit) :
  _remove_dummies to_remove z = (z', w, res) ->
  same_settings z z' /\
  exists labels,
    index (_frame z')
    = filter (fun k => negb (in_labels labels k)) (index (_frame z)).
Proof.
  assert (Hid : forall fr,
             index fr = index (_frame z) ->
             exists labels,
               index fr
               = filter (fun k => negb (in_labels labels k))
                   (index (_frame z))).
  { intros fr ->. exists []. now rewrite filter_no_labels. }
  unfold _remove_dummies.
  destruct (match to_remove with
            | Some l => Return l
            | None => _has_removable_dummies z
            end) as [[| k0 ks] | x];
    try (intros Heq; inversion Heq; subst; cbn [set_frame _frame];
         split; [repeat split | now apply Hid]; fail).
  set (l := k0 :: ks). clearbody l.
  destruct (loc_list (_frame z) l) as [rows | x];
    try (intros Heq; inversion Heq; subst; cbn [set_frame _frame];
         split; [repeat split | now apply Hid]; fail).
  destruct (dict_get_list _ l) as [entries | x];
    try (intros Heq; inversion Heq; subst; cbn [set_frame _frame];
         split; [repeat split | now apply Hid]; fail).
  set (fr1 := update_each set_d (_frame z) _).
  assert (Hidx1 : index fr1 = index (_frame z)) by apply index_update_each.
  destruct (get_cartesian (set_frame fr1 z)) as [cart | x];
    try (intros Heq; inversion Heq; subst; cbn [set_frame _frame];
         split; [repeat split | now apply Hid]; fail).
  destruct (_calculate_zmat_values cart _) as [vals | x];
    try (intros Heq; inversion Heq; subst; cbn [set_frame _frame];
         split; [repeat split | now apply Hid]; fail).
  destruct (negb _);
    try (intros Heq; inversion Heq; subst; cbn [set_frame _frame];
         split; [repeat split | now apply Hid]; fail).
  cbn [set_frame _frame].
  set (fr2 := update_each set_values fr1 _).
  assert (Hidx2 : index fr2 = index (_frame z)).
  { unfold fr2. now rewrite index_update_each. }
  unfold drop_checked.
  destruct (loc_list fr2 _) as [rs | x].
  - intros Heq. inversion Heq; subst.
    cbn [set_has_dummies set_frame _frame]. split; [repeat split |].
    eexists. rewrite index_drop, Hidx2. reflexivity.
  - intros Heq. inversion Heq; subst. cbn [set_frame _frame].
    split; [repeat split | now apply Hid].
Qed.

Lemma zmat_insert_dummy_settings (z z' : Zmat) (i dummy : Z)
    (dummy_cart : Cartesian) (w : list notice) (res : result unit) :
  zmat_insert_dummy i dummy_cart dummy z = (z', w, res) ->
  same_settings z z'.
Proof.
  unfold zmat_insert_dummy. intros Hrun.
  repeat match type of Hrun with
         | context [match ?t with _ => _ end] =>
             destruct t;
             try (inversion Hrun; subst; repeat split; fail)
         end.
Qed.

Lemma NoDup_insert_before (pre post : list Z) (dummy i : Z) :
  NoDup (pre ++ i :: post) -> ~ In dummy (pre ++ i :: post) ->
  NoDup (pre ++ dummy :: i :: post).
Proof.
  intros Hnd Hnot.
  apply (NoDup_Add (Add_app dummy pre (i :: post))). now split.
Qed.

Lemma toggle_dummy_keeps (e : InvalidRef) (z z' : Zmat) (w : list notice)
    (res : result unit) :
  NoDup (index (_frame z)) ->
  toggle_dummy e z = (z', w, res) ->
  same_settings z z' /\ NoDup (index (_frame z')).
Proof.
  intros Hnd Htog.
  destruct (dict_mem (has_dummies (_metadata z)) (exc_index e)) eqn:Hmem.
  - rewrite (toggle_dummy_remove e z Hmem) in Htog.
    destruct (remove_dummies_keeps _ z z' w res Htog) as (Hset & labels & ->).
    split; [exact Hset | now apply NoDup_filter].
  - destruct res as [[] | x].
    + unfold toggle_dummy in Htog. rewrite Hmem in Htog.
      destruct (_insert_dummy_cart z e) as [[dummy_cart dummy] | x] eqn:Hcart;
        [| discriminate].
      split; [exact (zmat_insert_dummy_settings _ _ _ _ _ _ _ Htog) |].
      destruct (insert_dummy_cart_inv z e dummy_cart dummy Hcart)
        as (ri & b0 & a0 & d0 & b_pos & a_pos & d_pos & _ & _ & _ & Hd & _).
      pose proof (dummy_label_fresh (index (_frame z))) as Hfresh.
      rewrite <- Hd in Hfresh.
      destruct (zmat_insert_dummy_inv z z' (exc_index e) dummy dummy_cart w
                  Hfresh Htog)
        as (pre & ri' & post & rd & v & rest & Hfr & _ & _ & _ & Hfr' & _).
      rewrite Hfr' , index_app. cbn [index map fst].
      rewrite Hfr, index_app in Hnd, Hfresh. cbn [index map fst] in Hnd, Hfresh.
      now apply NoDup_insert_before.
    + destruct (toggle_insert_outcomes z z' e w _ Hmem Htog) as (_ & Hfail & _).
      destruct (Hfail ltac:(discriminate)) as [-> _].
      split; [apply same_settings_refl | exact Hnd].
Qed.

Lemma toggle_dummy_settings (e : InvalidRef) (z z' : Zmat) (w : list notice)
    (res : result unit) :
  toggle_dummy e z = (z', w, res) -> same_settings z z'.
Proof.
  intros Htog.
  destruct (dict_mem (has_dummies (_metadata z)) (exc_index e)) eqn:Hmem.
  - rewrite (toggle_dummy_remove e z Hmem) in Htog.
    now destruct (remove_dummies_keeps _ z z' w res Htog).
  - unfold toggle_dummy in Htog. rewrite Hmem in Htog.
    destruct (_insert_dummy_cart z e) as [[dummy_cart dummy] | x].
    + exact (zmat_insert_dummy_settings _ _ _ _ _ _ _ Htog).
    + inversion Htog; subst. apply same_settings_refl.
Qed.

Lemma recovery_keeps_distinct (depth : nat) :
  forall (e : InvalidRef) (z z' : Zmat) (w : list notice) (r : result unit),
    NoDup (index (_frame z)) ->
    _insert_dummy_zmat depth e z = (z', w, r) ->
    NoDup (index (_frame z')).
Proof.
  induction depth as [| depth IH]; intros e z z' w r Hnd Hrun.
  - cbn in Hrun. now inversion Hrun; subst.
  - rewrite insert_dummy_zmat_step in Hrun.
    destruct (toggle_dummy e z) as [[z1 w1] r1] eqn:Htog.
    destruct (toggle_dummy_keeps e z z1 w1 r1 Hnd Htog) as [_ Hnd1].
    destruct r1 as [[] | x]; [| now inversion Hrun; subst].
    destruct (get_cartesian z1) as [c | [e' | | | | | |]];
      try (now inversion Hrun; subst).
    destruct (_insert_dummy_zmat depth e' z1) as [[z2 w2] r2] eqn:Hrec.
    inversion Hrun; subst. exact (IH e' z1 z' w2 r Hnd1 Hrec).
Qed.

Lemma recovery_keeps_settings (depth : nat) :
  forall (e : InvalidRef) (z z' : Zmat) (w : list notice) (r : result unit),
    _insert_dummy_zmat depth e z = (z', w, r) ->
    dummy_manipulation_allowed (_metadata z')
    = dummy_manipulation_allowed (_metadata z) /\
    test_operators (_metadata z') = test_operators (_metadata z) /\
    (r <> Return tt ->
     last_valid_cartesian (_metadata z')
     = last_valid_cartesian (_metadata z)).
Proof.
  induction depth as [| depth IH]; intros e z z' w r Hrun.
  - cbn in Hrun. inversion Hrun; subst. repeat split.
  - rewrite insert_dummy_zmat_step in Hrun.
    destruct (toggle_dummy e z) as [[z1 w1] r1] eqn:Htog.
    destruct (toggle_dummy_settings e z z1 w1 r1 Htog) as (Hl & Hd & Ht).
    destruct r1 as [[] | x]; [| inversion Hrun; subst; repeat split; auto].
    destruct (get_cartesian z1) as [c | [e' | | | | | |]];
      try (inversion Hrun; subst; cbn; repeat split; auto; congruence).
    destruct (_insert_dummy_zmat depth e' z1) as [[z2 w2] r2] eqn:Hrec.
    inversion Hrun; subst.
    destruct (IH e' z1 z' w2 r Hrec) as (Hd' & Ht' & Hl').
    repeat split; try congruence.
    intros Hr. rewrite (Hl' Hr). exact Hl.
Qed.

(** X6.  Labels stay distinct.  On a ZMatrix with distinct labels, the
    removal of dummies, the recovery and their composition
    [_manipulate_dummies] leave a ZMatrix with distinct labels, whether
    they return or raise, for every failure they are called with. *)
Theorem dummies_keep_labels_distinct (depth : nat) (e : InvalidRef)
    (to_remove : option (list Z)) (z z' : Zmat) (w : list notice)
    (r : result unit) :
  NoDup (index (_frame z)) ->
  _remove_dummies to_remove z = (z', w, r) \/
  _insert_dummy_zmat depth e z = (z', w, r) \/
  _manipulate_dummies depth e z = (z', w, r) ->
  NoDup (index (_frame z')).
Proof.
  intros Hnd [Hrun | [Hrun | Hrun]].
  - destruct (remove_dummies_keeps _ z z' w r Hrun) as (_ & labels & ->).
    now apply NoDup_filter.
  - exact (recovery_keeps_distinct depth e z z' w r Hnd Hrun).
  - unfold _manipulate_dummies, bind in Hrun.
    destruct (_insert_dummy_zmat depth e z) as [[z1 w1] r1] eqn:Hrec.
    pose proof (recovery_keeps_distinct depth e z z1 w1 r1 Hnd Hrec) as Hnd1.
    destruct r1 as [[] | x]; [| now inversion Hrun; subst].
    destruct (_remove_dummies None z1) as [[z2 w2] r2] eqn:Hrem.
    inversion Hrun; subst.
    destruct (remove_dummies_keeps _ z1 z' w2 r Hrem) as (_ & labels & ->).
    now apply NoDup_filter.
Qed.

(** X7.  What the handling of dummies does not touch.  Neither the
    removal nor the recovery nor [_manipulate_dummies] changes the
    switches [dummy_manipulation_allowed] and [test_operators].  The
    removal never changes the last valid Cartesian, and a recovery that
    raises leaves it as it was: it is overwritten only when the recovery
    returns. *)
Theorem dummies_keep_settings (depth : nat) (e : InvalidRef)
    (to_remove : option (list Z)) (z : Zmat) :
  (forall z' w r,
     _remove_dummies to_remove z = (z', w, r) -> same_settings z z') /\
  (forall z' w r,
     _insert_dummy_zmat depth e z = (z', w, r) ->
     dummy_manipulation_allowed (_metadata z')
     = dummy_manipulation_allowed (_metadata z) /\
     test_operators (_metadata z') = test_operators (_metadata z) /\
     (r <> Return tt ->
      last_valid_cartesian (_metadata z')
      = last_valid_cartesian (_metadata z))) /\
  (forall z' w r,
     _manipulate_dummies depth e z = (z', w, r) ->
     dummy_manipulation_allowed (_metadata z')
     = dummy_manipulation_allowed (_metadata z) /\
     test_operators (_metadata z') = test_operators (_metadata z)).
Proof.
  split; [| split].
  - intros z' w r Hrun. now destruct (remove_dummies_keeps _ z z' w r Hrun).
  - intros z' w r Hrun. exact (recovery_keeps_settings depth e z z' w r Hrun).
  - intros z' w r Hrun. unfold _manipulate_dummies, bind in Hrun.
    destruct (_insert_dummy_zmat depth e z) as [[z1 w1] r1] eqn:Hrec.
    destruct (recovery_keeps_settings depth e z z1 w1 r1 Hrec)
      as (Hd & Ht & _).
    destruct r1 as [[] | x]; [| inversion Hrun; subst; now split].
    destruct (_remove_dummies None z1) as [[z2 w2] r2] eqn:Hrem.
    inversion Hrun; subst.
    destruct (remove_dummies_keeps _ z1 z' w2 r Hrem) as ((_ & Hd' & Ht') & _).
    split; congruence.
Qed.

End RecoveryInvariants.

(** ** Errors and edge cases of the handling of dummies *)

Section DummyEdges.
Context {N : Numeric} {H : Helpers}.

Lemma loc_notin (fr : Frame) (k : Z) : ~ In k (index fr) -> loc fr k = None.
Proof.
  intros Hnot. destruct (loc fr k) as [r |] eqn:Hk; [| reflexivity].
  exfalso. apply Hnot. eapply loc_Some_In; eauto.
Qed.

Lemma loc_Some_split (fr : Frame) (i : Z) (ri : zrow) :
  loc fr i = Some ri ->
  exists pre post,
    fr = pre ++ (i, ri) :: post /\ ~ In i (index pre) /\
    get_loc (index fr) i = Some (List.length pre).
Proof.
  intros Hloc.
  destruct (get_loc_In (index fr) i (loc_Some_In fr i ri Hloc)) as [pos Hpos].
  destruct (get_loc_split fr i pos Hpos) as (pre & r & post & Hfr & Hlen & Hnot).
  exists pre, post. subst pos. split; [| split; [exact Hnot | exact Hpos]].
  rewrite Hfr in Hloc. rewrite (loc_split pre post i r Hnot) in Hloc.
  congruence.
Qed.

(** X9.  Insertion needs rows for the failing atom and for its d
    reference.  For a failing atom without a recorded dummy: if the atom
    is no row of the table the recovery raises KeyError for it, and if its
    d reference is no row of the table (a sentinel, say) the recovery
    raises KeyError for that reference, once the Cartesian has provided
    the position of the dummy.  In both cases the ZMatrix is left as it
    was and no notice is emitted. *)
Theorem insertion_key_errors (depth : nat) (e : InvalidRef) (z : Zmat) :
  dict_mem (has_dummies (_metadata z)) (exc_index e) = false ->
  (loc (_frame z) (exc_index e) = None ->
   _insert_dummy_zmat (S depth) e z
   = (z, [], Raise (KeyError (exc_index e)))) /\
  (forall ri dummy_cart dummy,
     loc (_frame z) (exc_index e) = Some ri ->
     ~ In (d ri) (index (_frame z)) ->
     _insert_dummy_cart z e = Return (dummy_cart, dummy) ->
     _insert_dummy_zmat (S depth) e z = (z, [], Raise (KeyError (d ri)))).
Proof.
  intros Hmem. split.
  - intros Hloc. rewrite insert_dummy_zmat_step.
    unfold toggle_dummy, _insert_dummy_cart. now rewrite Hmem, Hloc.
  - intros ri dummy_cart dummy Hloc Hd Hcart.
    rewrite insert_dummy_zmat_step.
    rewrite (toggle_dummy_insert e z dummy_cart dummy Hmem Hcart).
    destruct (loc_Some_split _ _ _ Hloc) as (pre & post & Hfr & Hnot & Hpos).
    unfold zmat_insert_dummy. rewrite Hloc, Hpos.
    rewrite Hfr at 1. rewrite insert_row_split.
    now rewrite (loc_notin _ _ Hd).
Qed.

Lemma cart_set_fresh (c : Cartesian) (i : Z) (s : string) (p : vec) :
  ~ In i (map (fun x => fst (fst x)) c) ->
  cart_set c i s p = c ++ [(i, s, p)].
Proof.
  induction c as [| [[k s'] p'] c IH]; intros Hnot; cbn; [reflexivity |].
  destruct (Z.eqb_spec k i) as [-> | Hne].
  - exfalso. apply Hnot. now left.
  - f_equal. apply IH. intros Hin. apply Hnot. now right.
Qed.

(** X10.  The dummy is appended.  When the labels of the partial
    Cartesian of the failure are labels of the ZMatrix, as they are for a
    failure that the conversion raised, [_insert_dummy_cart] returns the
    partial Cartesian with its rows unchanged and one new last row: the
    atom X under the label max(index) + 1, which is no label of the
    ZMatrix. *)
Theorem dummy_cart_appended (z : Zmat) (e : InvalidRef)
    (dummy_cart : Cartesian) (dummy : Z) :
  (forall k, In k (map (fun x => fst (fst x)) (already_built_cartesian e)) ->
     In k (index (_frame z))) ->
  _insert_dummy_cart z e = Return (dummy_cart, dummy) ->
  dummy = (index_max (index (_frame z)) + 1)%Z /\
  ~ In dummy (index (_frame z)) /\
  exists pos,
    dummy_cart = already_built_cartesian e ++ [(dummy, "X"%string, pos)].
Proof.
  intros Hsub Hcart.
  destruct (insert_dummy_cart_inv z e dummy_cart dummy Hcart)
    as (ri & b0 & a0 & d0 & b_pos & a_pos & d_pos & _ & _ & _ & Hd & Hdc).
  pose proof (dummy_label_fresh (index (_frame z))) as Hfresh.
  rewrite <- Hd in Hfresh.
  split; [exact Hd |]. split; [exact Hfresh |].
  eexists. rewrite Hdc. apply cart_set_fresh.
  intros Hin. apply Hfresh. now apply Hsub.
Qed.

(** X11.  Removal converts first.  When the keys of the dummy map are
    rows of the table, the removability check raises whatever the
    conversion of the ZMatrix raises, and so does the removal called
    without a list, which then leaves the ZMatrix as it was and emits no
    notice; this holds in particular for a ZMatrix without any recorded
    dummy.  If the conversion succeeds and no dummy is recorded, the
    removal is a no-op. *)
Theorem removal_converts_first (z : Zmat) :
  (forall k, In k (map fst (has_dummies (_metadata z))) ->
     In k (index (_frame z))) ->
  (forall x,
     get_cartesian z = Raise x ->
     _has_removable_dummies z = Raise x /\
     _remove_dummies None z = (z, [], Raise x)) /\
  (forall c,
     get_cartesian z = Return c ->
     has_dummies (_metadata z) = [] ->
     _has_removable_dummies z = Return [] /\
     _remove_dummies None z = (z, [], Return tt)).
Proof.
  intros Hkeys. split.
  - intros x Hget.
    assert (Hrem : _has_removable_dummies z = Raise x).
    { unfold _has_removable_dummies.
      now rewrite (loc_list_total _ _ Hkeys), Hget. }
    split; [exact Hrem |]. unfold _remove_dummies. now rewrite Hrem.
  - intros c Hget Hnone.
    assert (Hrem : _has_removable_dummies z = Return []).
    { unfold _has_removable_dummies. rewrite Hnone. cbn. now rewrite Hget. }
    split; [exact Hrem |]. unfold _remove_dummies. now rewrite Hrem.
Qed.

(** *** An insertion taken back *)

Lemma remove_single_inv (z z' : Zmat) (i : Z) (w : list notice) :
  _remove_dummies (Some [i]) z = (z', w, Return tt) ->
  exists ri en cart v,
    loc (_frame z) i = Some ri /\
    dict_get (has_dummies (_metadata z)) i = Some en /\
    get_cartesian
      (set_frame (loc_update (_frame z) i (set_d (actual_d en))) z)
    = Return cart /\
    _calculate_zmat_values cart [(i, (b ri, a ri, actual_d en))]
    = Return [v] /\
    _frame z'
    = drop (loc_update (loc_update (_frame z) i (set_d (actual_d en))) i
              (set_values v))
        [dummy_d en] /\
    has_dummies (_metadata z') = dict_pop (has_dummies (_metadata z)) i /\
    w = [DummiesRemoved [i]].
Proof.
  unfold _remove_dummies. cbn [loc_list dict_get_list].
  destruct (loc (_frame z) i) as [ri |]; [| discriminate].
  destruct (dict_get (has_dummies (_metadata z)) i) as [en |];
    [| discriminate].
  cbn [map combine update_each fold_left fst snd actual_c_table].
  destruct (get_cartesian _) as [cart | x] eqn:Hget; [| discriminate].
  destruct (_calculate_zmat_values cart _) as [vals | x] eqn:Hcalc;
    [| discriminate].
  destruct vals as [| v [| v' vals]]; cbn [List.length Nat.eqb negb];
    try discriminate.
  cbn [combine fold_left fst snd set_frame _frame].
  unfold drop_checked.
  destruct (loc_list _ _) as [rs | x]; [| discriminate].
  intros Heq. inversion Heq; subst.
  exists ri, en, cart, v. repeat split; assumption.
Qed.

Lemma drop_fresh (fr : Frame) (k : Z) :
  ~ In k (index fr) -> drop fr [k] = fr.
Proof.
  unfold drop, index. induction fr as [| [l r] fr IH]; intros Hnot;
    [reflexivity |].
  cbn [filter fst existsb]. destruct (Z.eqb_spec l k) as [-> | Hne].
  - exfalso. apply Hnot. now left.
  - cbn. f_equal. apply IH. intros Hin. apply Hnot. now right.
Qed.

Lemma drop_middle (pre post : Frame) (k : Z) (r : zrow) :
  ~ In k (index pre) -> ~ In k (index post) ->
  drop (pre ++ (k, r) :: post) [k] = pre ++ post.
Proof.
  intros Hpre Hpost.
  pose proof (drop_fresh pre k Hpre) as Hp.
  pose proof (drop_fresh post k Hpost) as Hq.
  unfold drop in *. rewrite filter_app, Hp. f_equal. cbn [filter].
  match goal with
  | |- (if ?c then _ else _) = _ =>
      replace c with false by (cbn; now rewrite Z.eqb_refl)
  end.
  exact Hq.
Qed.

Lemma dict_pop_set (hd : list (Z * dummy_entry)) (k : Z) (en : dummy_entry) :
  dict_get hd k = None -> dict_pop (dict_set hd k en) k = hd.
Proof.
  unfold dict_pop. induction hd as [| [k' e'] hd IH]; intros Hnone; cbn.
  - now rewrite Z.eqb_refl.
  - cbn in Hnone. destruct (Z.eqb k' k) eqn:Hk; [discriminate |].
    cbn. rewrite Hk. cbn. f_equal. now apply IH.
Qed.

Lemma set_values_restored (v : F * F * F) (dummy : Z) (ri : zrow) :
  set_values v (set_d (d ri) (set_d dummy ri)) = set_values v ri.
Proof. destruct ri, v as [[v1 v2] v3]. reflexivity. Qed.

(** X12.  An insertion taken back.  Let the recovery insert a dummy for an
    atom i that has none recorded, and let the next toggle for the same
    atom return.  Then the ZMatrix has its former labels in
    their former order, every row other than that of atom i is what it
    was, the row of atom i has its former atom and references b, a, d, and
    the dummy map is what it was: only the bond, angle and dihedral of
    atom i are new, being the values re-derived by the Cartesian.  The
    notices are one insertion and one removal. *)
Theorem insertion_taken_back (e e' : InvalidRef) (z z1 z2 : Zmat)
    (w1 w2 : list notice) :
  dict_mem (has_dummies (_metadata z)) (exc_index e) = false ->
  exc_index e' = exc_index e ->
  toggle_dummy e z = (z1, w1, Return tt) ->
  toggle_dummy e' z1 = (z2, w2, Return tt) ->
  exists pre ri post v,
    _frame z = pre ++ (exc_index e, ri) :: post /\
    _frame z2 = pre ++ (exc_index e, set_values v ri) :: post /\
    has_dummies (_metadata z2) = has_dummies (_metadata z) /\
    w1 = [DummyInserted (exc_index e)
            (index_max (index (_frame z)) + 1)%Z] /\
    w2 = [DummiesRemoved [exc_index e]].
Proof.
  intros Hmem Hidx Hins Hrem.
  set (i := exc_index e) in *.
  assert (Hnone : dict_get (has_dummies (_metadata z)) i = None).
  { unfold dict_mem in Hmem.
    destruct (dict_get (has_dummies (_metadata z)) i); [discriminate | auto]. }
  unfold toggle_dummy in Hins. fold i in Hins. rewrite Hmem in Hins.
  destruct (_insert_dummy_cart z e) as [[dummy_cart dummy] | x] eqn:Hcart;
    [| discriminate].
  destruct (insert_dummy_cart_inv z e dummy_cart dummy Hcart)
    as (ri0 & b0 & a0 & d0 & b_pos & a_pos & d_pos & _ & _ & _ & Hd & _).
  pose proof (dummy_label_fresh (index (_frame z))) as Hfresh.
  rewrite <- Hd in Hfresh.
  destruct (zmat_insert_dummy_inv z z1 i dummy dummy_cart w1 Hfresh Hins)
    as (pre & ri & post & rd & v0 & rest & Hfr & Hnot & _ & _ & Hfr1 & Hhd1
        & _ & Hw1).
  assert (Hne : dummy <> i).
  { intros ->. apply Hfresh. rewrite Hfr, index_app. apply in_or_app.
    right. now left. }
  assert (Hpre : ~ In dummy (index pre)).
  { intros Hin. apply Hfresh. rewrite Hfr, index_app. apply in_or_app.
    now left. }
  assert (Hpost : ~ In dummy (index ((i, ri) :: post))).
  { intros Hin. apply Hfresh. rewrite Hfr, index_app. apply in_or_app.
    now right. }
  assert (Hnot1 : ~ In i (index (pre ++ [(dummy, dummy_row (b rd, a rd, d rd) v0)]))).
  { rewrite index_app. intros Hin. apply in_app_or in Hin.
    destruct Hin as [Hin | [Hin | []]]; auto. }
  assert (Hfr1' : _frame z1
                  = (pre ++ [(dummy, dummy_row (b rd, a rd, d rd) v0)])
                    ++ (i, set_d dummy ri) :: post).
  { rewrite Hfr1, <- app_assoc. reflexivity. }
  assert (Hmem1 : dict_mem (has_dummies (_metadata z1)) (exc_index e') = true).
  { rewrite Hidx. fold i. unfold dict_mem. now rewrite Hhd1, dict_get_set. }
  rewrite (toggle_dummy_remove e' z1 Hmem1), Hidx in Hrem. fold i in Hrem.
  destruct (remove_single_inv z1 z2 i w2 Hrem)
    as (ri1 & en & cart & v & Hloc1 & Hen & _ & _ & Hfr2 & Hhd2 & Hw2).
  rewrite Hfr1', (loc_split _ post i _ Hnot1) in Hloc1.
  inversion Hloc1; subst ri1. clear Hloc1.
  rewrite Hhd1, dict_get_set in Hen. inversion Hen; subst en. clear Hen.
  cbn [actual_d dummy_d] in Hfr2.
  exists pre, ri, post, v.
  split; [exact Hfr |]. split; [| split; [| split; [| exact Hw2]]].
  - rewrite Hfr2, Hfr1'.
    rewrite !(loc_update_split _ post i _ _ Hnot1).
    rewrite set_values_restored, <- app_assoc. cbn [app].
    apply drop_middle; [exact Hpre |].
    intros Hin. apply Hpost. exact Hin.
  - rewrite Hhd2, Hhd1. now apply dict_pop_set.
  - rewrite Hw1, Hd. reflexivity.
Qed.

End DummyEdges.

(** ** Renumbering *)

Section RenumberingFacts.
Context {N : Numeric}.

Lemma get_loc_nth (idx : list Z) (v dflt : Z) (p : nat) :
  get_loc idx v = Some p ->
  (p < List.length idx)%nat /\ nth p idx dflt = v.
Proof.
  revert p. induction idx as [| k idx IH]; intros p Hp; cbn in Hp;
    [discriminate |].
  destruct (Z.eqb_spec k v) as [-> | Hne].
  - inversion Hp; subst. cbn. split; [lia | reflexivity].
  - destruct (get_loc idx v) as [q |]; [| discriminate].
    inversion Hp; subst. destruct (IH q eq_refl) as [Hlt Hnth].
    cbn. split; [lia | exact Hnth].
Qed.

Lemma get_loc_NoDup_nth (idx : list Z) (dflt : Z) (p : nat) :
  NoDup idx -> (p < List.length idx)%nat ->
  get_loc idx (nth p idx dflt) = Some p.
Proof.
  intros Hnd. revert p. induction Hnd as [| k idx Hnot Hnd IH]; intros p Hp;
    cbn in Hp; [lia |].
  destruct p as [| p]; cbn.
  - now rewrite Z.eqb_refl.
  - destruct (Z.eqb_spec k (nth p idx dflt)) as [Heq | Hne].
    + exfalso. apply Hnot. rewrite Heq. apply nth_In. lia.
    + rewrite IH by lia. reflexivity.
Qed.

Lemma range_index_length (n : nat) : List.length (range_index n) = n.
Proof. unfold range_index. now rewrite length_map, length_seq. Qed.

Lemma range_index_nth (n p : nat) (dflt : Z) :
  (p < n)%nat -> nth p (range_index n) dflt = Z.of_nat p.
Proof. intros Hp. unfold range_index. now apply nth_map_seq. Qed.

Lemma replace_with_range (idx : list Z) (n : nat) (v : Z) :
  (List.length idx <= n)%nat ->
  replace_with idx (range_index n) v = replace_label idx v.
Proof.
  intros Hn. unfold replace_with, replace_label.
  destruct (get_loc idx v) as [p |] eqn:Hp; [| reflexivity].
  destruct (get_loc_nth idx v 0%Z p Hp) as [Hlt _].
  apply range_index_nth. lia.
Qed.

Lemma renumber_row_with_range (idx : list Z) (n i : nat) (r : zrow) :
  (List.length idx <= n)%nat ->
  renumber_row_with idx (range_index n) true i r = renumber_row idx i r.
Proof.
  intros Hn. unfold renumber_row_with, renumber_row.
  now rewrite !(replace_with_range idx n _ Hn).
Qed.

Lemma renumber_from_rows (idx : list Z) (n i : nat) (fr : Frame) :
  (List.length idx <= n)%nat ->
  renumber_from idx i fr
  = combine (map Z.of_nat (seq i (List.length fr)))
      (renumber_rows idx (range_index n) true i fr).
Proof.
  intros Hn. revert i. induction fr as [| [k r] fr IH]; intros i;
    cbn [renumber_from renumber_rows List.length seq map combine];
    [reflexivity |].
  now rewrite (renumber_row_with_range idx n i r Hn), IH.
Qed.

(** The call [change_numbering()] of [get_cartesian] is the call with all
    arguments at their defaults. *)
Lemma change_numbering_default (self : Zmat) :
  change_numbering_with None true self = Return (change_numbering self).
Proof.
  unfold change_numbering_with, change_numbering. do 2 f_equal.
  symmetry. apply renumber_from_rows. now rewrite index_length.
Qed.

Lemma renumber_rows_length (idx l : list Z) (ex : bool) (i : nat) (fr : Frame) :
  List.length (renumber_rows idx l ex i fr) = List.length fr.
Proof.
  revert i. induction fr as [| [k r] fr IH]; intros i; cbn; auto.
Qed.

Lemma renumber_row_with_values (idx l : list Z) (ex : bool) (i : nat)
    (r : zrow) :
  let r' := renumber_row_with idx l ex i r in
  atom r' = atom r /\ bond r' = bond r /\ angle r' = angle r /\
  dihedral r' = dihedral r.
Proof.
  unfold renumber_row_with.
  destruct ex; [destruct i as [| [| [| i]]] |]; cbn; auto.
Qed.

Lemma renumber_rows_values (idx l : list Z) (ex : bool) (i : nat) (fr : Frame) :
  map (fun r => (atom r, bond r, angle r, dihedral r))
      (renumber_rows idx l ex i fr)
  = map (fun kr => (atom (snd kr), bond (snd kr), angle (snd kr),
                    dihedral (snd kr))) fr.
Proof.
  revert i. induction fr as [| [k r] fr IH]; intros i; cbn; [reflexivity |].
  destruct (renumber_row_with_values idx l ex i r) as (-> & -> & -> & ->).
  now rewrite IH.
Qed.

Lemma index_combine (l : list Z) (rows : list zrow) :
  List.length l = List.length rows -> index (combine l rows) = l.
Proof.
  unfold index. revert rows. induction l as [| k l IH]; intros [| r rows] Hlen;
    cbn in *; try discriminate; auto.
  f_equal. apply IH. lia.
Qed.

Lemma map_snd_combine_rows (l : list Z) (rows : list zrow) :
  List.length l = List.length rows -> map snd (combine l rows) = rows.
Proof.
  revert rows. induction l as [| k l IH]; intros [| r rows] Hlen;
    cbn in *; try discriminate; auto.
  f_equal. apply IH. lia.
Qed.

Lemma get_loc_Some_In (idx : list Z) (v : Z) (p : nat) :
  get_loc idx v = Some p -> In v idx.
Proof.
  intros Hp. destruct (get_loc_nth idx v 0%Z p Hp) as [Hlt <-].
  now apply nth_In.
Qed.

Lemma get_loc_None_inv (idx : list Z) (v : Z) :
  get_loc idx v = None -> ~ In v idx.
Proof.
  intros Hnone Hin. destruct (get_loc_In idx v Hin) as [p Hp]. congruence.
Qed.

Lemma zrow_eta (r : zrow) :
  set_d (d r) (set_a (a r) (set_b (b r) r)) = r.
Proof. now destruct r. Qed.

Lemma replace_with_same (idx : list Z) (v : Z) : replace_with idx idx v = v.
Proof.
  unfold replace_with. destruct (get_loc idx v) as [p |] eqn:Hp; auto.
  now destruct (get_loc_nth idx v v p Hp).
Qed.

Lemma renumber_rows_same (idx : list Z) (ex : bool) (i : nat) (fr : Frame) :
  renumber_rows idx idx ex i fr = map snd fr.
Proof.
  revert i. induction fr as [| [k r] fr IH]; intros i;
    cbn [renumber_rows map snd]; [reflexivity |].
  rewrite IH. f_equal. unfold renumber_row_with.
  rewrite !replace_with_same.
  destruct r, ex; [destruct i as [| [| [| i]]] |]; reflexivity.
Qed.

Lemma combine_fst_snd (fr : Frame) : combine (index fr) (map snd fr) = fr.
Proof.
  unfold index. induction fr as [| [k r] fr IH]; cbn; [reflexivity |].
  now rewrite IH.
Qed.

(** X1.  [change_numbering] raises ValueError exactly when a new index is
    given whose length is not the number of atoms.  Otherwise it returns a
    ZMatrix that carries the new index (0 .. n-1 when none is given), in
    which the atom, bond, angle and dihedral of every row and the
    metadata are those of the original, and the number of rows is the
    same. *)
Theorem change_numbering_shape (new_index : option (list Z)) (ex : bool)
    (self : Zmat) :
  let n := List.length (_frame self) in
  let l := match new_index with Some l => l | None => range_index n end in
  (List.length l <> n ->
   change_numbering_with new_index ex self = Raise ValueError) /\
  (List.length l = n ->
   exists out,
     change_numbering_with new_index ex self = Return out /\
     index (_frame out) = l /\
     List.length (_frame out) = n /\
     _metadata out = _metadata self /\
     map (fun kr => (atom (snd kr), bond (snd kr), angle (snd kr),
                     dihedral (snd kr))) (_frame out)
     = map (fun kr => (atom (snd kr), bond (snd kr), angle (snd kr),
                       dihedral (snd kr))) (_frame self)).
Proof.
  intros n l. split.
  - intros Hne. destruct new_index as [l' |]; cbn in l; subst l.
    + unfold change_numbering_with. fold n.
      destruct (Nat.eqb_spec (List.length l') n); [contradiction | reflexivity].
    + exfalso. apply Hne. apply range_index_length.
  - intros Hlen.
    set (rows := renumber_rows (index (_frame self)) l ex 0 (_frame self)).
    assert (Hrows : List.length l = List.length rows)
      by (unfold rows; now rewrite renumber_rows_length).
    exists {| _frame := combine l rows; _metadata := _metadata self |}.
    split; [| split; [| split; [| split]]]; cbn [_frame _metadata].
    + unfold change_numbering_with. fold n.
      destruct new_index as [l' |]; cbn in l; subst l; [| reflexivity].
      now rewrite (proj2 (Nat.eqb_eq _ _) Hlen).
    + now apply index_combine.
    + rewrite length_combine, <- Hrows, Nat.min_id. exact Hlen.
    + reflexivity.
    + rewrite <- (map_map snd
                   (fun r => (atom r, bond r, angle r, dihedral r))).
      rewrite (map_snd_combine_rows l rows Hrows). unfold rows.
      apply renumber_rows_values.
Qed.

(** X2.  Renumbering with the index the ZMatrix already has changes
    nothing, whatever the labels and the references are. *)
Theorem change_numbering_same_index (ex : bool) (self : Zmat) :
  change_numbering_with (Some (index (_frame self))) ex self = Return self.
Proof.
  unfold change_numbering_with.
  rewrite index_length, Nat.eqb_refl. cbn [negb].
  rewrite renumber_rows_same, combine_fst_snd. now destruct self.
Qed.

(** *** There and back *)

Lemma replace_with_back (idx l : list Z) (v : Z) :
  NoDup l -> List.length l = List.length idx ->
  In v idx \/ ~ In v l ->
  replace_with l idx (replace_with idx l v) = v.
Proof.
  intros Hnd Hlen Hv. unfold replace_with at 2.
  destruct (get_loc idx v) as [p |] eqn:Hp.
  - destruct (get_loc_nth idx v v p Hp) as [Hlt Hnth].
    unfold replace_with.
    rewrite (get_loc_NoDup_nth l v p Hnd) by lia.
    rewrite (nth_indep idx _ v) by exact Hlt. exact Hnth.
  - destruct Hv as [Hin | Hnot].
    + exfalso. now apply (get_loc_None_inv idx v Hp).
    + unfold replace_with. now rewrite (get_loc_None l v Hnot).
Qed.

Lemma renumber_row_with_back (idx l : list Z) (ex : bool) (i : nat) (k : Z)
    (r : zrow) :
  NoDup l -> List.length l = List.length idx ->
  (forall v, In v (replaced_refs ex i [(k, r)]) -> In v idx \/ ~ In v l) ->
  renumber_row_with l idx ex i (renumber_row_with idx l ex i r) = r.
Proof.
  intros Hnd Hlen Hv.
  assert (Hback : forall v, In v (replaced_refs ex i [(k, r)]) ->
                    replace_with l idx (replace_with idx l v) = v).
  { intros v Hin. apply replace_with_back; auto. }
  unfold renumber_row_with. cbn [replaced_refs app] in Hback.
  rewrite app_nil_r in Hback.
  destruct r as [at0 b0 bd0 a0 an0 d0 di0].
  destruct ex; [destruct i as [| [| [| i]]] |];
    cbn [set_b set_a set_d b a d atom bond angle dihedral] in *;
    try reflexivity;
    repeat match goal with
           | |- context [replace_with l idx (replace_with idx l ?v)] =>
               rewrite (Hback v) by (cbn; tauto)
           end; reflexivity.
Qed.

Lemma renumber_rows_back (idx l : list Z) (ex : bool) (i : nat) (fr : Frame)
    (labels : list Z) :
  NoDup l -> List.length l = List.length idx ->
  List.length labels = List.length fr ->
  (forall v, In v (replaced_refs ex i fr) -> In v idx \/ ~ In v l) ->
  renumber_rows l idx ex i (combine labels (renumber_rows idx l ex i fr))
  = map snd fr.
Proof.
  intros Hnd Hlen. revert i labels.
  induction fr as [| [k r] fr IH]; intros i labels Hlab Hv.
  - destruct labels; reflexivity.
  - destruct labels as [| k' labels]; [discriminate |].
    cbn [renumber_rows combine map snd].
    rewrite (renumber_row_with_back idx l ex i k r Hnd Hlen).
    + f_equal. apply IH; [cbn in Hlab; lia |].
      intros v Hin. apply Hv. cbn [replaced_refs]. apply in_or_app. now right.
    + intros v Hin. apply Hv. cbn [replaced_refs] in *.
      rewrite app_nil_r in Hin. apply in_or_app. now left.
Qed.

(** X3.  Renumbering and numbering back.  For a ZMatrix with distinct
    labels and a new index of distinct labels of the right length:
    if every reference that the replacement reaches is a label of the
    ZMatrix or is no label of the new index, then renumbering to the new
    index and back to the old one returns the original ZMatrix. *)
Theorem change_numbering_round_trip (l : list Z) (ex : bool) (self : Zmat) :
  NoDup l ->
  List.length l = List.length (_frame self) ->
  (forall v, In v (replaced_refs ex 0 (_frame self)) ->
     In v (index (_frame self)) \/ ~ In v l) ->
  exists out,
    change_numbering_with (Some l) ex self = Return out /\
    index (_frame out) = l /\
    change_numbering_with (Some (index (_frame self))) ex out = Return self.
Proof.
  intros Hnd Hlen Hv.
  set (idx := index (_frame self)).
  set (rows := renumber_rows idx l ex 0 (_frame self)).
  assert (Hrows : List.length l = List.length rows)
    by (unfold rows; now rewrite renumber_rows_length).
  exists {| _frame := combine l rows; _metadata := _metadata self |}.
  split; [| split].
  - unfold change_numbering_with.
    now rewrite (proj2 (Nat.eqb_eq _ _) Hlen).
  - cbn [_frame]. now apply index_combine.
  - unfold change_numbering_with. cbn [_frame _metadata].
    rewrite (index_combine l rows Hrows).
    rewrite length_combine, <- Hrows, Nat.min_id.
    unfold idx at 1. rewrite index_length, Hlen, Nat.eqb_refl. cbn [negb].
    unfold rows.
    rewrite (renumber_rows_back idx l ex 0 (_frame self) l Hnd);
      [| unfold idx; now rewrite index_length | exact Hlen | exact Hv].
    unfold idx. rewrite combine_fst_snd. now destruct self.
Qed.

(** *** The numbering of the conversion *)

Lemma replace_label_range (n : nat) (v : Z) :
  replace_label (range_index n) v = v.
Proof.
  unfold replace_label.
  destruct (get_loc (range_index n) v) as [p |] eqn:Hp; [| reflexivity].
  destruct (get_loc_nth _ v 0%Z p Hp) as [Hlt Hnth].
  rewrite range_index_length in Hlt.
  now rewrite (range_index_nth n p 0%Z Hlt) in Hnth.
Qed.

Lemma renumber_row_range (n i : nat) (r : zrow) :
  renumber_row (range_index n) i r = r.
Proof.
  unfold renumber_row. rewrite !replace_label_range.
  destruct r. destruct i as [| [| [| i]]]; reflexivity.
Qed.

Lemma index_renumber_from (idx : list Z) (i : nat) (fr : Frame) :
  index (renumber_from idx i fr) = map Z.of_nat (seq i (List.length fr)).
Proof.
  unfold index. revert i. induction fr as [| [k r] fr IH]; intros i; cbn;
    [reflexivity |].
  now rewrite IH.
Qed.

Lemma renumber_from_range (idx : list Z) (n i : nat) (fr : Frame) :
  renumber_from (range_index n) i (renumber_from idx i fr)
  = renumber_from idx i fr.
Proof.
  revert i. induction fr as [| [k r] fr IH]; intros i;
    cbn [renumber_from]; [reflexivity |].
  now rewrite renumber_row_range, IH.
Qed.

(** X4.  The renumbering that the conversion applies is idempotent: a
    ZMatrix numbered 0 .. n-1 by [change_numbering()] is left as it is by
    a second call. *)
Theorem change_numbering_idempotent (self : Zmat) :
  change_numbering (change_numbering self) = change_numbering self.
Proof.
  unfold change_numbering. cbn [_frame _metadata]. f_equal.
  rewrite index_renumber_from.
  apply (renumber_from_range _ (List.length (_frame self))).
Qed.

End RenumberingFacts.

(** ** Renumbering and conversion *)

Section RenumberedConversion.
Context {N : Numeric} {H : Helpers}.











End RenumberedConversion.

(** * Runs in the model over the reals *)

Import RealModel.

Local Open Scope R_scope.

(** ** Tolerances *)

Lemma isclose_true (x y : R) :
  Rabs (x - y) <= 1 / 100000000 + 1 / 100000 * Rabs y -> isclose x y = true.
Proof.
  intros Hle. unfold isclose, Rle_bool.
  destruct (Rle_dec _ _); [reflexivity | contradiction].
Qed.

Lemma isclose_false (x y : R) :
  1 / 100000000 + 1 / 100000 * Rabs y < Rabs (x - y) -> isclose x y = false.
Proof.
  intros Hlt. unfold isclose, Rle_bool.
  destruct (Rle_dec _ _); [lra | reflexivity].
Qed.

Lemma isclose_true_inv (x : R) :
  isclose x 0 = true -> Rabs x <= 1 / 100000000.
Proof.
  unfold isclose, Rle_bool. rewrite Rminus_0_r, Rabs_R0.
  destruct (Rle_dec _ _); [lra | discriminate].
Qed.

Lemma PI_bounds : 3 < PI <= 4.
Proof. pose proof PI2_3_2. pose proof PI_4. lra. Qed.

Lemma isclose_same (x y : R) : x = y -> isclose x y = true.
Proof.
  intros ->. apply isclose_true.
  rewrite Rminus_diag, Rabs_R0. pose proof (Rabs_pos y). lra.
Qed.

Lemma isclose_zero_far (x : R) : 1 / 2 <= Rabs x -> isclose x 0 = false.
Proof.
  intros Hx. apply isclose_false. rewrite Rminus_0_r, Rabs_R0. lra.
Qed.

Lemma angle_180_pi : isclose (180 * (PI / 180)) PI = true.
Proof. apply isclose_same. field. Qed.

Lemma angle_0_not_pi : isclose (0 * (PI / 180)) PI = false.
Proof.
  apply isclose_false. pose proof PI_bounds.
  replace (0 * (PI / 180) - PI) with (- PI) by field.
  rewrite Rabs_Ropp, !Rabs_right by lra. lra.
Qed.

Lemma angle_0_zero : isclose (0 * (PI / 180)) 0 = true.
Proof. apply isclose_same. field. Qed.

Lemma angle_90_not_pi : isclose (90 * (PI / 180)) PI = false.
Proof.
  apply isclose_false. pose proof PI_bounds.
  replace (90 * (PI / 180) - PI) with (- (PI / 2)) by field.
  rewrite Rabs_Ropp, !Rabs_right by lra. lra.
Qed.

Lemma angle_90_not_zero : isclose (90 * (PI / 180)) 0 = false.
Proof.
  apply isclose_zero_far. pose proof PI_bounds.
  rewrite Rabs_right by lra. lra.
Qed.

(** The tolerance tells 0 from pi. *)
Lemma isclose_separates (x : R) :
  isclose x 0 = true -> isclose x PI = false.
Proof.
  intros Hx. apply isclose_true_inv in Hx. apply isclose_false.
  pose proof PI_bounds.
  rewrite (Rabs_right PI) by lra.
  assert (Hlow : PI - Rabs x <= Rabs (x - PI)).
  { rewrite <- (Rabs_right PI) at 1 by lra. rewrite (Rabs_minus_sym x PI).
    apply Rabs_triang_inv. }
  lra.
Qed.

(** ** Vectors over the reals *)

Ltac unfold_vec :=
  cbv [vdot vsub vadd smul vopp sdiv np_cross np_dot np_linalg_norm zeros3
       fadd fsub fmul fdiv fopp fsqrt fzero fone RNumeric].

Lemma pair_eq {A B} (x x' : A) (y y' : B) : x = x' -> y = y' -> (x, y) = (x', y').
Proof. now intros -> ->. Qed.

Ltac vec_eq :=
  unfold_vec; repeat apply pair_eq; first [lra | field; lra | field].


Lemma allclose_zero_m (x y z : R) :
  1 / 2 <= Rabs y -> jit_allclose (x, y, z) zeros3 = false.
Proof.
  intros Hy. cbv [jit_allclose zeros3 fzero RNumeric _jit_isclose RHelpers].
  rewrite (isclose_zero_far y Hy). now destruct (isclose x 0).
Qed.

Lemma allclose_zero_r (x y z : R) :
  1 / 2 <= Rabs z -> jit_allclose (x, y, z) zeros3 = false.
Proof.
  intros Hz. cbv [jit_allclose zeros3 fzero RNumeric _jit_isclose RHelpers].
  rewrite (isclose_zero_far z Hz).
  now destruct (isclose x 0), (isclose y 0).
Qed.

Lemma allclose_zero (x y z : R) :
  x = 0 -> y = 0 -> z = 0 -> jit_allclose (x, y, z) zeros3 = true.
Proof.
  intros -> -> ->.
  cbv [jit_allclose zeros3 fzero RNumeric _jit_isclose RHelpers].
  now rewrite (isclose_same 0 0 eq_refl).
Qed.

Lemma normalize_unit (v : vec) : vdot v v = 1 -> normalize v = v.
Proof.
  intros Hv. unfold normalize, np_linalg_norm.
  change (@fsqrt RNumeric) with sqrt. rewrite Hv, sqrt_1.
  destruct v as [[x y] z]. vec_eq.
Qed.

(** ** A placement at the angle pi *)

(** The references (0,0,0), (0,0,1), (1,0,0) and the values bond 1,
    angle pi, dihedral 0. *)
Lemma collinear_placement_witness :
  nth 0 [(1, PI, 0)] (0, 0, 0) = (1, PI, 0) /\
  jit_allclose (vsub (0, 0, 1) (0, 0, 0)) zeros3 = false /\
  _jit_calc_single_position ((0, 0, 0), (0, 0, 1), (1, 0, 0)) [(1, PI, 0)] 0
  = (ERR_CODE_OK,
     vsub (0, 0, 0) (smul 1 (_jit_normalize (vsub (0, 0, 1) (0, 0, 0))))).
Proof.
  assert (Hsub : forall x s y : R, x + s * - y = x - s * y)
    by (intros; ring).
  assert (HBA : jit_allclose (vsub (0, 0, 1) (0, 0, 0)) zeros3 = false).
  { unfold_vec. apply allclose_zero_r. rewrite Rabs_right; lra. }
  split; [reflexivity |]. split; [exact HBA |].
  apply (collinear_placement (N := RNumeric) (H := RHelpers) Hsub
           isclose_separates (0, 0, 0) (0, 0, 1) (1, 0, 0) 1 PI 0
           [(1, PI, 0)] 0%nat eq_refl HBA).
  apply isclose_same. reflexivity.
Defined.

(** ** One placement over the reals *)

Lemma allclose_unit (v : vec) : vdot v v = 1 -> jit_allclose v zeros3 = false.
Proof.
  destruct v as [[x y] z].
  cbv [jit_allclose zeros3 fzero RNumeric _jit_isclose RHelpers vdot fadd fmul].
  intros Hv.
  destruct (isclose x 0) eqn:Hx; [| reflexivity].
  destruct (isclose y 0) eqn:Hy; [| reflexivity].
  destruct (isclose z 0) eqn:Hz; [| reflexivity].
  apply isclose_true_inv in Hx, Hy, Hz. exfalso.
  assert (Hsq : forall t, Rabs t <= 1 / 100000000 -> t * t <= 1 / 100).
  { intros t Ht. unfold Rabs in Ht. destruct (Rcase_abs t); nra. }
  pose proof (Hsq x Hx). pose proof (Hsq y Hy). pose proof (Hsq z Hz). lra.
Qed.

Lemma place_pi (vb va vd : vec) (vals : list (R * R * R)) (row : nat)
    (bond ang dih : R) (p : vec) :
  nth row vals (0, 0, 0) = (bond, ang, dih) ->
  isclose ang PI = true ->
  vdot (vsub va vb) (vsub va vb) = 1 ->
  p = vadd vb (smul bond (vopp (vsub va vb))) ->
  _jit_calc_single_position (vb, va, vd) vals row = (ERR_CODE_OK, p).
Proof.
  intros Hrow Hang Hunit ->.
  rewrite (single_position_at_pi vb va vd bond ang dih vals row Hrow
             (allclose_unit _ Hunit) Hang).
  change (@_jit_normalize RNumeric RHelpers) with normalize.
  now rewrite (normalize_unit _ Hunit).
Qed.

Lemma place_zero (vb va vd : vec) (vals : list (R * R * R)) (row : nat)
    (bond ang dih : R) (p : vec) :
  nth row vals (0, 0, 0) = (bond, ang, dih) ->
  isclose ang PI = false ->
  isclose ang 0 = true ->
  vdot (vsub va vb) (vsub va vb) = 1 ->
  p = vadd vb (smul bond (vsub va vb)) ->
  _jit_calc_single_position (vb, va, vd) vals row = (ERR_CODE_OK, p).
Proof.
  intros Hrow Hpi Hz Hunit ->.
  rewrite (single_position_at_zero vb va vd bond ang dih vals row Hrow
             (allclose_unit _ Hunit) Hpi Hz).
  change (@_jit_normalize RNumeric RHelpers) with normalize.
  now rewrite (normalize_unit _ Hunit).
Qed.

Lemma place_coincident (v vd : vec) (vals : list (R * R * R)) (row : nat) :
  _jit_calc_single_position (v, v, vd) vals row
  = (ERR_CODE_InvalidReference, zeros3).
Proof.
  apply single_position_BA_zero. destruct v as [[x y] z].
  unfold_vec. apply allclose_zero; ring.
Qed.

Lemma place_collinear (vb va vd : vec) (vals : list (R * R * R)) (row : nat)
    (bond ang dih : R) :
  nth row vals (0, 0, 0) = (bond, ang, dih) ->
  isclose ang PI = false ->
  isclose ang 0 = false ->
  vdot (vsub va vb) (vsub va vb) = 1 ->
  np_cross (vsub va vb) (vsub vd va) = (0, 0, 0) ->
  _jit_calc_single_position (vb, va, vd) vals row
  = (ERR_CODE_InvalidReference, zeros3).
Proof.
  intros Hrow Hpi Hz Hunit Hcross.
  apply (single_position_N1_zero vb va vd bond ang dih vals row Hrow
           (allclose_unit _ Hunit) Hpi Hz).
  change (@_jit_cross RNumeric RHelpers) with (@np_cross RNumeric).
  rewrite Hcross. apply allclose_zero; reflexivity.
Qed.

(** ** The general branch at a right angle *)

Lemma rotation_zero (axis : vec) :
  rotation_matrix axis (0 * (PI / 180)) = ((1, 0, 0), (0, 1, 0), (0, 0, 1)).
Proof.
  unfold rotation_matrix. destruct (normalize axis) as [[x y] z].
  replace (0 * (PI / 180) / 2) with 0 by field.
  rewrite cos_0, sin_0. repeat apply pair_eq; cbv [F RNumeric]; ring.
Qed.

Lemma rotation_quarter (x y z : R) :
  x * x + y * y + z * z = 1 ->
  rotation_matrix (x, y, z) (90 * (PI / 180))
  = (((1 + x * x - y * y - z * z) / 2, x * y - z, x * z + y),
     (x * y + z, (1 + y * y - x * x - z * z) / 2, y * z - x),
     (x * z - y, y * z + x, (1 + z * z - x * x - y * y) / 2)).
Proof.
  intros Hunit. unfold rotation_matrix.
  rewrite (normalize_unit (x, y, z) Hunit).
  replace (90 * (PI / 180) / 2) with (PI / 4) by (field; apply PI_neq0).
  rewrite cos_PI4, sin_PI4.
  assert (Hr : 1 / sqrt 2 * (1 / sqrt 2) = 1 / 2).
  { replace (1 / sqrt 2 * (1 / sqrt 2)) with (1 / (sqrt 2 * sqrt 2))
      by (field; exact sqrt2_neq_0).
    rewrite sqrt_def by lra. reflexivity. }
  set (r := 1 / sqrt 2) in *. clearbody r.
  assert (Hm : forall m : R, m * (r * r) = m / 2)
    by (intros m; rewrite Hr; field).
  pose proof (Hm (x * x)). pose proof (Hm (y * y)). pose proof (Hm (z * z)).
  pose proof (Hm (x * y)). pose proof (Hm (x * z)). pose proof (Hm (y * z)).
  pose proof (Hm x). pose proof (Hm y). pose proof (Hm z).
  repeat apply pair_eq; cbv [F RNumeric]; nra.
Qed.

Lemma np_dot_identity (v : vec) :
  np_dot ((1, 0, 0), (0, 1, 0), (0, 0, 1)) v = v.
Proof.
  destruct v as [[v1 v2] v3]. cbv [np_dot vdot fadd fmul RNumeric F] in *.
  repeat apply pair_eq; cbv [F RNumeric]; ring.
Qed.

(** The placement at 90 degrees and dihedral 0, for references at unit
    distance whose normal N1 is a unit vector. *)
Lemma place_quarter (vb va vd : vec) (vals : list (R * R * R)) (row : nat)
    (bond : R) (x y z : R) (p : vec) :
  nth row vals (0, 0, 0) = (bond, 90 * (PI / 180), 0 * (PI / 180)) ->
  vdot (vsub va vb) (vsub va vb) = 1 ->
  np_cross (vsub va vb) (vsub vd va) = (x, y, z) ->
  x * x + y * y + z * z = 1 ->
  p = vadd vb
        (np_dot
           (((1 + x * x - y * y - z * z) / 2, x * y - z, x * z + y),
            (x * y + z, (1 + y * y - x * x - z * z) / 2, y * z - x),
            (x * z - y, y * z + x, (1 + z * z - x * x - y * y) / 2))
           (smul bond (vsub va vb))) ->
  _jit_calc_single_position (vb, va, vd) vals row = (ERR_CODE_OK, p).
Proof.
  intros Hrow Hunit Hcross Hn ->.
  assert (HN1 : jit_allclose (_jit_cross (vsub va vb) (vsub vd va)) zeros3
                = false).
  { change (@_jit_cross RNumeric RHelpers) with (@np_cross RNumeric).
    rewrite Hcross. exact (allclose_unit (x, y, z) Hn). }
  rewrite (single_position_general (N := RNumeric) (H := RHelpers)
             vb va vd bond (90 * (PI / 180))
             (0 * (PI / 180)) vals row Hrow (allclose_unit _ Hunit)
             angle_90_not_pi angle_90_not_zero HN1).
  change (@_jit_cross RNumeric RHelpers) with (@np_cross RNumeric).
  change (@_jit_normalize RNumeric RHelpers) with normalize.
  change (@_jit_get_rotation_matrix RNumeric RHelpers) with rotation_matrix.
  rewrite Hcross.
  rewrite (normalize_unit _ Hunit), (normalize_unit (x, y, z) Hn).
  rewrite rotation_zero, (rotation_quarter x y z Hn).
  now rewrite np_dot_identity.
Qed.

(** ** References over the reals *)

Lemma ref_sentinel (positions : list vec) (j : Z) :
  (j <? abs_refs_bound)%Z = true ->
  ref_position positions j = absolute_refs j.
Proof.
  intros Hj. unfold ref_position.
  change (@keys_below_are_abs_refs RNumeric RHelpers) with abs_refs_bound.
  now rewrite Hj.
Qed.

Lemma ref_placed (n : nat) (placed : list vec) (k i : nat) :
  (i < k)%nat -> (k <= List.length placed)%nat -> (k <= n)%nat ->
  ref_position (array_at n placed k) (Z.of_nat i) = nth i placed zeros3.
Proof.
  intros Hi Hk Hn. unfold ref_position.
  change (@keys_below_are_abs_refs RNumeric RHelpers) with abs_refs_bound.
  destruct (Z.ltb_spec (Z.of_nat i) abs_refs_bound) as [Hlt | _].
  { unfold abs_refs_bound in Hlt. lia. }
  unfold positions_get. rewrite array_at_length by lia.
  destruct (Z.ltb_spec (Z.of_nat i) 0); [lia |].
  destruct (Z.leb_spec 0 (Z.of_nat i)); [| lia].
  destruct (Z.ltb_spec (Z.of_nat i) (Z.of_nat n)); [| lia].
  cbn [andb]. rewrite Nat2Z.id.
  rewrite nth_indep with (d' := zeros3) by (rewrite array_at_length; lia).
  rewrite array_at_nth by lia.
  destruct (Nat.ltb_spec i k); [reflexivity | lia].
Qed.

Lemma abs_origin : absolute_refs origin_id = (0, 0, 0).
Proof. reflexivity. Qed.
Lemma abs_e_x : absolute_refs e_x_id = (1, 0, 0).
Proof. reflexivity. Qed.
Lemma abs_e_y : absolute_refs e_y_id = (0, 1, 0).
Proof. reflexivity. Qed.
Lemma abs_e_z : absolute_refs e_z_id = (0, 0, 1).
Proof. reflexivity. Qed.

Lemma ref_placed_at (n : nat) (placed : list vec) (k : nat) (j : Z) (i : nat) :
  j = Z.of_nat i ->
  (i < k)%nat -> (k <= List.length placed)%nat -> (k <= n)%nat ->
  ref_position (array_at n placed k) j = nth i placed zeros3.
Proof. intros ->. apply ref_placed. Qed.

(** Rewrites the three references of a row: sentinels to their fixed
    points, positions of earlier rows to the placed positions. *)
Ltac resolve_refs :=
  unfold ref_positions;
  repeat first
    [ rewrite (ref_sentinel _ origin_id eq_refl), abs_origin
    | rewrite (ref_sentinel _ e_x_id eq_refl), abs_e_x
    | rewrite (ref_sentinel _ e_y_id eq_refl), abs_e_y
    | rewrite (ref_sentinel _ e_z_id eq_refl), abs_e_z
    | rewrite (ref_placed_at _ _ _ 0%Z 0 eq_refl) by (cbn; lia)
    | rewrite (ref_placed_at _ _ _ 1%Z 1 eq_refl) by (cbn; lia)
    | rewrite (ref_placed_at _ _ _ 2%Z 2 eq_refl) by (cbn; lia)
    | rewrite (ref_placed_at _ _ _ 3%Z 3 eq_refl) by (cbn; lia)
    | rewrite (ref_placed_at _ _ _ 4%Z 4 eq_refl) by (cbn; lia) ];
  cbn [nth].

(** ** The linear molecule *)

Lemma c_table_lin (ang4 dih4 : R) (md : Metadata) :
  jit_c_table {| _frame := frame_lin ang4 dih4; _metadata := md |}
  = [ (origin_id, e_z_id, e_x_id); (0%Z, origin_id, e_x_id);
      (1%Z, 0%Z, e_x_id); (2%Z, 1%Z, 0%Z) ].
Proof. reflexivity. Qed.

Lemma zmat_values_lin (ang4 dih4 : R) (md : Metadata) :
  jit_zmat_values {| _frame := frame_lin ang4 dih4; _metadata := md |}
  = [ (1, 180 * (PI / 180), 0 * (PI / 180));
      (1, 180 * (PI / 180), 0 * (PI / 180));
      (1, 180 * (PI / 180), 0 * (PI / 180));
      (1, ang4 * (PI / 180), dih4 * (PI / 180)) ].
Proof. reflexivity. Qed.

Lemma placed_before_lin (ang4 dih4 : R) (md : Metadata) (placed : list vec) :
  firstn 3 placed = firstn 3 placed_lin ->
  placed_before
    (jit_c_table {| _frame := frame_lin ang4 dih4; _metadata := md |})
    (jit_zmat_values {| _frame := frame_lin ang4 dih4; _metadata := md |})
    placed 3.
Proof.
  intros Hfirst j Hj. rewrite c_table_lin, zmat_values_lin.
  destruct placed as [| p0 [| p1 [| p2 rest]]]; try discriminate.
  cbn in Hfirst. inversion Hfirst; subst. clear Hfirst.
  unfold placement_at. cbn [List.length].
  destruct j as [| [| [| j]]]; [| | | lia]; cbn [nth].
  - resolve_refs.
    apply (place_pi _ _ _ _ _ 1 (180 * (PI / 180)) (0 * (PI / 180)));
      [reflexivity | apply angle_180_pi | vec_eq | vec_eq].
  - resolve_refs.
    apply (place_pi _ _ _ _ _ 1 (180 * (PI / 180)) (0 * (PI / 180)));
      [reflexivity | apply angle_180_pi | vec_eq | vec_eq].
  - resolve_refs.
    apply (place_pi _ _ _ _ _ 1 (180 * (PI / 180)) (0 * (PI / 180)));
      [reflexivity | apply angle_180_pi | vec_eq | vec_eq].
Qed.

Ltac nodup_labels :=
  cbn; repeat constructor; cbn; intuition (try discriminate; lia).

Lemma placed_before_lin_all (dih4 : R) (md : Metadata) :
  placed_before
    (jit_c_table {| _frame := frame_lin 180 dih4; _metadata := md |})
    (jit_zmat_values {| _frame := frame_lin 180 dih4; _metadata := md |})
    placed_lin 4.
Proof.
  intros j Hj. destruct (Nat.eq_dec j 3) as [-> | Hne].
  - rewrite c_table_lin, zmat_values_lin.
    unfold placement_at, placed_lin. cbn [List.length nth]. resolve_refs.
    apply (place_pi _ _ _ _ _ 1 (180 * (PI / 180)) (dih4 * (PI / 180)));
      [reflexivity | apply angle_180_pi | vec_eq | vec_eq].
  - apply (placed_before_lin 180 dih4 md placed_lin); [reflexivity | lia].
Qed.

Lemma get_cartesian_lin (dih4 : R) : get_cartesian (z_lin dih4) = Return cart_lin.
Proof.
  change cart_lin with (cartesian_of (z_lin dih4) placed_lin).
  apply get_cartesian_ok.
  - nodup_labels.
  - reflexivity.
  - apply placed_before_lin_all.
Qed.

Lemma get_cartesian_col : get_cartesian z_col = Raise (InvalidReference e_col).
Proof.
  apply (get_cartesian_fail z_col 3 4 (mkrow "H" 3 1 2 90 1 0)
           (firstn 3 placed_lin)).
  - nodup_labels.
  - reflexivity.
  - reflexivity.
  - apply placed_before_lin. reflexivity.
  - unfold z_col. rewrite c_table_lin, zmat_values_lin.
    unfold placement_at, placed_lin. cbn [List.length nth firstn].
    resolve_refs.
    rewrite (place_collinear _ _ _ _ _ 1 (90 * (PI / 180)) (0 * (PI / 180)));
      [reflexivity | reflexivity | apply angle_90_not_pi
       | apply angle_90_not_zero | vec_eq | vec_eq].
Qed.

(** ** The molecule with two coinciding atoms *)

Lemma c_table_sing (md : Metadata) :
  jit_c_table {| _frame := frame_sing; _metadata := md |}
  = [ (origin_id, e_z_id, e_x_id); (0%Z, origin_id, e_x_id);
      (origin_id, e_z_id, e_x_id); (2%Z, 1%Z, 0%Z) ].
Proof. reflexivity. Qed.

Lemma zmat_values_sing (md : Metadata) :
  jit_zmat_values {| _frame := frame_sing; _metadata := md |}
  = [ (1, 180 * (PI / 180), 0 * (PI / 180));
      (1, 180 * (PI / 180), 0 * (PI / 180));
      (2, 180 * (PI / 180), 0 * (PI / 180));
      (1, 90 * (PI / 180), 0 * (PI / 180)) ].
Proof. reflexivity. Qed.

Lemma placed_before_sing :
  placed_before (jit_c_table z_sing) (jit_zmat_values z_sing) placed_sing 3.
Proof.
  intros j Hj. unfold z_sing. rewrite c_table_sing, zmat_values_sing.
  unfold placement_at, placed_sing. cbn [List.length].
  destruct j as [| [| [| j]]]; [| | | lia]; cbn [nth]; resolve_refs.
  - apply (place_pi _ _ _ _ _ 1 (180 * (PI / 180)) (0 * (PI / 180)));
      [reflexivity | apply angle_180_pi | vec_eq | vec_eq].
  - apply (place_pi _ _ _ _ _ 1 (180 * (PI / 180)) (0 * (PI / 180)));
      [reflexivity | apply angle_180_pi | vec_eq | vec_eq].
  - apply (place_pi _ _ _ _ _ 2 (180 * (PI / 180)) (0 * (PI / 180)));
      [reflexivity | apply angle_180_pi | vec_eq | vec_eq].
Qed.

Lemma placement_sing_fails :
  fst (placement_at (jit_c_table z_sing) (jit_zmat_values z_sing) placed_sing 3)
  = ERR_CODE_InvalidReference.
Proof.
  unfold z_sing. rewrite c_table_sing, zmat_values_sing.
  unfold placement_at, placed_sing. cbn [List.length nth]. resolve_refs.
  now rewrite place_coincident.
Qed.

Lemma NoDup_sing : NoDup (index (_frame z_sing)).
Proof. nodup_labels. Qed.

Lemma get_cartesian_sing : get_cartesian z_sing = Raise (InvalidReference e_sing).
Proof.
  apply (get_cartesian_fail z_sing 3 4 (mkrow "H" 3 1 2 90 1 0) placed_sing).
  - exact NoDup_sing.
  - reflexivity.
  - reflexivity.
  - exact placed_before_sing.
  - exact placement_sing_fails.
Qed.

(** *** After the insertion of a dummy *)

Lemma c_table_sing_dummy (v : R * R * R) (d4 : Z) (md : Metadata) :
  d4 = 5%Z \/ d4 = 1%Z ->
  exists jd,
    jit_c_table {| _frame := frame_sing_dummy v d4; _metadata := md |}
    = [ (origin_id, e_z_id, e_x_id); (0%Z, origin_id, e_x_id);
        (origin_id, e_z_id, e_x_id); (origin_id, e_z_id, e_x_id);
        (2%Z, 1%Z, jd) ].
Proof. intros [-> | ->]; eexists; reflexivity. Qed.

Lemma zmat_values_sing_dummy (v : R * R * R) (d4 : Z) (md : Metadata) :
  jit_zmat_values {| _frame := frame_sing_dummy v d4; _metadata := md |}
  = [ (1, 180 * (PI / 180), 0 * (PI / 180));
      (1, 180 * (PI / 180), 0 * (PI / 180));
      (2, 180 * (PI / 180), 0 * (PI / 180));
      (fst (fst v), snd (fst v) * (PI / 180), snd v * (PI / 180));
      (1, 90 * (PI / 180), 0 * (PI / 180)) ].
Proof. reflexivity. Qed.

(** A row whose references are the origin, e_z and e_x is placed whatever
    its values are. *)
Lemma frame_row_placed (vals : list (R * R * R)) (row : nat) :
  exists pos,
    _jit_calc_single_position ((0, 0, 0), (0, 0, 1), (1, 0, 0)) vals row
    = (ERR_CODE_OK, pos).
Proof.
  apply single_position_ok_exists.
  - apply allclose_unit. unfold_vec. lra.
  - change (@_jit_cross RNumeric RHelpers) with (@np_cross RNumeric).
    apply allclose_unit. unfold_vec. lra.
Qed.

Lemma get_cartesian_sing_dummy (v : R * R * R) (d4 : Z) :
  d4 = 5%Z \/ d4 = 1%Z ->
  exists pd,
    get_cartesian (z_sing_dummy v d4)
    = Raise (InvalidReference
               {| exc_index := 4; exc_b := 3; exc_a := 2; exc_d := d4;
                  already_built_cartesian :=
                    cartesian_of (z_sing_dummy v d4) (placed_sing ++ [pd]) |}).
Proof.
  intros Hd.
  destruct (c_table_sing_dummy v d4 (_metadata (z_sing_dummy v d4)) Hd)
    as [jd Hc].
  destruct (frame_row_placed
              (jit_zmat_values (z_sing_dummy v d4)) 3) as [pd Hpd].
  exists pd.
  apply (get_cartesian_fail (z_sing_dummy v d4) 4 4
           (mkrow "H" 3 1 2 90 d4 0) (placed_sing ++ [pd])).
  - nodup_labels.
  - reflexivity.
  - reflexivity.
  - intros j Hj. unfold placement_at.
    change (jit_c_table (z_sing_dummy v d4))
      with (jit_c_table {| _frame := frame_sing_dummy v d4;
                           _metadata := _metadata (z_sing_dummy v d4) |}).
    rewrite Hc. unfold placed_sing. cbn [List.length app].
    destruct j as [| [| [| [| j]]]]; [| | | | lia]; cbn [nth]; resolve_refs.
    + apply (place_pi _ _ _ _ _ 1 (180 * (PI / 180)) (0 * (PI / 180)));
        [reflexivity | apply angle_180_pi | vec_eq | vec_eq].
    + apply (place_pi _ _ _ _ _ 1 (180 * (PI / 180)) (0 * (PI / 180)));
        [reflexivity | apply angle_180_pi | vec_eq | vec_eq].
    + apply (place_pi _ _ _ _ _ 2 (180 * (PI / 180)) (0 * (PI / 180)));
        [reflexivity | apply angle_180_pi | vec_eq | vec_eq].
    + exact Hpd.
  - unfold placement_at.
    change (jit_c_table (z_sing_dummy v d4))
      with (jit_c_table {| _frame := frame_sing_dummy v d4;
                           _metadata := _metadata (z_sing_dummy v d4) |}).
    rewrite Hc. unfold placed_sing. cbn [List.length app nth]. resolve_refs.
    now rewrite place_coincident.
Qed.

(** *** The two rounds of the recovery *)

Lemma insert_dummy_cart_sing :
  _insert_dummy_cart z_sing e_sing = Return (dummy_cart_sing, 5%Z).
Proof. reflexivity. Qed.

Lemma toggle_sing :
  toggle_dummy e_sing z_sing
  = (z_sing_dummy dummy_values_sing 5, [DummyInserted 4 5], Return tt).
Proof.
  rewrite (toggle_dummy_insert e_sing z_sing dummy_cart_sing 5 eq_refl
             insert_dummy_cart_sing).
  rewrite (zmat_insert_dummy_run z_sing 4 5 dummy_cart_sing
             (firstn 3 frame_sing) [] (mkrow "H" 3 1 2 90 1 0)
             (mkrow "C" origin_id 1 e_z_id 180 e_x_id 0)
             dummy_values_sing []);
    try reflexivity.
  - cbn. intuition lia.
  - cbn. intuition lia.
Qed.

Lemma toggle_sing_again (v : R * R * R) (c : Cartesian) :
  exists e',
    toggle_dummy
      {| exc_index := 4; exc_b := 3; exc_a := 2; exc_d := 5;
         already_built_cartesian := c |}
      (z_sing_dummy v 5)
    = (z_sing_dummy v 1, [], Raise (InvalidReference e')) /\
    exc_index e' = 4%Z /\ exc_b e' = 3%Z /\ exc_a e' = 2%Z /\ exc_d e' = 1%Z.
Proof.
  destruct (get_cartesian_sing_dummy v 1 (or_intror eq_refl)) as [pd Hget].
  exists {| exc_index := 4; exc_b := 3; exc_a := 2; exc_d := 1;
            already_built_cartesian :=
              cartesian_of (z_sing_dummy v 1) (placed_sing ++ [pd]) |}.
  split; [| repeat split].
  rewrite toggle_dummy_remove by reflexivity.
  exact (remove_dummies_conversion_raises (z_sing_dummy v 5) 4
           (mkrow "H" 3 1 2 90 5 0) {| dummy_d := 5; actual_d := 1 |} _
           eq_refl eq_refl Hget).
Qed.

Lemma recovery_sing :
  exists e',
    (forall more : nat,
       _insert_dummy_zmat (2 + more) e_sing z_sing
       = (z_sing_dummy dummy_values_sing 1, [DummyInserted 4 5],
          Raise (InvalidReference e'))) /\
    exc_index e' = 4%Z /\ exc_b e' = 3%Z /\ exc_a e' = 2%Z /\ exc_d e' = 1%Z.
Proof.
  destruct (get_cartesian_sing_dummy dummy_values_sing 5 (or_introl eq_refl))
    as [pd Hget].
  destruct (toggle_sing_again dummy_values_sing
              (cartesian_of (z_sing_dummy dummy_values_sing 5)
                 (placed_sing ++ [pd])))
    as (e' & Htog & He').
  exists e'. split; [| exact He']. intros more.
  cbn [Nat.add]. rewrite insert_dummy_zmat_step, toggle_sing.
  cbv beta iota. rewrite Hget.
  rewrite insert_dummy_zmat_step, Htog. reflexivity.
Qed.

(** ** The molecule with a forward reference *)





(** ** The molecule placed against the frame only *)

Lemma NoDup_abs : NoDup (index (_frame z_abs)).
Proof. nodup_labels. Qed.

Lemma get_cartesian_abs : get_cartesian z_abs = Return cart_abs.
Proof.
  change cart_abs with (cartesian_of z_abs placed_abs).
  apply get_cartesian_ok; [exact NoDup_abs | reflexivity |].
  intros j Hj.
  change (jit_c_table z_abs)
    with [ (origin_id, e_z_id, e_x_id); (origin_id, e_z_id, e_x_id);
           (origin_id, e_x_id, e_y_id) ].
  change (jit_zmat_values z_abs)
    with [ (1, 180 * (PI / 180), 0 * (PI / 180));
           (2, 180 * (PI / 180), 0 * (PI / 180));
           (1, 180 * (PI / 180), 0 * (PI / 180)) ].
  unfold placement_at, placed_abs. cbn [List.length].
  destruct j as [| [| [| j]]]; [| | | cbn in Hj; lia]; cbn [nth];
    resolve_refs.
  - apply (place_pi _ _ _ _ _ 1 (180 * (PI / 180)) (0 * (PI / 180)));
      [reflexivity | apply angle_180_pi | vec_eq | vec_eq].
  - apply (place_pi _ _ _ _ _ 2 (180 * (PI / 180)) (0 * (PI / 180)));
      [reflexivity | apply angle_180_pi | vec_eq | vec_eq].
  - apply (place_pi _ _ _ _ _ 1 (180 * (PI / 180)) (0 * (PI / 180)));
      [reflexivity | apply angle_180_pi | vec_eq | vec_eq].
Qed.

Lemma labels_abs_not_sentinels :
  Forall (fun l => (abs_refs_bound <= l)%Z) (index (_frame z_abs)).
Proof.
  unfold z_abs, frame_abs, index. cbn [_frame map fst].
  repeat apply Forall_cons; try apply Forall_nil; unfold abs_refs_bound; lia.
Qed.

Lemma absolute_refs_cases (j : Z) :
  absolute_refs j = (1, 0, 0) \/ absolute_refs j = (0, 1, 0) \/
  absolute_refs j = (0, 0, 1) \/ absolute_refs j = (0, 0, 0).
Proof.
  unfold absolute_refs.
  destruct (j =? e_x_id)%Z; [now left |].
  destruct (j =? e_y_id)%Z; [now right; left |].
  destruct (j =? e_z_id)%Z; [now right; right; left | now right; right; right].
Qed.

(** ** The molecule with a removable dummy *)






(** ** The insertion of a dummy into the collinear molecule *)






(** ** The molecule whose atom moves when its dummy is taken back *)




Ltac place_at_quarter x y z :=
  apply (place_quarter _ _ _ _ _ 1 x y z);
  [reflexivity | vec_eq | vec_eq | lra | vec_eq].






(** ** The linear molecule with a dummy that is taken back *)

Lemma c_table_lin_dummy (v : R * R * R) (d4 : Z) (md : Metadata) :
  d4 = 5%Z \/ d4 = 1%Z ->
  exists jd,
    (jd = 3%Z \/ jd = 0%Z) /\
    jit_c_table {| _frame := frame_lin_dummy v d4; _metadata := md |}
    = [ (origin_id, e_z_id, e_x_id); (0%Z, origin_id, e_x_id);
        (1%Z, 0%Z, e_x_id); (origin_id, e_z_id, e_x_id);
        (2%Z, 1%Z, jd) ].
Proof.
  intros [-> | ->].
  - exists 3%Z. split; [now left | reflexivity].
  - exists 0%Z. split; [now right | reflexivity].
Qed.

Lemma get_cartesian_lin_dummy (v : R * R * R) (d4 : Z) (md : Metadata) :
  d4 = 5%Z \/ d4 = 1%Z ->
  exists pd,
    get_cartesian {| _frame := frame_lin_dummy v d4; _metadata := md |}
    = Return
        [ (1%Z, "C"%string, (0, 0, -1)); (2%Z, "C"%string, (0, 0, -2));
          (3%Z, "C"%string, (0, 0, -3)); (5%Z, "X"%string, pd);
          (4%Z, "H"%string, (0, 0, -4)) ].
Proof.
  intros Hd.
  set (z := {| _frame := frame_lin_dummy v d4; _metadata := md |}).
  destruct (c_table_lin_dummy v d4 md Hd) as (jd & Hjd & Hc). fold z in Hc.
  destruct (frame_row_placed (jit_zmat_values z) 3) as [pd Hpd].
  exists pd.
  change [ (1%Z, "C"%string, (0, 0, -1)); (2%Z, "C"%string, (0, 0, -2));
           (3%Z, "C"%string, (0, 0, -3)); (5%Z, "X"%string, pd);
           (4%Z, "H"%string, (0, 0, -4)) ]
    with (cartesian_of z (firstn 3 placed_lin ++ [pd; (0, 0, -4)])).
  apply (get_cartesian_ok z (firstn 3 placed_lin ++ [pd; (0, 0, -4)])).
  - nodup_labels.
  - reflexivity.
  - intros j Hj. unfold placement_at. rewrite Hc.
    unfold placed_lin. cbn [List.length app firstn].
    destruct j as [| [| [| [| [| j]]]]]; [| | | | | cbn in Hj; lia];
      cbn [nth].
    + resolve_refs.
      apply (place_pi _ _ _ _ _ 1 (180 * (PI / 180)) (0 * (PI / 180)));
        [reflexivity | apply angle_180_pi | vec_eq | vec_eq].
    + resolve_refs.
      apply (place_pi _ _ _ _ _ 1 (180 * (PI / 180)) (0 * (PI / 180)));
        [reflexivity | apply angle_180_pi | vec_eq | vec_eq].
    + resolve_refs.
      apply (place_pi _ _ _ _ _ 1 (180 * (PI / 180)) (0 * (PI / 180)));
        [reflexivity | apply angle_180_pi | vec_eq | vec_eq].
    + resolve_refs. exact Hpd.
    + destruct Hjd as [-> | ->]; resolve_refs;
        apply (place_pi _ _ _ _ _ 1 (180 * (PI / 180)) (0 * (PI / 180)));
        [reflexivity | apply angle_180_pi | vec_eq | vec_eq
         | reflexivity | apply angle_180_pi | vec_eq | vec_eq].
Qed.

Lemma toggle_lin_bent :
  toggle_dummy e_col z_lin_bent
  = (z_lin_dummy 5, [DummyInserted 4 5], Return tt).
Proof.
  assert (Hcart : _insert_dummy_cart z_lin_bent e_col
                  = Return (dummy_cart_col, 5%Z)) by reflexivity.
  rewrite (toggle_dummy_insert e_col z_lin_bent dummy_cart_col 5 eq_refl
             Hcart).
  rewrite (zmat_insert_dummy_run z_lin_bent 4 5 dummy_cart_col
             (firstn 3 (frame_lin 180 0)) [] (mkrow "H" 3 1 2 180 1 0)
             (mkrow "C" origin_id 1 e_z_id 180 e_x_id 0)
             dummy_values_col []);
    try reflexivity.
  - cbn. intuition lia.
  - cbn. intuition lia.
Qed.

Lemma toggle_lin_dummy :
  toggle_dummy e_col (z_lin_dummy 5)
  = (after_removal (z_lin_dummy 5) [4%Z] [values_lin4],
     [DummiesRemoved [4%Z]], Return tt).
Proof.
  destruct (get_cartesian_lin_dummy dummy_values_col 1
              (_metadata (z_lin_dummy 5)) (or_intror eq_refl))
    as [pd Hget].
  rewrite toggle_dummy_remove by reflexivity.
  apply (remove_dummies_run (z_lin_dummy 5) [4%Z]
           [ (1%Z, "C"%string, (0, 0, -1)); (2%Z, "C"%string, (0, 0, -2));
             (3%Z, "C"%string, (0, 0, -3)); (5%Z, "X"%string, pd);
             (4%Z, "H"%string, (0, 0, -4)) ]
           [values_lin4] ltac:(discriminate)).
  - intros k [<- | []]. split; cbn; tauto.
  - exact Hget.
  - reflexivity.
  - reflexivity.
  - intros x [<- | []]. cbn. tauto.
Qed.

(** ** The rotation matrix over the reals *)

(** The Euler-Rodrigues matrix of an axis whose normalised form is a unit
    vector preserves lengths. *)
Lemma rotation_isometry (axis : vec) (angle : R) (v : vec) :
  vdot (normalize axis) (normalize axis) = 1 ->
  vdot (np_dot (rotation_matrix axis angle) v)
       (np_dot (rotation_matrix axis angle) v)
  = vdot v v.
Proof.
  unfold rotation_matrix. destruct (normalize axis) as [[x y] z].
  destruct v as [[v1 v2] v3]. intros Hunit.
  pose proof (sin2_cos2 (angle / 2)) as Hsc. unfold Rsqr in Hsc.
  set (c := cos (angle / 2)) in *. set (s := sin (angle / 2)) in *.
  clearbody c s. unfold_vec. cbv [F RNumeric] in *.
  unfold vdot, fadd, fmul in Hunit. cbn in Hunit.
  assert (Hq : c * c + x * s * (x * s) + y * s * (y * s) + z * s * (z * s)
               = 1).
  { replace (c * c + x * s * (x * s) + y * s * (y * s) + z * s * (z * s))
      with (c * c + s * s * (x * x + y * y + z * z)) by ring.
    rewrite Hunit. lra. }
  set (qb := x * s) in *. set (qc := y * s) in *. set (qd := z * s) in *.
  clearbody qb qc qd.
  transitivity ((c * c + qb * qb + qc * qc + qd * qd)
                * (c * c + qb * qb + qc * qc + qd * qd)
                * (v1 * v1 + v2 * v2 + v3 * v3)); [ring |].
  rewrite Hq. ring.
Qed.

(** * The claims on concrete molecules *)

Lemma NoDup_lin (dih4 : R) : NoDup (index (_frame (z_lin dih4))).
Proof. nodup_labels. Qed.





Lemma get_cartesian_first_singularity_witness :
  NoDup (index (_frame z_sing)) /\
  (get_cartesian z_sing = Raise (InvalidReference e_sing) /\
   map (fun x => fst (fst x)) (already_built_cartesian e_sing)
   = [1; 2; 3]%Z /\
   map snd (already_built_cartesian e_sing) = placed_sing) /\
  NoDup (index (_frame (z_lin 0))) /\
  (get_cartesian (z_lin 0) = Return cart_lin /\
   map (fun x => fst (fst x)) cart_lin = [1; 2; 3; 4]%Z /\
   map snd cart_lin = placed_lin).
Proof.
  split; [exact NoDup_sing |]. split.
  - exact (proj1 (get_cartesian_first_singularity z_sing NoDup_sing)
             3%nat 4%Z (mkrow "H" 3 1 2 90 1 0) placed_sing eq_refl eq_refl
             placed_before_sing placement_sing_fails).
  - split; [exact (NoDup_lin 0) |].
    exact (proj2 (get_cartesian_first_singularity (z_lin 0) (NoDup_lin 0))
             placed_lin eq_refl (placed_before_lin_all 0 _)).
Defined.




Lemma sentinel_rows_placed_against_frame_witness :
  NoDup (index (_frame z_abs)) /\
  Forall (fun l => (abs_refs_bound <= l)%Z) (index (_frame z_abs)) /\
  nth_error (_frame z_abs) 2
  = Some (3%Z, mkrow "H" origin_id 1 e_x_id 180 e_y_id 0) /\
  get_cartesian z_abs = Return cart_abs /\
  exists pos,
    nth_error cart_abs 2 = Some (3%Z, "H"%string, pos) /\
    _jit_calc_single_position
      (absolute_refs origin_id, absolute_refs e_x_id, absolute_refs e_y_id)
      [(1, 180 * (PI / 180), 0 * (PI / 180))] 0
    = (ERR_CODE_OK, pos).
Proof.
  split; [exact NoDup_abs |]. split; [exact labels_abs_not_sentinels |].
  split; [reflexivity |]. split; [exact get_cartesian_abs |].
  exact (sentinel_rows_placed_against_frame z_abs 2 3
           (mkrow "H" origin_id 1 e_x_id 180 e_y_id 0) cart_abs
           NoDup_abs labels_abs_not_sentinels eq_refl eq_refl eq_refl eq_refl
           get_cartesian_abs).
Defined.

(** All references of the three atoms of [z_abs] are sentinels, and none
    of the three is placed at a fixed point of the frame. *)
Lemma first_atoms_off_the_frame :
  c_table_of (_frame z_abs)
  = [ (origin_id, e_z_id, e_x_id); (origin_id, e_z_id, e_x_id);
      (origin_id, e_x_id, e_y_id) ] /\
  get_cartesian z_abs = Return cart_abs /\
  map snd cart_abs = [(0, 0, -1); (0, 0, -2); (-1, 0, 0)] /\
  forall j : Z,
    absolute_refs j <> (0, 0, -1) /\ absolute_refs j <> (0, 0, -2) /\
    absolute_refs j <> (-1, 0, 0).
Proof.
  split; [reflexivity |]. split; [exact get_cartesian_abs |].
  split; [reflexivity |]. intros j.
  destruct (absolute_refs_cases j) as [-> | [-> | [-> | ->]]];
    repeat split; intros [=]; lra.
Qed.






(** * Further properties on concrete molecules *)

(** Atom 7 of [frame_mov]: the references (0,0,-2), (0,0,-1), (-1,0,0),
    bond 1 and a right angle. *)
Lemma place_quarter_mov :
  _jit_calc_single_position ((0, 0, -2), (0, 0, -1), (-1, 0, 0))
    [(1, 90 * (PI / 180), 0 * (PI / 180))] 0
  = (ERR_CODE_OK, (-1, 0, -2)).
Proof. place_at_quarter 0 (-1) 0. Qed.

Lemma unit_normalized (v : vec) :
  vdot v v = 1 -> vdot (normalize v) (normalize v) = 1.
Proof. intros Hv. now rewrite (normalize_unit v Hv). Qed.

(** The general branch: atom 7 of [frame_mov] lies at the distance of its
    bond from its b reference. *)
Lemma placement_realises_bond_witness :
  ring_theory 0 1 Rplus Rmult Rminus Ropp (@eq R) /\
  vdot (normalize (vsub (0, 0, -1) (0, 0, -2)))
       (normalize (vsub (0, 0, -1) (0, 0, -2))) = 1 /\
  _jit_calc_single_position ((0, 0, -2), (0, 0, -1), (-1, 0, 0))
    [(1, 90 * (PI / 180), 0 * (PI / 180))] 0
  = (ERR_CODE_OK, (-1, 0, -2)) /\
  vdot (vsub (-1, 0, -2) (0, 0, -2)) (vsub (-1, 0, -2) (0, 0, -2)) = 1 * 1.
Proof.
  assert (HBA : vdot (vsub (0, 0, -1) (0, 0, -2)) (vsub (0, 0, -1) (0, 0, -2))
                = 1) by (unfold_vec; lra).
  assert (Hunit : vdot (normalize (vsub (0, 0, -1) (0, 0, -2)))
                       (normalize (vsub (0, 0, -1) (0, 0, -2))) = 1)
    by exact (unit_normalized _ HBA).
  assert (Hcross : np_cross (vsub (0, 0, -1) (0, 0, -2))
                     (vsub (-1, 0, 0) (0, 0, -1)) = (0, -1, 0)) by vec_eq.
  assert (Hn1 : vdot (normalize (0, -1, 0)) (normalize (0, -1, 0)) = 1)
    by (apply unit_normalized; unfold_vec; lra).
  split; [exact RTheory |]. split; [exact Hunit |].
  split; [exact place_quarter_mov |].
  apply (placement_realises_bond (N := RNumeric) (H := RHelpers) RTheory
           (0, 0, -2) (0, 0, -1) (-1, 0, 0) 1 (90 * (PI / 180))
           (0 * (PI / 180)) [(1, 90 * (PI / 180), 0 * (PI / 180))] 0%nat
           (-1, 0, -2) eq_refl Hunit).
  - intros v. apply rotation_isometry.
    change (@_jit_cross RNumeric RHelpers) with (@np_cross RNumeric).
    change (@_jit_normalize RNumeric RHelpers) with normalize.
    rewrite Hcross. now apply unit_normalized.
  - intros v. apply rotation_isometry.
    change (@_jit_normalize RNumeric RHelpers) with normalize.
    now apply unit_normalized.
  - exact place_quarter_mov.
Defined.

(** The conversion of [z_sing] raises at atom 4, the row at position 3,
    with the three atoms before it placed. *)
Lemma conversion_outcome_witness :
  NoDup (index (_frame z_sing)) /\
  exists i r,
    nth_error (_frame z_sing) i = Some (exc_index e_sing, r) /\
    exc_b e_sing = b r /\ exc_a e_sing = a r /\ exc_d e_sing = d r /\
    List.length (already_built_cartesian e_sing) = i /\
    map (fun x => fst (fst x)) (already_built_cartesian e_sing)
    = firstn i (index (_frame z_sing)) /\
    map (fun x => snd (fst x)) (already_built_cartesian e_sing)
    = firstn i (map (fun kr => atom (snd kr)) (_frame z_sing)) /\
    placed_before (jit_c_table z_sing) (jit_zmat_values z_sing)
      (map snd (already_built_cartesian e_sing)) i /\
    fst (placement_at (jit_c_table z_sing) (jit_zmat_values z_sing)
           (map snd (already_built_cartesian e_sing)) i)
    = ERR_CODE_InvalidReference.
Proof.
  split; [exact NoDup_sing |].
  pose proof (conversion_outcome z_sing NoDup_sing) as Hw.
  rewrite get_cartesian_sing in Hw. exact Hw.
Defined.

(** The partial Cartesian of the failure of [z_sing] is the Cartesian of
    its first three rows. *)
Lemma partial_cartesian_is_conversion_witness :
  (keys_below_are_abs_refs <= 0)%Z /\
  NoDup (index (_frame z_sing)) /\
  get_cartesian z_sing = Raise (InvalidReference e_sing) /\
  List.length (already_built_cartesian e_sing) = 3%nat /\
  topologicalb (firstn 3 (jit_c_table z_sing)) = true /\
  nth_error (index (_frame z_sing)) 3 = Some 4%Z /\
  get_cartesian (first_rows 3 z_sing)
  = Return (already_built_cartesian e_sing).
Proof.
  assert (Hneg : (@keys_below_are_abs_refs RNumeric RHelpers <= 0)%Z)
    by (change (@keys_below_are_abs_refs RNumeric RHelpers)
          with abs_refs_bound; unfold abs_refs_bound; lia).
  assert (Htop : topologicalb (firstn 3 (jit_c_table z_sing)) = true)
    by reflexivity.
  split; [exact Hneg |]. split; [exact NoDup_sing |].
  split; [exact get_cartesian_sing |]. split; [reflexivity |].
  split; [exact Htop |].
  exact (partial_cartesian_is_conversion z_sing e_sing Hneg NoDup_sing
           get_cartesian_sing ltac:(discriminate) Htop).
Defined.

(** The recovery of [z_sing] ends in a failure, with the dummy 5 in the
    table; the labels are still distinct. *)
Lemma dummies_keep_labels_distinct_witness :
  NoDup (index (_frame z_sing)) /\
  (exists e',
     _insert_dummy_zmat 2 e_sing z_sing
     = (z_sing_dummy dummy_values_sing 1, [DummyInserted 4 5],
        Raise (InvalidReference e'))) /\
  NoDup (index (_frame (z_sing_dummy dummy_values_sing 1))).
Proof.
  destruct recovery_sing as (e' & Hrun & _).
  split; [exact NoDup_sing |].
  split; [exists e'; exact (Hrun 0%nat) |].
  exact (dummies_keep_labels_distinct 2 e_sing None z_sing _ _ _ NoDup_sing
           (or_intror (or_introl (Hrun 0%nat)))).
Defined.

(** A failure named for the atom 9, which is no row of [z_sing]. *)
Lemma insertion_key_errors_witness :
  dict_mem (has_dummies (_metadata z_sing)) (exc_index e_nine) = false /\
  loc (_frame z_sing) (exc_index e_nine) = None /\
  _insert_dummy_zmat 1 e_nine z_sing = (z_sing, [], Raise (KeyError 9)).
Proof.
  split; [reflexivity |]. split; [reflexivity |].
  exact (proj1 (insertion_key_errors 0 e_nine z_sing eq_refl) eq_refl).
Defined.

(** The dummy of [z_sing] gets the label 5 and the last row of the partial
    Cartesian. *)
Lemma dummy_cart_appended_witness :
  (forall k,
     In k (map (fun x => fst (fst x)) (already_built_cartesian e_sing)) ->
     In k (index (_frame z_sing))) /\
  _insert_dummy_cart z_sing e_sing = Return (dummy_cart_sing, 5%Z) /\
  5%Z = (index_max (index (_frame z_sing)) + 1)%Z /\
  ~ In 5%Z (index (_frame z_sing)) /\
  exists pos,
    dummy_cart_sing
    = already_built_cartesian e_sing ++ [(5%Z, "X"%string, pos)].
Proof.
  assert (Hsub : forall k,
            In k (map (fun x => fst (fst x)) (already_built_cartesian e_sing))
            -> In k (index (_frame z_sing))).
  { intros k Hk. cbn in Hk |- *. tauto. }
  split; [exact Hsub |]. split; [exact insert_dummy_cart_sing |].
  exact (dummy_cart_appended z_sing e_sing dummy_cart_sing 5 Hsub
           insert_dummy_cart_sing).
Defined.

(** [z_sing] with its dummy still raises at atom 4: the removability check
    and the removal without a list end with that failure. *)
Lemma removal_converts_first_witness :
  (forall k,
     In k (map fst (has_dummies (_metadata (z_sing_dummy dummy_values_sing 5))))
     -> In k (index (_frame (z_sing_dummy dummy_values_sing 5)))) /\
  exists x,
    get_cartesian (z_sing_dummy dummy_values_sing 5) = Raise x /\
    _has_removable_dummies (z_sing_dummy dummy_values_sing 5) = Raise x /\
    _remove_dummies None (z_sing_dummy dummy_values_sing 5)
    = (z_sing_dummy dummy_values_sing 5, [], Raise x).
Proof.
  assert (Hsub : forall k,
            In k (map fst
                    (has_dummies (_metadata (z_sing_dummy dummy_values_sing 5))))
            -> In k (index (_frame (z_sing_dummy dummy_values_sing 5)))).
  { intros k [<- | []]. cbn. tauto. }
  destruct (get_cartesian_sing_dummy dummy_values_sing 5 (or_introl eq_refl))
    as [pd Hget].
  split; [exact Hsub |]. eexists. split; [exact Hget |].
  exact (proj1 (removal_converts_first (z_sing_dummy dummy_values_sing 5) Hsub)
           _ Hget).
Defined.

(** The dummy inserted for atom 4 of the linear molecule is taken back by
    the next toggle. *)
Lemma insertion_taken_back_witness :
  dict_mem (has_dummies (_metadata z_lin_bent)) (exc_index e_col) = false /\
  toggle_dummy e_col z_lin_bent
  = (z_lin_dummy 5, [DummyInserted 4 5], Return tt) /\
  toggle_dummy e_col (z_lin_dummy 5)
  = (after_removal (z_lin_dummy 5) [4%Z] [values_lin4],
     [DummiesRemoved [4%Z]], Return tt) /\
  exists pre ri post v,
    _frame z_lin_bent = pre ++ (exc_index e_col, ri) :: post /\
    _frame (after_removal (z_lin_dummy 5) [4%Z] [values_lin4])
    = pre ++ (exc_index e_col, set_values v ri) :: post /\
    has_dummies (_metadata (after_removal (z_lin_dummy 5) [4%Z] [values_lin4]))
    = has_dummies (_metadata z_lin_bent) /\
    [DummyInserted 4 5]
    = [DummyInserted (exc_index e_col)
         (index_max (index (_frame z_lin_bent)) + 1)%Z] /\
    [DummiesRemoved [4%Z]] = [DummiesRemoved [exc_index e_col]].
Proof.
  split; [reflexivity |]. split; [exact toggle_lin_bent |].
  split; [exact toggle_lin_dummy |].
  exact (insertion_taken_back e_col e_col z_lin_bent (z_lin_dummy 5) _ _ _
           eq_refl eq_refl toggle_lin_bent toggle_lin_dummy).
Defined.

(** The linear molecule under the labels 10, 20, 30, 40. *)
Lemma change_numbering_round_trip_witness :
  NoDup [10; 20; 30; 40]%Z /\
  List.length [10; 20; 30; 40]%Z = List.length (_frame (z_lin 0)) /\
  exists out,
    change_numbering_with (Some [10; 20; 30; 40]%Z) true (z_lin 0)
    = Return out /\
    index (_frame out) = [10; 20; 30; 40]%Z /\
    change_numbering_with (Some (index (_frame (z_lin 0)))) true out
    = Return (z_lin 0).
Proof.
  assert (Hnd : NoDup [10; 20; 30; 40]%Z) by nodup_labels.
  split; [exact Hnd |]. split; [reflexivity |].
  apply (change_numbering_round_trip [10; 20; 30; 40]%Z true (z_lin 0) Hnd
           eq_refl).
  intros v Hv. left.
  unfold z_lin, frame_lin, mkrow in Hv |- *.
  cbn [replaced_refs _frame app In b a d index map fst] in Hv |- *. tauto.
Defined.


(** The first three rows of the linear molecule convert to the first three
    rows of its Cartesian. *)
Lemma conversion_of_first_rows_witness :
  (keys_below_are_abs_refs <= 0)%Z /\
  NoDup (index (_frame (z_lin 0))) /\
  get_cartesian (z_lin 0) = Return cart_lin /\
  (0 < 3 <= List.length (_frame (z_lin 0)))%nat /\
  topologicalb (firstn 3 (jit_c_table (z_lin 0))) = true /\
  get_cartesian (first_rows 3 (z_lin 0)) = Return (firstn 3 cart_lin).
Proof.
  assert (Hneg : (@keys_below_are_abs_refs RNumeric RHelpers <= 0)%Z)
    by (change (@keys_below_are_abs_refs RNumeric RHelpers)
          with abs_refs_bound; unfold abs_refs_bound; lia).
  assert (Hk : (0 < 3 <= List.length (_frame (z_lin 0)))%nat)
    by (cbn [List.length _frame z_lin frame_lin]; lia).
  assert (Htop : topologicalb (firstn 3 (jit_c_table (z_lin 0))) = true)
    by reflexivity.
  split; [exact Hneg |]. split; [exact (NoDup_lin 0) |].
  split; [exact (get_cartesian_lin 0) |]. split; [exact Hk |].
  split; [exact Htop |].
  exact (conversion_of_first_rows (z_lin 0) cart_lin 3 Hneg (NoDup_lin 0)
           (get_cartesian_lin 0) Hk Htop).
Defined.
